(** * Elementary-math MathML3 support: the XSLT stylesheet [Mml3.XSLT],
      the [Mml3.mmlFilter] pre-filter and the [Mml3Handler] extension.

    The stylesheet is embedded as a function from trees to trees.  Each
    [xsl:template] is one rule of [stylesheet] (mode, match pattern,
    priority) and one body, [run_template] maps the rule that wins to its
    body, and [instantiate] is [xsl:apply-templates] on one node, with the
    built-in rules of XSLT 1.0 for what no template matches.  Result tree
    fragments are node lists; a template that converts one with
    [c:node-set] and scans it again works on that list.

    XPath strings are UTF-8 [string]s whose length counts characters.  XPath
    numbers are exact rationals and NaN: they agree with the double
    precision numbers of XPath wherever those are exact, which covers the
    integers and short decimals found in MathML attributes. *)

From Stdlib Require Import String Ascii List ZArith QArith Qround Lia.
From stdpp Require Import gmap strings list.
Import ListNotations.

Local Open Scope string_scope.
Local Open Scope list_scope.

(** ** XPath strings *)

Module XStr.

(** XML white space: #x20, #x9, #xD, #xA. *)
Definition is_space (a : ascii) : bool :=
  match nat_of_ascii a with
  | 32%nat | 9%nat | 13%nat | 10%nat => true
  | _ => false
  end.

(** A UTF-8 continuation byte (10xxxxxx): it belongs to the character
    started by an earlier byte. *)
Definition is_cont (a : ascii) : bool :=
  match a with
  | Ascii _ _ _ _ _ _ b6 b7 => b7 && negb b6
  end.

(** Splits a string into its characters (code points).  The first
    component collects continuation bytes not yet attached to a lead byte. *)
Fixpoint chars_aux (s : string) : string * list string :=
  match s with
  | EmptyString => (EmptyString, [])
  | String a rest =>
      let '(pending, cs) := chars_aux rest in
      if is_cont a then (String a pending, cs)
      else (EmptyString, String a pending :: cs)
  end.

Definition chars (s : string) : list string :=
  let '(pending, cs) := chars_aux s in
  match pending with
  | EmptyString => cs
  | _ => pending :: cs
  end.

(** [string-length(s)] counts characters. *)
Definition string_length (s : string) : nat := length (chars s).

(** [substring(s, pos, 1)] for a position counted from 1. *)
Definition char_at (s : string) (pos : nat) : string :=
  match pos with
  | O => EmptyString
  | S i => nth i (chars s) EmptyString
  end.

Fixpoint is_prefix (p s : string) : bool :=
  match p, s with
  | EmptyString, _ => true
  | String a p', String b s' => Ascii.eqb a b && is_prefix p' s'
  | String _ _, EmptyString => false
  end.

(** [contains(s, t)]. *)
Fixpoint contains (s t : string) : bool :=
  is_prefix t s ||
  match s with
  | EmptyString => false
  | String _ s' => contains s' t
  end.

(** [substring-before(s, t)]: what precedes the first occurrence of [t],
    the empty string when [t] does not occur. *)
Fixpoint substring_before (s t : string) : string :=
  if is_prefix t s then EmptyString
  else match s with
       | EmptyString => EmptyString
       | String a s' =>
           if contains s' t then String a (substring_before s' t)
           else EmptyString
       end.

(** [normalize-space(s)]: leading and trailing white space removed, inner
    runs replaced by one space.  [pending] tells that white space was seen
    after the text emitted so far; [started] that some text was emitted. *)
Fixpoint normalize_aux (started pending : bool) (s : string) : string :=
  match s with
  | EmptyString => EmptyString
  | String a rest =>
      if is_space a then normalize_aux started started rest
      else if pending
           then String " "%char (String a (normalize_aux true false rest))
           else String a (normalize_aux true false rest)
  end.

Definition normalize_space (s : string) : string :=
  normalize_aux false false s.

(** XPath [boolean(string)]: true when not empty. *)
Definition nonempty (s : string) : bool :=
  match s with
  | EmptyString => false
  | _ => true
  end.

End XStr.

(** ** XPath numbers

    Finite values are kept as reduced rationals, so that equal numbers are
    equal terms.  The stylesheet divides by the constants 2 and .007 only, so
    no infinity arises, and it never tells a negative zero from zero. *)

Module XNum.

Inductive t : Type :=
| NaN
| Num (q : Q).

Definition of_Q (q : Q) : t := Num (Qred q).
Definition of_Z (z : Z) : t := Num (inject_Z z).
Definition of_nat (n : nat) : t := of_Z (Z.of_nat n).

Definition lift2 (f : Q -> Q -> Q) (a b : t) : t :=
  match a, b with
  | Num x, Num y => of_Q (f x y)
  | _, _ => NaN
  end.

Definition add : t -> t -> t := lift2 Qplus.
Definition sub : t -> t -> t := lift2 Qminus.
Definition mul : t -> t -> t := lift2 Qmult.

(** [a div b] for a constant divisor [b] that is not zero. *)
Definition div : t -> t -> t := lift2 Qdiv.

(** Comparisons with NaN are false. *)
Definition leb (a b : t) : bool :=
  match a, b with
  | Num x, Num y => Qle_bool x y
  | _, _ => false
  end.

Definition eqb (a b : t) : bool :=
  match a, b with
  | Num x, Num y => Qeq_bool x y
  | _, _ => false
  end.

(** [round(x)]: the integer closest to [x], the larger one on a tie. *)
Definition round (a : t) : t :=
  match a with
  | NaN => NaN
  | Num x => of_Z (Qfloor (Qplus x (1 # 2)))
  end.

(** *** string to number: optional white space, an optional minus sign,
    [Digits ('.' Digits?)? | '.' Digits], optional white space; anything
    else is NaN. *)

Definition digit_val (a : ascii) : option Z :=
  let n := nat_of_ascii a in
  if (48 <=? n)%nat && (n <=? 57)%nat then Some (Z.of_nat (n - 48)) else None.

Fixpoint drop_space (s : string) : string :=
  match s with
  | String a rest => if XStr.is_space a then drop_space rest else s
  | EmptyString => EmptyString
  end.

Fixpoint all_space (s : string) : bool :=
  match s with
  | String a rest => XStr.is_space a && all_space rest
  | EmptyString => true
  end.

(** Reads digits: the value read so far, the number of digits read, and
    the rest of the string. *)
Fixpoint read_digits (acc : Z) (count : nat) (s : string) : Z * nat * string :=
  match s with
  | String a rest =>
      match digit_val a with
      | Some d => read_digits (10 * acc + d) (S count) rest
      | None => (acc, count, s)
      end
  | EmptyString => (acc, count, s)
  end.

Definition parse_unsigned (s : string) : option Q :=
  let '(ip, ni, rest) := read_digits 0 0 s in
  match rest with
  | String "."%char rest' =>
      let '(fp, nf, rest'') := read_digits 0 0 rest' in
      if ((ni =? 0)%nat && (nf =? 0)%nat) || negb (all_space rest'') then None
      else Some (Qplus (inject_Z ip) (Qmake fp (Z.to_pos (10 ^ Z.of_nat nf))))
  | _ =>
      if (ni =? 0)%nat || negb (all_space rest) then None
      else Some (inject_Z ip)
  end.

Definition of_string (s : string) : t :=
  match drop_space s with
  | String "-"%char rest =>
      match parse_unsigned rest with
      | Some q => of_Q (Qopp q)
      | None => NaN
      end
  | s' =>
      match parse_unsigned s' with
      | Some q => of_Q q
      | None => NaN
      end
  end.

(** *** number to string: integers without a decimal point, other values
    in decimal notation, NaN as "NaN". *)

Definition digit_char (d : Z) : ascii := ascii_of_nat (48 + Z.to_nat d).

Fixpoint nat_digits (fuel : nat) (n : Z) (acc : string) : string :=
  match fuel with
  | O => acc
  | S fuel' =>
      let acc' := String (digit_char (n mod 10)) acc in
      if (n / 10 =? 0)%Z then acc' else nat_digits fuel' (n / 10) acc'
  end.

Definition Z_abs_string (n : Z) : string :=
  nat_digits (S (Z.to_nat (Z.log2 (Z.abs n)))) (Z.abs n) EmptyString.

(** Digits after the decimal point of [r / d], for [0 <= r < d]. *)
Fixpoint frac_digits (fuel : nat) (r d : Z) : string :=
  match fuel with
  | O => EmptyString
  | S fuel' =>
      if (r =? 0)%Z then EmptyString
      else String (digit_char (10 * r / d)) (frac_digits fuel' ((10 * r) mod d) d)
  end.

Definition to_string (a : t) : string :=
  match a with
  | NaN => "NaN"
  | Num x =>
      let q := Qred x in
      let n := Qnum q in
      let d := Zpos (Qden q) in
      let sign := if (n <? 0)%Z then "-" else "" in
      let ip := (Z.abs n / d)%Z in
      let r := (Z.abs n mod d)%Z in
      if (r =? 0)%Z then (sign ++ Z_abs_string ip)%string
      else (sign ++ Z_abs_string ip ++ "." ++ frac_digits 20 r d)%string
  end.

(** How many of the positions 1 .. [n] satisfy [position() <= bound]:
    the length of a for-each over [(//node())[position() <= bound]] in a
    document of [n] nodes. *)
Definition positions_upto (bound : t) (n : nat) : nat :=
  length (filter (fun k => leb (of_nat k) bound) (seq 1 n)).

End XNum.

(** ** Trees *)

(** An expanded element name: namespace URI and local part. *)
Record qname : Type := QName { q_ns : string; q_local : string }.

(** The namespace bound to the prefix [m] in the stylesheet. *)
Definition mathml_ns : string := "http://www.w3.org/1998/Math/MathML".

(** [m:local], and a name in no namespace. *)
Definition M (local : string) : qname := QName mathml_ns local.
Definition NoNS (local : string) : qname := QName "" local.

Definition qname_eqb (a b : qname) : bool :=
  String.eqb (q_ns a) (q_ns b) && String.eqb (q_local a) (q_local b).

(** The name test [m:*]. *)
Definition in_mathml (a : qname) : bool := String.eqb (q_ns a) mathml_ns.

#[local] Set Warnings "-register-all".

(** A tree of elements and text.  Attributes are a finite map from names to
    values, so their order does not matter; comments and processing
    instructions are left out. *)
Inductive node : Type :=
| Element (name : qname) (attrs : gmap string string) (children : list node)
| Text (value : string).

Definition is_element (n : node) : bool :=
  match n with
  | Element _ _ _ => true
  | Text _ => false
  end.

(** The child axis with the node test [*]. *)
Definition elements (l : list node) : list node := filter (fun n => is_element n) l.

Definition has_name (q : qname) (n : node) : bool :=
  match n with
  | Element nm _ _ => qname_eqb nm q
  | Text _ => false
  end.

Definition children_of (n : node) : list node :=
  match n with
  | Element _ _ cs => cs
  | Text _ => []
  end.

Definition attrs_of (n : node) : gmap string string :=
  match n with
  | Element _ a _ => a
  | Text _ => ∅
  end.

(** [string(@k)]: the value of the attribute, empty when it is absent. *)
Definition attr (a : gmap string string) (k : string) : string :=
  default "" (a !! k).

Definition has_attr (a : gmap string string) (k : string) : bool :=
  bool_decide (is_Some (a !! k)).

(** [number(sum(@k))]: zero without the attribute. *)
Definition attr_sum (a : gmap string string) (k : string) : XNum.t :=
  match a !! k with
  | Some v => XNum.of_string v
  | None => XNum.of_Z 0
  end.

(** [xsl:copy-of select="@k"] into an element under construction. *)
Definition copy_attr (from : gmap string string) (k : string)
    (into : gmap string string) : gmap string string :=
  match from !! k with
  | Some v => <[k := v]> into
  | None => into
  end.

(** The string value of a node: the text of its descendants, in order. *)
Fixpoint string_value (n : node) : string :=
  match n with
  | Text s => s
  | Element _ _ cs => fold_right (fun c acc => (string_value c ++ acc)%string) "" cs
  end.

(** The nodes of a subtree, its root included; the elements among them. *)
Fixpoint count_nodes (n : node) : nat :=
  match n with
  | Text _ => 1
  | Element _ _ cs => S (list_sum (map count_nodes cs))
  end.

Fixpoint count_elements (n : node) : nat :=
  match n with
  | Text _ => 0
  | Element _ _ cs => S (list_sum (map count_elements cs))
  end.

(** Result trees hold no empty text node and no two adjacent text nodes. *)
Fixpoint merge_text (l : list node) : list node :=
  match l with
  | [] => []
  | Text a :: rest =>
      match merge_text rest with
      | Text b :: rest' => Text (a ++ b)%string :: rest'
      | rest' => if XStr.nonempty a then Text a :: rest' else rest'
      end
  | n :: rest => n :: merge_text rest
  end.

(** An element of the result tree with the given content. *)
Definition mk (name : qname) (a : gmap string string) (content : list node) : node :=
  Element name a (merge_text content).

(** The attributes of a literal result element. *)
Definition attrs_of_list (l : list (string * string)) : gmap string string :=
  list_to_map l.

(** A literal result element of the stylesheet, in the MathML namespace. *)
Definition lit (local : string) (a : list (string * string)) (content : list node) : node :=
  mk (M local) (attrs_of_list a) content.

(** The [i]-th element child, counted from 1: [*[i]]. *)
Definition nth_element (cs : list node) (i : nat) : list node :=
  match i with
  | O => []
  | S k => match nth_error (elements cs) k with
           | Some n => [n]
           | None => []
           end
  end.

(** [l[position() = x]] for a number [x]. *)
Definition at_position (l : list node) (x : XNum.t) : option node :=
  match filter (fun k => XNum.eqb (XNum.of_nat k) x) (seq 1 (length l)) with
  | k :: _ => nth_error l (k - 1)
  | [] => None
  end.

(** ** The context of a template instantiation

    [ancestors] lists the elements above the current node, the parent first;
    [doc_nodes] is the number of nodes selected by [//node()] in the document
    of the current node. *)
Record context : Type := Context {
  ancestors : list (qname * gmap string string);
  doc_nodes : nat
}.

Definition push (cx : context) (name : qname) (a : gmap string string) : context :=
  {| ancestors := (name, a) :: ancestors cx; doc_nodes := doc_nodes cx |}.

(** [ancestor::q[1]/@k] as a string. *)
Definition ancestor_attr (cx : context) (q : qname) (k : string) : string :=
  match filter (fun e => qname_eqb (fst e) q) (ancestors cx) with
  | (_, a) :: _ => attr a k
  | [] => ""
  end.

(** [ancestor::*[@k][1]/@k] as a string. *)
Definition nearest_attr (cx : context) (k : string) : string :=
  match filter (fun e => has_attr (snd e) k) (ancestors cx) with
  | (_, a) :: _ => attr a k
  | [] => ""
  end.

(** The attributes of the parent element: [../@*]. *)
Definition parent_attrs (cx : context) : gmap string string :=
  match ancestors cx with
  | (_, a) :: _ => a
  | [] => ∅
  end.

(** ** Modes, templates and template rules *)

Inductive mode_name : Type := MDefault | MRtl | MMstack1 | MMsc.

(** A mode together with the parameter passed with it: [mstack1] templates
    receive the offset [p]. *)
Inductive mode : Type :=
| Default
| Rtl
| Mstack1 (p : XNum.t)
| Msc.

Definition name_of_mode (md : mode) : mode_name :=
  match md with
  | Default => MDefault
  | Rtl => MRtl
  | Mstack1 _ => MMstack1
  | Msc => MMsc
  end.

Definition mode_name_eqb (a b : mode_name) : bool :=
  match a, b with
  | MDefault, MDefault | MRtl, MRtl | MMstack1, MMstack1 | MMsc, MMsc => true
  | _, _ => false
  end.

(** The element templates of the stylesheet, outside mode [ml]. *)
Inductive template : Type :=
| T_copy                  (* match=* *)
| T_enter_rtl             (* match=m:*[@dir='rtl'] priority=10 *)
| T_mstack                (* match=m:mstack priority=11 *)
| T_mlongdiv              (* match=m:mlongdiv priority=11 *)
| T_rtl_element           (* match=* mode=rtl *)
| T_rtl_mfrac_bevelled    (* match=m:mfrac[@bevelled='true'] mode=rtl *)
| T_rtl_mfrac             (* match=m:mfrac mode=rtl *)
| T_rtl_mroot             (* match=m:mroot mode=rtl *)
| T_rtl_msqrt             (* match=m:msqrt mode=rtl *)
| T_rtl_container         (* match=m:mtable|m:munder|m:mover|m:munderover
                             mode=rtl priority=2 *)
| T_rtl_msup              (* match=m:msup mode=rtl priority=2 *)
| T_rtl_msub              (* match=m:msub mode=rtl priority=2 *)
| T_rtl_msubsup           (* match=m:msubsup mode=rtl priority=2 *)
| T_rtl_mmultiscripts     (* match=m:mmultiscripts mode=rtl priority=2 *)
| T_rtl_mmultiscripts_post (* match=m:mmultiscripts[not(m:mprescripts)]
                              mode=rtl priority=3 *)
| T_rtl_elementary        (* match=m:mlongdiv|m:mstack mode=rtl *)
| T_rtl_madruwb           (* match=m:menclose[@notation='madruwb'] mode=rtl *)
| T_row_other             (* mode=mstack1 match=* *)
| T_row_msrow             (* mode=mstack1 match=m:msrow *)
| T_row_mn                (* mode=mstack1 match=m:mn *)
| T_row_msgroup           (* match=m:msgroup mode=mstack1 *)
| T_row_msline            (* match=m:msline mode=mstack1 *)
| T_row_mscarries         (* match=m:mscarries mode=mstack1 *)
| T_carry_other           (* match=* mode=msc *)
| T_carry_mscarry.        (* match=m:mscarry mode=msc *)

(** A match pattern for elements: a test on the name, the attributes and the
    children. *)
Definition pattern : Type := qname -> gmap string string -> list node -> bool.

Definition any_element : pattern := fun _ _ _ => true.

Definition named (local : string) : pattern :=
  fun nm _ _ => qname_eqb nm (M local).

Definition named_with (local k v : string) : pattern :=
  fun nm a _ => qname_eqb nm (M local) && String.eqb (attr a k) v.

Definition one_of (locals : list string) : pattern :=
  fun nm _ _ => existsb (fun l => qname_eqb nm (M l)) locals.

Record rule : Type := Rule {
  r_mode : mode_name;
  r_pattern : pattern;
  r_priority : Q;
  r_template : template
}.

(** The rules in the order of the stylesheet; a priority not given in the
    stylesheet is the default one of the pattern: -0.5 for [*], 0 for a name,
    0.5 for a pattern with a predicate. *)
Definition stylesheet : list rule :=
  [ Rule MDefault any_element (-1 # 2) T_copy;
    Rule MDefault (fun nm a _ => in_mathml nm && String.eqb (attr a "dir") "rtl")
         10 T_enter_rtl;
    Rule MRtl any_element (-1 # 2) T_rtl_element;
    Rule MRtl (named_with "mfrac" "bevelled" "true") (1 # 2) T_rtl_mfrac_bevelled;
    Rule MRtl (named "mfrac") 0 T_rtl_mfrac;
    Rule MRtl (named "mroot") 0 T_rtl_mroot;
    Rule MRtl (named "msqrt") 0 T_rtl_msqrt;
    Rule MRtl (one_of ["mtable"; "munder"; "mover"; "munderover"]) 2 T_rtl_container;
    Rule MRtl (named "msup") 2 T_rtl_msup;
    Rule MRtl (named "msub") 2 T_rtl_msub;
    Rule MRtl (named "msubsup") 2 T_rtl_msubsup;
    Rule MRtl (named "mmultiscripts") 2 T_rtl_mmultiscripts;
    Rule MRtl (fun nm _ cs => qname_eqb nm (M "mmultiscripts")
                              && negb (existsb (has_name (M "mprescripts")) cs))
         3 T_rtl_mmultiscripts_post;
    Rule MRtl (one_of ["mlongdiv"; "mstack"]) 0 T_rtl_elementary;
    Rule MDefault (named "mstack") 11 T_mstack;
    Rule MMstack1 any_element (-1 # 2) T_row_other;
    Rule MMstack1 (named "msrow") 0 T_row_msrow;
    Rule MMstack1 (named "mn") 0 T_row_mn;
    Rule MMstack1 (named "msgroup") 0 T_row_msgroup;
    Rule MMstack1 (named "msline") 0 T_row_msline;
    Rule MMstack1 (named "mscarries") 0 T_row_mscarries;
    Rule MMsc any_element (-1 # 2) T_carry_other;
    Rule MMsc (named "mscarry") 0 T_carry_mscarry;
    Rule MDefault (named "mlongdiv") 11 T_mlongdiv;
    Rule MRtl (named_with "menclose" "notation" "madruwb") (1 # 2) T_rtl_madruwb ].

(** Conflict resolution: among the rules of the mode that match, the highest
    priority wins, and among those the last one of the stylesheet.  [rules]
    is searched from its end: a rule replaces the choice made among the rules
    after it only with a higher priority. *)
Fixpoint select_rule (rules : list rule) (md : mode_name)
    (nm : qname) (a : gmap string string) (cs : list node) : option rule :=
  match rules with
  | [] => None
  | r :: rest =>
      let applies := mode_name_eqb (r_mode r) md && r_pattern r nm a cs in
      match select_rule rest md nm a cs with
      | Some later =>
          if applies && negb (Qle_bool (r_priority r) (r_priority later))
          then Some r else Some later
      | None => if applies then Some r else None
      end
  end.

Definition select_template (md : mode_name)
    (nm : qname) (a : gmap string string) (cs : list node) : option template :=
  r_template <$> select_rule stylesheet md nm a cs.

(** *** Text nodes in mode [rtl]

    Eight templates [match="text()[.='x']" mode="rtl"]; any other text node
    falls to the built-in rule, which copies it. *)
Definition rtl_text_rules : list (string * string) :=
  [ ("(", ")"); (")", "(");
    ("{", "}"); ("}", "{");
    ("<", ">"); (">", "<");
    ("∈", "∋"); ("∋", "∈") ].

Definition rtl_text (s : string) : string :=
  match filter (fun r => String.eqb (fst r) s) rtl_text_rules with
  | (_, out) :: _ => out
  | [] => s
  end.

(** *** Attributes in mode [rtl] *)

Record attr_rule : Type := AttrRule {
  a_pattern : string -> string -> bool;
  a_priority : Q;
  a_output : string -> string -> list (string * string)
}.

Definition attr_named (k : string) : string -> string -> bool :=
  fun name _ => String.eqb name k.

Definition attr_is (k v : string) : string -> string -> bool :=
  fun name value => String.eqb name k && String.eqb value v.

Definition rtl_attr_rules : list attr_rule :=
  [ AttrRule (fun _ _ => true) (-1 # 2) (fun k v => [(k, v); ("dir", "ltr")]);
    AttrRule (attr_named "open") 0 (fun _ v => [("close", v)]);
    AttrRule (attr_is "open" "(") (1 # 2) (fun _ _ => [("close", ")")]);
    AttrRule (attr_is "open" ")") (1 # 2) (fun _ _ => [("close", "(")]);
    AttrRule (attr_is "open" "[") (1 # 2) (fun _ _ => [("close", "]")]);
    AttrRule (attr_is "open" "]") (1 # 2) (fun _ _ => [("close", "[")]);
    AttrRule (attr_is "open" "{") (1 # 2) (fun _ _ => [("close", "}")]);
    AttrRule (attr_is "open" "}") (1 # 2) (fun _ _ => [("close", "{")]);
    AttrRule (attr_named "close") 0 (fun _ v => [("open", v)]);
    AttrRule (attr_is "close" "(") (1 # 2) (fun _ _ => [("open", ")")]);
    AttrRule (attr_is "close" ")") (1 # 2) (fun _ _ => [("open", "(")]);
    AttrRule (attr_is "close" "[") (1 # 2) (fun _ _ => [("open", "]")]);
    AttrRule (attr_is "close" "]") (1 # 2) (fun _ _ => [("open", "[")]);
    AttrRule (attr_is "close" "{") (1 # 2) (fun _ _ => [("open", "}")]);
    AttrRule (attr_is "close" "}") (1 # 2) (fun _ _ => [("open", "{")]);
    AttrRule (attr_is "notation" "radical") (1 # 2)
             (fun _ _ => [("notation", "top right")]) ].

Fixpoint select_attr_rule (rules : list attr_rule) (k v : string) : option attr_rule :=
  match rules with
  | [] => None
  | r :: rest =>
      match select_attr_rule rest k v with
      | Some later =>
          if a_pattern r k v && negb (Qle_bool (a_priority r) (a_priority later))
          then Some r else Some later
      | None => if a_pattern r k v then Some r else None
      end
  end.

(** The attributes one attribute of the source contributes to the element
    under construction. *)
Definition rtl_attr (k v : string) : list (string * string) :=
  match select_attr_rule rtl_attr_rules k v with
  | Some r => a_output r k v
  | None => []
  end.

(** Adding an attribute to an element replaces one of the same name. *)
Definition add_attrs (into : gmap string string) (l : list (string * string))
    : gmap string string :=
  fold_left (fun acc kv => <[fst kv := snd kv]> acc) l into.

(** [xsl:apply-templates select="@*" mode="rtl"] inside an element that
    already has the attributes [base].  The attributes of an element have no
    order; the result does not depend on the order in which the fold meets
    them ([rtl_attrs_insert]). *)
Definition rtl_attrs (base a : gmap string string) : gmap string string :=
  map_fold (fun k v acc => add_attrs acc (rtl_attr k v)) base a.

(** ** Template bodies

    Every body is written over [rec], the instantiation of
    [xsl:apply-templates] on one node; [None] tells that the evaluation was
    cut short. *)

Definition newline : string := String (ascii_of_nat 10) EmptyString.

(** The stack alignment seen from a row: [ancestor::m:mstack[1]/@stackalign],
    "decimalpoint" when that is empty. *)
Definition stack_align (cx : context) : string :=
  let align1 := ancestor_attr cx (M "mstack") "stackalign" in
  if XStr.nonempty align1 then align1 else "decimalpoint".

(** The decimal separator seen from a row: the nearest [decimalpoint]
    attribute of an ancestor, "." when that is empty. *)
Definition decimal_point (cx : context) : string :=
  let dp1 := nearest_attr cx "decimalpoint" in
  if XStr.nonempty dp1 then dp1 else ".".

(** The test [not(string(@length)) or @length=0] of the msline template. *)
Definition no_length (a : gmap string string) : bool :=
  negb (XStr.nonempty (attr a "length"))
  || match a !! "length" with
     | Some v => XNum.eqb (XNum.of_string v) (XNum.of_Z 0)
     | None => false
     end.

(** The attribute [l] of the row made for an [msline]. *)
Definition msline_l (cx : context) (a : gmap string string) (p : XNum.t) : string :=
  if no_length a then "*"
  else if String.eqb (stack_align cx) "right" || String.eqb (stack_align cx) "decimalpoint"
       then XNum.to_string (XNum.add p (XNum.of_string (attr a "length")))
       else XNum.to_string p.

Definition msline_thickness (a : gmap string string) : string :=
  let w := attr a "mslinethickness" in
  if String.eqb w "thin" then "0.1em"
  else if String.eqb w "medium" then "0.15em"
  else if String.eqb w "thick" then "0.2em"
  else if has_attr a "mslinethickness" then w
  else "0.15em".

Definition msline_cell (class w : string) : node :=
  lit "mtd" [("class", class)]
    [lit "mpadded" [("lspace", "-0.2em"); ("width", "0em"); ("height", "0em")]
       [lit "mfrac" [("linethickness", w)]
          [lit "mspace" [("width", ".5em")] []; lit "mrow" [] []]]].

(** The attribute [l] of the row made for an [mn]: the literal value of the
    result element, unless one of the [xsl:when] branches replaces it. *)
Definition mn_l (cx : context) (mn : string) (p : XNum.t) : string :=
  let align := stack_align cx in
  let dp := decimal_point cx in
  let len := XStr.string_length mn in
  if String.eqb align "right"
     || (String.eqb align "decimalpoint" && negb (XStr.contains mn dp))
  then XNum.to_string (XNum.add p (XNum.of_nat len))
  else if String.eqb align "center"
  then XNum.to_string (XNum.round (XNum.div (XNum.add p (XNum.of_nat len)) (XNum.of_Z 2)))
  else if String.eqb align "decimalpoint"
  then XNum.to_string
         (XNum.add p (XNum.of_nat (XStr.string_length (XStr.substring_before mn dp))))
  else "$p".

Definition mn_cell (digit : string) : node :=
  lit "mtd" []
    ((if String.eqb digit "." || String.eqb digit ","
      then [lit "mspace" [("width", ".15em")] []] else [])
     ++ [lit "mn" [] [Text digit]]).

(** The variable [l1] of the msrow template, a string.  [first_mn_row] is the
    for-each over [m:mtr[m:mtd/m:mn][1]]; [seen] counts the preceding sibling
    elements that carry an attribute [l]. *)
Definition has_mn_cell (r : node) : bool :=
  has_name (M "mtr") r
  && existsb (fun d => has_name (M "mtd") d && existsb (has_name (M "mn")) (children_of d))
             (children_of r).

Fixpoint first_mn_row (seen : nat) (rows : list node) : string :=
  match rows with
  | [] => ""
  | r :: rest =>
      if has_mn_cell r
      then XNum.to_string (XNum.add (attr_sum (attrs_of r) "l") (XNum.of_nat seen))
      else first_mn_row (if has_attr (attrs_of r) "l" then S seen else seen) rest
  end.

Definition row_cells (row : list node) : list node :=
  concat (map (fun r => elements (children_of r)) (filter (fun r => has_name (M "mtr") r) row)).

Definition msrow_l1 (cx : context) (cs row : list node) : string :=
  let align := stack_align cx in
  if String.eqb align "decimalpoint" && existsb (has_name (M "mn")) cs
  then first_mn_row 0 (elements row)
  else if String.eqb align "right" || String.eqb align "decimalpoint"
  then XNum.to_string
         (XNum.of_nat (length (filter (fun d => has_name (M "mtd") d) (row_cells row))))
  else "0".

(** [mathsize="{round(../@scriptsizemultiplier div .007)}%"]. *)
Definition carry_mathsize (parent : gmap string string) : string :=
  (XNum.to_string
     (XNum.round (XNum.div (XNum.of_string (attr parent "scriptsizemultiplier"))
                           (XNum.of_string ".007"))) ++ "%")%string.

(** The element children selected around [m:mprescripts] by the general
    multiscript template, as positions counted from 0 among the element
    children. *)
Definition is_prescripts (es : list node) (i : nat) : bool :=
  match nth_error es i with
  | Some e => has_name (M "mprescripts") e
  | None => false
  end.

(** [m:mprescripts/following-sibling::*[position() mod 2 = 1]] *)
Definition after_prescripts (es : list node) : list nat :=
  filter (fun j => existsb (fun i => is_prescripts es i && (i <? j)%nat && Nat.odd (j - i))
                           (seq 0 (length es)))
         (seq 0 (length es)).

(** [m:mprescripts/preceding-sibling::*[position()!=last()][position() mod 2 = 0]] *)
Definition before_prescripts (es : list node) : list nat :=
  filter (fun j => existsb (fun i => is_prescripts es i && (0 <? j)%nat && (j <? i)%nat
                                     && Nat.even (i - j))
                           (seq 0 (length es)))
         (seq 0 (length es)).

(** [*[position() mod 2 = 0]] *)
Definition even_positions (es : list node) : list nat :=
  filter (fun j => Nat.odd j) (seq 0 (length es)).

(** An element and its [following-sibling::*[1]]. *)
Definition pair_at (es : list node) (j : nat) : list node :=
  firstn 2 (skipn j es).

(** The nodes of several results, in order. *)
Definition mconcat (ls : list (list node)) : list node := concat ls.

Section Templates.

Variable rec : mode -> context -> node -> option (list node).

(** [xsl:apply-templates] over a node list. *)
Definition apply_to (md : mode) (cx : context) (l : list node) : option (list node) :=
  mconcat <$> mapM (rec md cx) l.

(** A for-each over selected positions in descending order, each applying
    templates in mode [rtl] to the element and to its next sibling. *)
Definition apply_pairs (cx : context) (es : list node) (sel : list nat)
    : option (list node) :=
  mconcat <$> mapM (fun j => apply_to Rtl cx (pair_at es j)) (rev sel).

Section Element.

Variables (cx : context) (nm : qname) (a : gmap string string) (cs : list node).

Let self : node := Element nm a cs.
Let inner : context := push cx nm a.

Definition t_copy : option (list node) :=
  kids ← apply_to Default inner cs;
  Some [mk nm a kids].

Definition t_enter_rtl : option (list node) :=
  rec Rtl cx self.

Definition t_rtl_element : option (list node) :=
  kids ← mapM (rec Rtl inner) (rev cs);
  Some [mk nm (rtl_attrs ∅ a) (concat (map (fun k => Text " " :: k) kids))].

Definition t_rtl_mfrac_bevelled : option (list node) :=
  den ← apply_to Rtl inner (nth_element cs 2);
  num ← apply_to Rtl inner (nth_element cs 1);
  Some [lit "mrow" []
          [lit "msub" [] (lit "mi" [] [] :: den);
           lit "mo" [] [Text "\"];
           lit "msup" [] (lit "mi" [] [] :: num)]].

Definition t_rtl_mfrac : option (list node) :=
  kids ← apply_to Rtl inner (elements cs);
  Some [mk nm (rtl_attrs ∅ a) kids].

Definition t_rtl_mroot : option (list node) :=
  radicand ← apply_to Rtl inner (nth_element cs 1);
  index ← apply_to Rtl inner (nth_element cs 2);
  Some [lit "msup" []
          (mk (M "menclose") (rtl_attrs {["notation" := "top right"]} a) radicand
           :: index)].

Definition t_rtl_msqrt : option (list node) :=
  radicand ← apply_to Rtl inner (nth_element cs 1);
  Some [mk (M "menclose") (rtl_attrs {["notation" := "top right"]} a) radicand].

Definition t_rtl_container : option (list node) :=
  kids ← apply_to Rtl inner cs;
  Some [mk nm (rtl_attrs ∅ a) kids].

Definition t_rtl_msup : option (list node) :=
  base ← apply_to Rtl inner (nth_element cs 1);
  script ← apply_to Rtl inner (nth_element cs 2);
  Some [lit "mmultiscripts" []
          (base ++ [lit "mprescripts" [] []; lit "none" [] []] ++ script)].

Definition t_rtl_msub : option (list node) :=
  base ← apply_to Rtl inner (nth_element cs 1);
  script ← apply_to Rtl inner (nth_element cs 2);
  Some [lit "mmultiscripts" []
          (base ++ [lit "mprescripts" [] []] ++ script ++ [lit "none" [] []])].

Definition t_rtl_msubsup : option (list node) :=
  base ← apply_to Rtl inner (nth_element cs 1);
  sub ← apply_to Rtl inner (nth_element cs 2);
  sup ← apply_to Rtl inner (nth_element cs 3);
  Some [lit "mmultiscripts" []
          (base ++ [lit "mprescripts" [] []] ++ sub ++ sup)].

Definition t_rtl_mmultiscripts : option (list node) :=
  base ← apply_to Rtl inner (nth_element cs 1);
  pre ← apply_pairs inner (elements cs) (after_prescripts (elements cs));
  post ← apply_pairs inner (elements cs) (before_prescripts (elements cs));
  Some [lit "mmultiscripts" []
          (base ++ pre ++ [lit "mprescripts" [] []] ++ post)].

Definition t_rtl_mmultiscripts_post : option (list node) :=
  base ← apply_to Rtl inner (nth_element cs 1);
  post ← apply_pairs inner (elements cs) (even_positions (elements cs));
  Some [lit "mmultiscripts" []
          (base ++ [lit "mprescripts" [] []] ++ post)].

Definition t_rtl_elementary : option (list node) :=
  content ← rec Default cx self;
  Some [lit "mrow" [("dir", "ltr")] content].

Definition t_rtl_madruwb : option (list node) :=
  kids ← apply_to Rtl inner cs;
  Some [lit "menclose" [("notation", "bottom right")] kids].

(** *** Mode [mstack1]: one row per child of the stack *)

Definition t_row_other (p : XNum.t) : option (list node) :=
  content ← rec Default cx self;
  let l := if String.eqb (ancestor_attr cx (NoNS "mstack") "stackalign") "left"
           then XNum.to_string p
           else XNum.to_string (XNum.add (XNum.of_Z 1) p) in
  Some [lit "mtr" [("l", l)] [lit "mtd" [] content]].

Definition t_row_msrow (p : XNum.t) : option (list node) :=
  row ← apply_to (Mstack1 (XNum.of_Z 0)) inner (elements cs);
  let row := merge_text row in
  let l1 := msrow_l1 cx cs row in
  let l := XNum.add (XNum.add (XNum.of_string l1) (attr_sum a "position")) p in
  Some [Text newline;
        lit "mtr" [("class", "msrow"); ("l", XNum.to_string l)] (row_cells row)].

Definition t_row_mn (p : XNum.t) : option (list node) :=
  let mn := XStr.normalize_space (string_value self) in
  let len := XStr.string_length mn in
  let cells := map (fun pos => mn_cell (XStr.char_at mn pos))
                   (seq 1 (XNum.positions_upto (XNum.of_nat len) (doc_nodes cx))) in
  Some [lit "mtr" [("l", mn_l cx mn p)] cells].

Definition t_row_msgroup (p : XNum.t) : option (list node) :=
  let s := attr_sum a "shift" in
  let thisp := attr_sum a "position" in
  mconcat <$>
    mapM (fun ic : nat * node =>
            rec (Mstack1 (XNum.add (XNum.add p thisp) (XNum.mul (XNum.of_nat (fst ic)) s)))
                inner (snd ic))
         (imap (fun i c => (i, c)) (elements cs)).

Definition t_row_msline (p : XNum.t) : option (list node) :=
  let w := msline_thickness a in
  let cells :=
    if no_length a then [msline_cell "mslinemax" w]
    else repeat (msline_cell "msline" w)
                (XNum.positions_upto (XNum.of_string (attr a "length")) (doc_nodes cx)) in
  Some [lit "mtr" [("class", "msline"); ("l", msline_l cx a p)] cells].

Definition t_row_mscarries (p : XNum.t) : option (list node) :=
  let l1 := if String.eqb (ancestor_attr cx (M "mstack") "stackalign") "left"
            then "0"
            else XNum.to_string (XNum.of_nat (length (elements cs))) in
  let l := XNum.add (XNum.add p (XNum.of_string l1)) (attr_sum a "position") in
  kids ← apply_to Msc inner (elements cs);
  Some [lit "mtr" [("class", "mscarries"); ("l", XNum.to_string l)] kids].

(** *** Mode [msc]: one cell per carry *)

Definition carry_content (content : list node) : list node :=
  if has_attr (parent_attrs cx) "scriptsizemultiplier"
  then [lit "mstyle" [("mathsize", carry_mathsize (parent_attrs cx))] content]
  else content.

Definition t_carry_other : option (list node) :=
  content ← rec Default cx self;
  Some [mk (M "mtd")
           (copy_attr (parent_attrs cx) "crossout"
              (copy_attr (parent_attrs cx) "location" ∅))
           (carry_content content)].

Definition t_carry_mscarry : option (list node) :=
  content ← apply_to Default inner cs;
  Some [mk (M "mtd")
           (copy_attr a "crossout" (copy_attr a "location" ∅))
           (carry_content content)].

End Element.

End Templates.

(** ** Mode [ml]: the second pass over the table built for a stack

    Templates of this mode look at the sibling elements of the current node:
    [has_prev] tells whether an element precedes it, [next] is the element
    that follows it. *)

Inductive ml_template : Type :=
| ML_none          (* match=m:none mode=ml *)
| ML_copy          (* match=* mode=ml *)
| ML_underlined    (* mode=ml match=m:mtr[following-sibling::*[1][@class='msline']] *)
| ML_first_line    (* mode=ml priority=3
                      match=m:mtr[not(preceding-sibling::* )][@class='msline'] *)
| ML_line.         (* mode=ml match=m:mtr[@class='msline'] priority=2 *)

Record ml_rule : Type := MlRule {
  ml_pattern : bool -> option node -> qname -> gmap string string -> bool;
  ml_priority : Q;
  ml_result : ml_template
}.

Definition class_of (n : node) : string := attr (attrs_of n) "class".

Definition ml_rules : list ml_rule :=
  [ MlRule (fun _ _ nm _ => qname_eqb nm (M "none")) 0 ML_none;
    MlRule (fun _ _ _ _ => true) (-1 # 2) ML_copy;
    MlRule (fun _ next nm _ =>
              qname_eqb nm (M "mtr")
              && match next with
                 | Some s => String.eqb (class_of s) "msline"
                 | None => false
                 end)
           (1 # 2) ML_underlined;
    MlRule (fun has_prev _ nm a =>
              qname_eqb nm (M "mtr") && negb has_prev && String.eqb (attr a "class") "msline")
           3 ML_first_line;
    MlRule (fun _ _ nm a => qname_eqb nm (M "mtr") && String.eqb (attr a "class") "msline")
           2 ML_line ].

Fixpoint select_ml_rule (rules : list ml_rule) (has_prev : bool) (next : option node)
    (nm : qname) (a : gmap string string) : option ml_rule :=
  match rules with
  | [] => None
  | r :: rest =>
      match select_ml_rule rest has_prev next nm a with
      | Some later =>
          if ml_pattern r has_prev next nm a
             && negb (Qle_bool (ml_priority r) (ml_priority later))
          then Some r else Some later
      | None => if ml_pattern r has_prev next nm a then Some r else None
      end
  end.

Definition ml_select (has_prev : bool) (next : option node)
    (nm : qname) (a : gmap string string) : option ml_template :=
  ml_result <$> select_ml_rule ml_rules has_prev next nm a.

Definition cells_of (r : node) : list node :=
  filter (fun d => has_name (M "mtd") d) (children_of r).

Definition has_padded (d : node) : bool :=
  existsb (has_name (M "mpadded")) (children_of d).

(** A cell of a row that stands over a line: underlined where the line has a
    cell of its own at the same position. *)
Definition underlined_cell (below : list node) (i : nat) (cell : node) : node :=
  let content := elements (children_of cell) in
  mk (M "mtd") (attrs_of cell)
     (if match nth_error below i with
         | Some d => has_padded d
         | None => false
         end
      then [lit "mpadded" [("depth", "+.2em")]
              [lit "menclose" [("notation", "bottom")]
                 [lit "mpadded" [("depth", ".1em"); ("height", ".8em"); ("width", ".8em")]
                    (lit "mspace" [("width", ".15em")] [] :: content)]]]
      else content).

(** A cell of a line that is the first row of its table. *)
Definition first_line_cell (cell : node) : node :=
  mk (M "mtd") (attrs_of cell)
     (if has_padded cell
      then [lit "menclose" [("notation", "bottom")]
              [lit "mpadded" [("depth", ".1em"); ("height", "1em"); ("width", ".5em")]
                 [lit "mspace" [("width", ".2em")] []]]]
      else []).

Fixpoint ml (has_prev : bool) (next : option node) (n : node) {struct n} : list node :=
  match n with
  | Text s => [Text s]
  | Element nm a cs =>
      let kids :=
        (fix go (prev : bool) (l : list node) {struct l} : list node :=
           match l with
           | [] => []
           | c :: rest => ml prev (head (elements rest)) c ++ go (prev || is_element c) rest
           end) false cs in
      match ml_select has_prev next nm a with
      | Some ML_none => [lit "mrow" [] []]
      | Some ML_copy => [mk nm a kids]
      | Some ML_underlined =>
          let below := match next with
                       | Some s => cells_of s
                       | None => []
                       end in
          [mk (M "mtr") a (imap (underlined_cell below) (cells_of n))]
      | Some ML_first_line => [mk (M "mtr") a (map first_line_cell (cells_of n))]
      | Some ML_line => []
      | None => kids
      end
  end.

(** ** The stack template *)

(** [a < b] for sorting.  XSLT 1.0 does not fix the place of NaN among sort
    keys; as in XSLT 2.0 and in the processors of the browsers, NaN sorts
    below every number. *)
Definition sorts_below (a b : XNum.t) : bool :=
  match a, b with
  | XNum.NaN, XNum.Num _ => true
  | XNum.Num x, XNum.Num y => negb (Qle_bool y x)
  | _, _ => false
  end.

(** The variable [maxl]: the first value of the [l] attributes sorted as
    numbers in descending order (the sort is stable), empty without any. *)
Definition max_l (ls : list string) : string :=
  match ls with
  | [] => ""
  | l0 :: rest =>
      fold_left (fun best s => if sorts_below (XNum.of_string best) (XNum.of_string s)
                               then s else best)
                rest l0
  end.

(** A node list that is not empty. *)
Definition nonempty_list (l : list node) : bool :=
  match l with
  | [] => false
  | _ :: _ => true
  end.

Definition mpadded_carry (a : list (string * string)) (carry : list node) : node :=
  lit "mpadded" a carry.

(** A cell of a row that has carries above it; [cy] is the carry of its
    column. *)
Definition carried_cell (cy : option node) (x : node) : node :=
  let content := elements (children_of x) in
  let cy_attr k := match cy with
                   | Some c => attr (attrs_of c) k
                   | None => ""
                   end in
  let carry := match cy with
               | Some c => elements (children_of c)
               | None => []
               end in
  let crossout := cy_attr "crossout" in
  let location := cy_attr "location" in
  let b := if negb (XStr.nonempty crossout || String.eqb crossout "none")
           then content
           else [lit "menclose" [("notation", crossout)] content] in
  let centred := mpadded_carry [("width", "0em"); ("lspace", "-0.5width")] carry in
  let left := mpadded_carry [("lspace", "-1width"); ("width", "0em")] carry in
  let right := mpadded_carry [("width", "0em")] carry in
  mk (match x with
      | Element nm _ _ => nm
      | Text _ => M "mtd"
      end)
     (attrs_of x)
     (if existsb (has_name (M "none")) carry || negb (nonempty_list carry)
      then b
      else if negb (XStr.nonempty location) || String.eqb location "n"
      then [lit "mover" [] (b ++ [centred])]
      else if String.eqb location "nw"
      then [lit "mmultiscripts" []
              (b ++ [lit "mprescripts" [] []; lit "none" [] []; left])]
      else if String.eqb location "s"
      then [lit "munder" [] (b ++ [centred])]
      else if String.eqb location "sw"
      then [lit "mmultiscripts" []
              (b ++ [lit "mprescripts" [] []; left; lit "none" [] []])]
      else if String.eqb location "ne"
      then [lit "msup" [] (b ++ [right])]
      else if String.eqb location "se"
      then [lit "msub" [] (b ++ [right])]
      else if String.eqb location "w"
      then lit "msup" [] [lit "mrow" [] []; left] :: b
      else if String.eqb location "e"
      then b ++ [lit "msup" [] [lit "mrow" [] []; right]]
      else b).

(** The padding cell put before a row with carries: it shows the carry that
    sticks out to the left of the row. *)
Definition carry_pad (cy : option node) : node :=
  let carry := match cy with
               | Some c => elements (children_of c)
               | None => []
               end in
  lit "mtd" []
    (if nonempty_list carry
     then [lit "mover" []
             [lit "mphantom" [] [lit "mn" [] [Text "0"]];
              mpadded_carry [("width", "0em"); ("lspace", "-0.5width")] carry]]
     else []).

(** One row of the table: [maxl] is the width of the stack, [tn] and [te]
    count the nodes and the elements of the rows laid out so far (the lists
    [//node()] and [//*] the template iterates over), [c] is the row of
    carries right before [r], if any. *)
Definition stack_row (maxl : string) (tn te : nat) (c : option node) (r : node) : node :=
  let l := attr (attrs_of r) "l" in
  let offset := XNum.sub (XNum.of_string maxl) (XNum.of_string l) in
  let pad := XNum.positions_upto offset te in
  mk (M "mtr")
     (if String.eqb (class_of r) "msline" then {["class" := "msline"]} else ∅)
     (if String.eqb (class_of r) "msline" && String.eqb l "*"
      then concat (repeat (nth_element (children_of r) 1)
                          (XNum.positions_upto (XNum.of_string maxl) tn))
      else match c with
           | Some c =>
               let cl := XNum.of_string (attr (attrs_of c) "l") in
               let ldiff := XNum.sub cl (XNum.of_string l) in
               let loffset := XNum.sub (XNum.of_string maxl) cl in
               let carries := elements (children_of c) in
               let cy_pad pn := at_position carries (XNum.sub (XNum.of_nat pn) loffset) in
               let cy_cell pn := at_position carries (XNum.add (XNum.of_nat pn) ldiff) in
               map (fun pn => carry_pad (cy_pad pn)) (seq 1 pad)
               ++ imap (fun i x => carried_cell (cy_cell (S i)) x) (elements (children_of r))
           | None =>
               repeat (lit "mtd" [] []) pad ++ elements (children_of r)
           end).

(** The for-each over the rows: a row of carries is shown only when another
    row of carries follows it; [prev] is the preceding row. *)
Fixpoint stack_rows (maxl : string) (tn te : nat) (prev : option node) (rows : list node)
    : list node :=
  match rows with
  | [] => []
  | r :: rest =>
      let shown :=
        negb (String.eqb (class_of r) "mscarries")
        || match rest with
           | next :: _ => String.eqb (class_of next) "mscarries"
           | [] => false
           end in
      let c := match prev with
               | Some q => if String.eqb (class_of q) "mscarries" then Some q else None
               | None => None
               end in
      (if shown then [Text newline; stack_row maxl tn te c r] else [])
      ++ stack_rows maxl tn te (Some r) rest
  end.

(** The table built from the rows [t] of a stack with attributes [a], after
    the pass in mode [ml]. *)
Definition stack_table (a : gmap string string) (t : list node) : list node :=
  let rows := elements t in
  let maxl := max_l (omap (fun r => attrs_of r !! "l") rows) in
  let tn := list_sum (map count_nodes t) in
  let te := list_sum (map count_elements t) in
  ml false None
     (mk (M "mtable")
         (copy_attr a "align"
            (attrs_of_list [("columnspacing", "0em"); ("rowspacing", "0em")]))
         (stack_rows maxl tn te None rows)).

(** ** The long division template *)

(** [(ancestor-or-self::*/@decimalpoint)[last()]] copied into [into]. *)
Definition copy_decimalpoint (cx : context) (a into : gmap string string)
    : gmap string string :=
  match filter (fun e => has_attr e "decimalpoint") (a :: map snd (ancestors cx)) with
  | e :: _ => copy_attr e "decimalpoint" into
  | [] => into
  end.

Definition is_stacked (style : string) : bool :=
  String.eqb style "stackedrightright"
  || String.eqb style "mediumstackedrightright"
  || String.eqb style "shortstackedrightright"
  || String.eqb style "stackedleftleft".

(** The stylesheet is the value of a JavaScript template literal, in which a
    backslash starts an escape.  In the test [@longdivstyle='left/\right'] the
    two characters backslash and r stand for a carriage return, which the XML
    parser turns into a space inside an attribute value; in the operator
    written as a backslash before the end tag of [m:mo] the backslash escapes
    the character after it, so that this [m:mo] is empty. *)
Definition style_slashes : string := "left/ ight".

(** The rows of the intermediate stack, before the rows copied from behind
    the third child. *)
Definition longdiv_rows (style : string) (divisor quotient dividend : list node)
    : list node :=
  let len := XStr.string_length (fold_right (fun c acc => (string_value c ++ acc)%string)
                                            "" dividend) in
  if String.eqb style "left)(right"
  then [lit "msrow" []
          ([lit "mrow" [] divisor; lit "mo" [] [Text ")"]] ++ dividend
           ++ [lit "mo" [] [Text "("]] ++ quotient)]
  else if String.eqb style style_slashes
  then [lit "msrow" []
          ([lit "mrow" [] divisor; lit "mo" [] [Text "/"]] ++ dividend
           ++ [lit "mo" [] []] ++ quotient)]
  else if String.eqb style ":right=right"
  then [lit "msrow" []
          (dividend ++ [lit "mo" [] [Text ":"]] ++ divisor
           ++ [lit "mo" [] [Text "="]] ++ quotient)]
  else if is_stacked style
  then dividend
  else if String.eqb style "stackedleftlinetop"
  then quotient
       ++ [lit "msline" [("length", XNum.to_string (XNum.of_nat len))] [];
           lit "msrow" []
             (lit "mrow" [] [lit "menclose" [("notation", "bottom right")] divisor]
              :: dividend)]
  else if String.eqb style "righttop"
  then quotient
       ++ [lit "msline" [("length", XNum.to_string (XNum.of_nat len))] [];
           lit "msrow" []
             (dividend ++ [lit "menclose" [("notation", "top left bottom")] divisor])]
  else quotient
       ++ [lit "msline"
             [("length", XNum.to_string (XNum.add (XNum.of_nat len) (XNum.of_Z 1)))] [];
           lit "msrow" []
             ([lit "mrow" [] (divisor ++ [lit "mspace" [("width", ".2em")] []]);
               lit "mpadded" [("voffset", ".1em"); ("lspace", "-.15em");
                              ("depth", "-.2em"); ("height", "-.2em")]
                 [lit "mo" [("minsize", "1.2em")] [Text ")"]]]
              ++ dividend)].

(** The variable [ms]: the intermediate stack. *)
Definition longdiv_stack (cx : context) (a : gmap string string) (cs : list node) : node :=
  let style := attr a "longdivstyle" in
  mk (M "mstack")
     (let base := copy_decimalpoint cx a ∅ in
      if is_stacked style then <["align" := "top"]> base else base)
     (longdiv_rows style (nth_element cs 1) (nth_element cs 2) (nth_element cs 3)
      ++ skipn 3 (elements cs)).

(** The divisor over the quotient, for the stacked styles. *)
Definition longdiv_side (notation : string) (divisor quotient : list node) : node :=
  lit "mtable" [("align", "top")]
    [lit "mtr" [] [lit "menclose" [("notation", notation)] divisor];
     lit "mtr" [] [mk (NoNS "mtd") ∅ quotient]].

Definition longdiv_result (style : string) (divisor quotient stack : list node)
    : list node :=
  if String.eqb style "stackedrightright"
  then [lit "menclose" [("notation", "right")] stack;
        longdiv_side "bottom" divisor quotient]
  else if String.eqb style "mediumstackedrightright"
  then stack ++ [lit "menclose" [("notation", "left")]
                   [longdiv_side "bottom" divisor quotient]]
  else if String.eqb style "shortstackedrightright"
  then stack ++ [longdiv_side "left bottom" divisor quotient]
  else if String.eqb style "stackedleftleft"
  then [longdiv_side "bottom" divisor quotient;
        lit "menclose" [("notation", "left")] stack]
  else stack.

Section Instantiate.

Variable rec : mode -> context -> node -> option (list node).

Definition t_mstack (cx : context) (nm : qname) (a : gmap string string)
    (cs : list node) : option (list node) :=
  t ← apply_to rec (Mstack1 (XNum.of_Z 0)) (push cx nm a) (elements cs);
  Some (stack_table a (merge_text t)).

(** The intermediate stack is a document of its own: templates applied to
    it see no ancestor of the long division. *)
Definition t_mlongdiv (cx : context) (nm : qname) (a : gmap string string)
    (cs : list node) : option (list node) :=
  let ms := longdiv_stack cx a cs in
  stack ← rec Default {| ancestors := []; doc_nodes := count_nodes ms |} ms;
  Some (longdiv_result (attr a "longdivstyle")
                       (nth_element cs 1) (nth_element cs 2) stack).

(** The parameter [p] of a template: the empty string, hence not a number,
    when the caller passes none. *)
Definition param_p (md : mode) : XNum.t :=
  match md with
  | Mstack1 p => p
  | _ => XNum.of_string ""
  end.

Definition run_template (t : template) (md : mode) (cx : context)
    (nm : qname) (a : gmap string string) (cs : list node) : option (list node) :=
  match t with
  | T_copy => t_copy rec cx nm a cs
  | T_enter_rtl => t_enter_rtl rec cx nm a cs
  | T_mstack => t_mstack cx nm a cs
  | T_mlongdiv => t_mlongdiv cx nm a cs
  | T_rtl_element => t_rtl_element rec cx nm a cs
  | T_rtl_mfrac_bevelled => t_rtl_mfrac_bevelled rec cx nm a cs
  | T_rtl_mfrac => t_rtl_mfrac rec cx nm a cs
  | T_rtl_mroot => t_rtl_mroot rec cx nm a cs
  | T_rtl_msqrt => t_rtl_msqrt rec cx nm a cs
  | T_rtl_container => t_rtl_container rec cx nm a cs
  | T_rtl_msup => t_rtl_msup rec cx nm a cs
  | T_rtl_msub => t_rtl_msub rec cx nm a cs
  | T_rtl_msubsup => t_rtl_msubsup rec cx nm a cs
  | T_rtl_mmultiscripts => t_rtl_mmultiscripts rec cx nm a cs
  | T_rtl_mmultiscripts_post => t_rtl_mmultiscripts_post rec cx nm a cs
  | T_rtl_elementary => t_rtl_elementary rec cx nm a cs
  | T_rtl_madruwb => t_rtl_madruwb rec cx nm a cs
  | T_row_other => t_row_other rec cx nm a cs (param_p md)
  | T_row_msrow => t_row_msrow rec cx nm a cs (param_p md)
  | T_row_mn => t_row_mn cx nm a cs (param_p md)
  | T_row_msgroup => t_row_msgroup rec cx nm a cs (param_p md)
  | T_row_msline => t_row_msline cx a (param_p md)
  | T_row_mscarries => t_row_mscarries rec cx nm a cs (param_p md)
  | T_carry_other => t_carry_other rec cx nm a cs
  | T_carry_mscarry => t_carry_mscarry rec cx nm a cs
  end.

(** [xsl:apply-templates] on one node: the selected template for an
    element, the built-in rules otherwise (an element without a template
    passes the mode on to its children, a text node is copied). *)
Definition instantiate (md : mode) (cx : context) (n : node) : option (list node) :=
  match n with
  | Text s =>
      match md with
      | Rtl => Some [Text (rtl_text s)]
      | _ => Some [Text s]
      end
  | Element nm a cs =>
      match select_template (name_of_mode md) nm a cs with
      | Some t => run_template t md cx nm a cs
      | None => apply_to rec md (push cx nm a) cs
      end
  end.

End Instantiate.

(** The transformation; [fuel] bounds the nesting of template
    instantiations. *)
Fixpoint apply_templates (fuel : nat) (md : mode) (cx : context) (n : node)
    : option (list node) :=
  match fuel with
  | O => None
  | S fuel' => instantiate (apply_templates fuel') md cx n
  end.

(** The context of the children of the document node of [doc]. *)
Definition document_context (doc : list node) : context :=
  {| ancestors := []; doc_nodes := list_sum (map count_nodes doc) |}.

(** The transformation of a document, given by the children of its root. *)
Definition transform_document (fuel : nat) (doc : list node) : option (list node) :=
  merge_text <$> apply_to (apply_templates fuel) Default (document_context doc) doc.

(** ** The pre-filter and the handler extension *)

Module Js.

(** Values an option can hold, as far as a condition tells them apart. *)
Inductive value : Type :=
| Undefined
| Null
| Bool (b : bool)
| Number (z : Z)
| Str (s : string)
| Object.

Definition truthy (v : value) : bool :=
  match v with
  | Undefined | Null => false
  | Bool b => b
  | Number z => negb (z =? 0)%Z
  | Str s => XStr.nonempty s
  | Object => true
  end.

(** Reading a property of an option list: [undefined] when it is not set. *)
Definition get (o : gmap string value) (k : string) : value :=
  default Undefined (o !! k).

End Js.

Module Mml3.

Section Filter.

(** [N] is the node class, [Math] the class of math items.  The function
    [transform] is the one the constructor stores in the instance: the
    XSLT processor of the browser, or the transform of the external
    module. *)
Context {N Math : Type}.

Record MathDocument : Type := {
  options : gmap string Js.value
}.

(** [FILTERDATA]: the argument of a pre-filter, which the filter updates
    in place. *)
Record FILTERDATA : Type := {
  math : Math;
  document : MathDocument;
  data : N
}.

Variable transform : N -> MathDocument -> N.

Definition mmlFilter (args : FILTERDATA) : FILTERDATA :=
  if Js.truthy (Js.get (options (document args)) "enableMml3")
  then {| math := math args;
          document := document args;
          data := transform (data args) (document args) |}
  else args.

End Filter.

End Mml3.

Module Mml3Handler.

(** [OPTIONS] of the document class made by [Mml3Handler]: the options of
    the class it extends, then [enableMml3: true]. *)
Definition OPTIONS (base : gmap string Js.value) : gmap string Js.value :=
  <["enableMml3" := Js.Bool true]> base.

(** *** The constructor of the document class

    Input jax are objects shared between the documents that are built for
    them, so they live in a store and a document holds their addresses.
    A filter is identified by the document whose constructor made it. *)

Record InputJax : Type := {
  name : string;
  jax_options : gmap string Js.value;
  mmlFilters : list nat
}.

Abbreviation store := (gmap nat InputJax).

(** The body of [if (jax.name === 'MathML')], before the [break]. *)
Definition add_filter (doc : nat) (jax : InputJax) : InputJax :=
  if negb (Js.truthy (Js.get (jax_options jax) "_mml3"))
  then {| name := name jax;
          jax_options := <["_mml3" := Js.Bool true]> (jax_options jax);
          mmlFilters := mmlFilters jax ++ [doc] |}
  else jax.

(** [for (const jax of this.inputJax || [])]: the loop stops at the first
    jax named MathML. *)
Fixpoint visit (doc : nat) (jaxes : list nat) (st : store) : store :=
  match jaxes with
  | [] => st
  | l :: rest =>
      match st !! l with
      | Some jax =>
          if String.eqb (name jax) "MathML"
          then <[l := add_filter doc jax]> st
          else visit doc rest st
      | None => visit doc rest st
      end
  end.

(** The constructor of document [doc], after [super(...args)] has set
    [inputJax]. *)
Definition construct (st : store) (call : nat * option (list nat)) : store :=
  visit (fst call) (default [] (snd call)) st.

(** Several constructions in a row. *)
Definition construct_all (calls : list (nat * option (list nat))) (st : store) : store :=
  fold_left construct calls st.

End Mml3Handler.

(** ** Enough fuel

    A template is instantiated on children of the current node, on the
    current node in another mode, or on the intermediate stack of a long
    division; [weight] and [rank] decrease along these calls. *)

Definition is_elementary (nm : qname) : bool :=
  qname_eqb nm (M "mstack") || qname_eqb nm (M "mlongdiv").

Fixpoint weight (n : node) : nat :=
  match n with
  | Text _ => 1
  | Element nm _ cs =>
      (if qname_eqb nm (M "mlongdiv") then 10 else 1) + list_sum (map weight cs)
  end.

Definition rank (md : mode) (n : node) : nat :=
  match n with
  | Text _ => 0
  | Element nm _ _ =>
      if is_elementary nm
      then match md with
           | Default => 0
           | Rtl => 2
           | _ => 1
           end
      else match md with
           | Rtl => 0
           | Default => 1
           | _ => 2
           end
  end.

(** The weight of a node list. *)
Definition wsum (l : list node) : nat := list_sum (map weight l).

Definition measure (md : mode) (n : node) : nat := 3 * weight n + rank md n.

Definition enough_fuel (md : mode) (n : node) : nat := S (measure md n).

(** The result of the transformation of a node, computed with enough fuel. *)
Definition transform (md : mode) (cx : context) (n : node) : list node :=
  default [] (apply_templates (enough_fuel md n) md cx n).

(** [xsl:apply-templates] over a node list, with enough fuel for each. *)
Definition transform_all (md : mode) (cx : context) (l : list node) : list node :=
  mconcat (map (transform md cx) l).

(** ** Notions used to state the properties *)

(** The priority of the templates [match="*"], the least specific ones. *)
Definition wildcard_priority : Q := -1 # 2.

(** Some rule of the mode that is more specific than the wildcard rule
    matches the element. *)
Definition specific_rule_matches (md : mode_name)
    (nm : qname) (a : gmap string string) (cs : list node) : bool :=
  existsb (fun r => mode_name_eqb (r_mode r) md
                    && negb (Qle_bool (r_priority r) wildcard_priority)
                    && r_pattern r nm a cs)
          stylesheet.

(** The mode a template is declared for. *)
Definition template_mode (t : template) : mode_name :=
  match t with
  | T_copy | T_enter_rtl | T_mstack | T_mlongdiv => MDefault
  | T_row_other | T_row_msrow | T_row_mn | T_row_msgroup | T_row_msline
  | T_row_mscarries => MMstack1
  | T_carry_other | T_carry_mscarry => MMsc
  | _ => MRtl
  end.

(** Mirroring a node, and mirroring the result again. *)
Definition mirror (cx : context) (n : node) : list node := transform Rtl cx n.

Definition mirror_twice (cx : context) (n : node) : list node :=
  transform_all Rtl cx (mirror cx n).

(** The text substitution table as the specification words it: four pairs
    are exchanged, anything else stays. *)
Definition exchanged_text (s : string) : string :=
  if String.eqb s "(" then ")"
  else if String.eqb s ")" then "("
  else if String.eqb s "{" then "}"
  else if String.eqb s "}" then "{"
  else if String.eqb s "<" then ">"
  else if String.eqb s ">" then "<"
  else if String.eqb s "∈" then "∋"
  else if String.eqb s "∋" then "∈"
  else s.

(** The anchor column of a row laid out in mode [mstack1]: the attribute [l]
    of the first element of the result. *)
Definition row_anchor (out : list node) : option string :=
  match elements out with
  | r :: _ => attrs_of r !! "l"
  | [] => None
  end.

(** The length of an [msline] is absent, empty or zero. *)
Definition length_absent_or_zero (a : gmap string string) : bool :=
  match a !! "length" with
  | None => true
  | Some v => String.eqb v "" || XNum.eqb (XNum.of_string v) (XNum.of_Z 0)
  end.

(** The anchor of a line as the specification states it: the offset plus the
    declared length under every alignment, the fill-to-max marker without a
    length. *)
Definition line_anchor_as_specified : Prop :=
  forall (cx : context) (a : gmap string string) (cs : list node) (p : XNum.t),
    row_anchor (transform (Mstack1 p) cx (Element (M "msline") a cs))
    = Some (if length_absent_or_zero a then "*"
            else XNum.to_string (XNum.add p (XNum.of_string (attr a "length")))).

(** The context of the children of an [mstack] element with the attributes
    [a], the root of a document of [n] nodes. *)
Definition in_stack (a : list (string * string)) (n : nat) : context :=
  {| ancestors := [(M "mstack", attrs_of_list a)]; doc_nodes := n |}.

(** Leaves of the examples. *)
Definition mn_ (s : string) : node := Element (M "mn") ∅ [Text s].
Definition mo_ (s : string) : node := Element (M "mo") ∅ [Text s].
Definition cell (n : node) : node := Element (M "mtd") ∅ [n].

(** The long division of the end-to-end example: divisor 3, quotient 12,
    dividend 36. *)
Definition division_example : node :=
  Element (M "mlongdiv") {["longdivstyle" := ":right=right"]}
    [mn_ "3"; mn_ "12"; mn_ "36"].

(** The result as the specification states it: one row made of the dividend,
    ":", the divisor, "=" and the quotient, with nothing around it. *)
Definition plain_row (out : list node) : Prop :=
  exists (nm : qname) (a : gmap string string),
    out = [Element nm a [mn_ "36"; mo_ ":"; mn_ "3"; mo_ "="; mn_ "12"]].

(** The partner of a fence value: the six brackets are exchanged, any other
    value is kept. *)
Definition fence_partner (v : string) : string :=
  if String.eqb v "(" then ")"
  else if String.eqb v ")" then "("
  else if String.eqb v "[" then "]"
  else if String.eqb v "]" then "["
  else if String.eqb v "{" then "}"
  else if String.eqb v "}" then "{"
  else v.

(** Mirroring one attribute, and mirroring what it gave again. *)
Definition mirror_attr_twice (k v : string) : list (string * string) :=
  concat (map (fun kv => rtl_attr (fst kv) (snd kv)) (rtl_attr k v)).

(** The attributes are fences only: [open] and [close]. *)
Definition is_fence (k : string) : bool := String.eqb k "open" || String.eqb k "close".

Definition fences_only (a : gmap string string) : bool :=
  forallb (fun kv => is_fence (fst kv)) (map_to_list a).

(** The same as a statement about every attribute name. *)
Definition only_fences (a : gmap string string) : Prop :=
  forall k, is_Some (a !! k) -> k = "open" \/ k = "close".

(** The element name falls to the generic template of mode [rtl], whatever
    the attributes and the children. *)
Definition generic_in_rtl (nm : qname) : Prop :=
  forall (a : gmap string string) (cs : list node),
    select_template MRtl nm a cs = Some T_rtl_element.

(** ** Notions used by the further properties

    Shapes of the input and of the output in which the properties of the
    templates are stated. *)

(** The concatenation of strings. *)
Fixpoint join (l : list string) : string :=
  match l with
  | [] => ""
  | s :: rest => (s ++ join rest)%string
  end.

(** Text nodes as a parser leaves them: none is empty and no two are
    adjacent. *)
Fixpoint separated (l : list node) : bool :=
  match l with
  | [] => true
  | Text a :: rest =>
      XStr.nonempty a
      && match rest with
         | Text _ :: _ => false
         | _ => true
         end
      && separated rest
  | Element _ _ _ :: rest => separated rest
  end.

Fixpoint parsed (n : node) : bool :=
  match n with
  | Text _ => true
  | Element _ _ cs => separated cs && forallb parsed cs
  end.

(** No template but the default one applies in the tree: no element is an
    [mstack] or an [mlongdiv], and no MathML element has [dir="rtl"]. *)
Fixpoint plain (n : node) : bool :=
  match n with
  | Text _ => true
  | Element nm a cs =>
      negb (is_elementary nm)
      && negb (in_mathml nm && String.eqb (attr a "dir") "rtl")
      && forallb plain cs
  end.

(** The pass in mode [ml] over the children of an element: the loop inside
    [ml]. *)
Fixpoint ml_list (prev : bool) (l : list node) : list node :=
  match l with
  | [] => []
  | c :: rest => ml prev (head (elements rest)) c ++ ml_list (prev || is_element c) rest
  end.

(** The attributes of the table of a stack: the two spacings and the
    [align] attribute of the stack, if it has one. *)
Definition table_attrs (a : gmap string string) : gmap string string :=
  copy_attr a "align" (attrs_of_list [("columnspacing", "0em"); ("rowspacing", "0em")]).

(** A row of the finished table: an [mtr] without attributes, or with the
    class of a line only. *)
Definition table_row (r : node) : Prop :=
  has_name (M "mtr") r = true
  /\ (attrs_of r = ∅ \/ attrs_of r = {["class" := "msline"]}).

Definition is_line (r : node) : bool := String.eqb (class_of r) "msline".

(** A node of the table before the pass in mode [ml]. *)
Definition row_shape (n : node) : Prop :=
  is_element n = false
  \/ exists (b : bool) (cells : list node),
       n = Element (M "mtr") (if b then {["class" := "msline"]} else ∅) cells.

(** Nothing for the pass in mode [ml] to change: no [m:none], no element of
    class msline, text as a parser leaves it. *)
Fixpoint ml_clean (n : node) : bool :=
  match n with
  | Text _ => true
  | Element nm a cs =>
      negb (qname_eqb nm (M "none")) && negb (String.eqb (attr a "class") "msline")
      && separated cs && forallb ml_clean cs
  end.

(** A row as mode [mstack1] makes it: the anchor column and the cells. *)
Definition anchored_row (r : nat * list node) : node :=
  Element (M "mtr") {["l" := XNum.to_string (XNum.of_nat (fst r))]} (snd r).

(** The cell that pads a row. *)
Definition empty_cell : node := Element (M "mtd") ∅ [].

(** The same row in the table of a stack whose greatest anchor is [w], after
    its line break. *)
Definition padded_row (w : nat) (r : nat * list node) : list node :=
  [Text newline; Element (M "mtr") ∅ (repeat empty_cell (w - fst r) ++ snd r)].

(** Cells that the pass in mode [ml] leaves as they are. *)
Definition good_cells (cells : list node) : Prop :=
  Forall (fun c => is_element c = true /\ ml_clean c = true) cells.

(** The characters of a number, as the template of [mn] reads them. *)
Definition digits (s : string) : list string := XStr.chars (XStr.normalize_space s).

(** The row of a number whose anchor column is given by [anchor]. *)
Definition number_row (anchor : string -> nat) (s : string) : nat * list node :=
  (anchor s, map mn_cell (digits s)).

(** The greatest anchor of the numbers of a stack. *)
Definition widest (anchor : string -> nat) (ss : list string) : nat :=
  list_max (map anchor ss).

(** The number of characters of a number. *)
Definition width (s : string) : nat := length (digits s).

(** The characters of a number before the decimal separator [dp]; all of
    them when it has none. *)
Definition integer_width (dp s : string) : nat :=
  let mn := XStr.normalize_space s in
  if XStr.contains mn dp
  then XStr.string_length (XStr.substring_before mn dp)
  else XStr.string_length mn.

(** The characters that [XStr.chars_aux] has read. *)
Definition lead (s : string) : nat := length (snd (XStr.chars_aux s)).

(** The values of [longdivstyle] that the template of [mlongdiv] tests. *)
Definition known_style (style : string) : bool :=
  existsb (String.eqb style)
    [ "left)(right"; style_slashes; ":right=right"; "stackedrightright";
      "mediumstackedrightright"; "shortstackedrightright"; "stackedleftleft";
      "stackedleftlinetop"; "righttop" ].

(** The context of the intermediate stack of a long division: a document of
    its own. *)
Definition longdiv_context (cx : context) (a : gmap string string) (cs : list node)
    : context :=
  {| ancestors := []; doc_nodes := count_nodes (longdiv_stack cx a cs) |}.

(** An attribute that the wildcard attribute template of mode [rtl]
    handles. *)
Definition plain_attr (k v : string) : bool :=
  negb (String.eqb k "open") && negb (String.eqb k "close")
  && negb (String.eqb k "notation" && String.eqb v "radical").

(** The children of an [mmultiscripts] after the base: pairs of a subscript
    and a superscript. *)
Definition flat (ps : list (node * node)) : list node :=
  concat (map (fun p => [fst p; snd p]) ps).

(** The elements that mode [rtl] mirrors inside without reversing them. *)
Definition is_container (local : string) : bool :=
  existsb (String.eqb local) ["mtable"; "munder"; "mover"; "munderover"].

(** The first jax of the list that is named MathML, as the loop of the
    constructor finds it. *)
Fixpoint first_MathML (st : Mml3Handler.store) (jaxes : list nat) : option nat :=
  match jaxes with
  | [] => None
  | l :: rest =>
      match st !! l with
      | Some jax =>
          if String.eqb (Mml3Handler.name jax) "MathML" then Some l
          else first_MathML st rest
      | None => first_MathML st rest
      end
  end.

(** The row that mode [mstack1] makes for a line without a length. *)
Definition line_row (w : string) : node :=
  Element (M "mtr") {["class" := "msline"; "l" := "*"]} [msline_cell "mslinemax" w].

(** A cell with a line drawn under its content. *)
Definition underline (cell : node) : node :=
  Element (M "mtd") (attrs_of cell)
    [Element (M "mpadded") {["depth" := "+.2em"]}
       [Element (M "menclose") {["notation" := "bottom"]}
          [Element (M "mpadded") {["depth" := ".1em"; "height" := ".8em"; "width" := ".8em"]}
             (Element (M "mspace") {["width" := ".15em"]} [] :: elements (children_of cell))]]].

(** One step of the search for the greatest anchor. *)
Definition wider (best s : string) : string :=
  if sorts_below (XNum.of_string best) (XNum.of_string s) then s else best.

(** Rows of a table, each after a line break. *)
Definition rows_block (es : list node) : list node :=
  concat (map (fun e => [Text newline; e]) es).

(** A row of the table: the cells, after the empty cells that bring the
    anchor to column [w]. *)
Definition padded (w : nat) (r : nat * list node) : node :=
  Element (M "mtr") ∅ (repeat empty_cell (w - fst r) ++ snd r).

Definition good_row (r : nat * list node) : Prop :=
  good_cells (snd r) /\ fst r <= length (snd r).

(** A carry that only the default template touches: an element other than
    [mscarry] that the default mode leaves as it is, and that is [m:none] or
    holds nothing for mode [ml] to change. *)
Definition plain_carry (c : node) : bool :=
  is_element c && negb (has_name (M "mscarry") c) && parsed c && plain c
  && (has_name (M "none") c || ml_clean c).

(** The cell of a carry in the row of carries. *)
Definition carry_cell (c : node) : node := Element (M "mtd") ∅ [c].

(** The row that mode [mstack1] makes for carries without attributes. *)
Definition carries_row (carries : list node) : node :=
  Element (M "mtr")
    {["class" := "mscarries"; "l" := XNum.to_string (XNum.of_nat (length carries))]}
    (map carry_cell carries).

(** A cell of the row under the carries, with the carry [c] of its column
    over it. *)
Definition over_digit (c x : node) : node :=
  if has_name (M "none") c then x
  else Element (M "mtd") ∅
         [Element (M "mover") ∅
            (children_of x
             ++ [Element (M "mpadded") {["width" := "0em"; "lspace" := "-0.5width"]} [c]])].

(** A cell as the template of [mn] makes it: an [mtd] without attributes
    that holds elements. *)
Definition digit_cell (x : node) : Prop :=
  has_name (M "mtd") x = true /\ attrs_of x = ∅
  /\ Forall (fun n => is_element n = true) (children_of x).

(** A row as the pass over the rows of a stack expects it: an [mtr] with an
    anchor [l] whose children are cells. *)
Definition is_row (n : node) : bool :=
  has_name (M "mtr") n && has_attr (attrs_of n) "l"
  && forallb (has_name (M "mtd")) (children_of n).

Definition rows_only (l : list node) : Prop :=
  Forall (fun r => r = Text newline \/ is_row r = true) l.

(** The context of the examples: the root of a document of twenty nodes. *)
Definition sample_context : context := {| ancestors := []; doc_nodes := 20 |}.

(** ** Basic facts *)

Lemma qname_eqb_eq (a b : qname) : qname_eqb a b = true <-> a = b.
Proof.
  destruct a as [n1 l1], b as [n2 l2]; unfold qname_eqb; simpl.
  rewrite andb_true_iff, !String.eqb_eq. split.
  - intros [-> ->]; reflexivity.
  - intros [= -> ->]; split; reflexivity.
Qed.

Lemma qname_eqb_refl (a : qname) : qname_eqb a a = true.
Proof. apply qname_eqb_eq; reflexivity. Qed.

Lemma elements_subset (l : list node) (c : node) : In c (elements l) -> In c l.
Proof.
  unfold elements. rewrite <- !list_elem_of_In. intros H.
  apply list_elem_of_filter in H. tauto.
Qed.

Lemma nth_element_subset (l : list node) (i : nat) (c : node) :
  In c (nth_element l i) -> In c l.
Proof.
  destruct i as [|k]; simpl; [tauto|].
  destruct (nth_error (elements l) k) eqn:E; simpl; [|tauto].
  intros [<-|[]]. apply elements_subset. eapply nth_error_In; eassumption.
Qed.

Lemma pair_at_subset (l : list node) (j : nat) (c : node) :
  In c (pair_at l j) -> In c l.
Proof.
  unfold pair_at. rewrite <- !list_elem_of_In. intros H.
  apply (subseteq_drop j l), (subseteq_take 2 _), H.
Qed.

Lemma weight_child (nm : qname) (a : gmap string string) (cs : list node) (c : node) :
  In c cs -> weight c < weight (Element nm a cs).
Proof.
  intros H. simpl.
  assert (weight c <= list_sum (map weight cs)).
  { induction cs as [|x xs IH]; simpl in *; [tauto|].
    destruct H as [->|H]; [lia|]. specialize (IH H). lia. }
  destruct (qname_eqb nm (M "mlongdiv")); lia.
Qed.

Lemma rank_le (md : mode) (n : node) : rank md n <= 2.
Proof.
  destruct n as [nm a cs|s]; simpl; [|lia].
  destruct (is_elementary nm), md; lia.
Qed.

Lemma measure_child (md md' : mode) (nm : qname) (a : gmap string string)
    (cs : list node) (c : node) :
  In c cs -> measure md' c < measure md (Element nm a cs).
Proof.
  intros H. unfold measure.
  pose proof (weight_child nm a cs c H). pose proof (rank_le md' c). lia.
Qed.

(** ** Template selection *)

Lemma select_rule_sound (rules : list rule) (md : mode_name) (nm : qname)
    (a : gmap string string) (cs : list node) (r : rule) :
  select_rule rules md nm a cs = Some r ->
  In r rules /\ r_mode r = md /\ r_pattern r nm a cs = true.
Proof.
  induction rules as [|x xs IH]; simpl; [discriminate|].
  assert (A : mode_name_eqb (r_mode x) md && r_pattern x nm a cs = true ->
              r_mode x = md /\ r_pattern x nm a cs = true).
  { rewrite andb_true_iff. intros [T1 T2]. split; [|exact T2].
    destruct (r_mode x), md; simpl in T1; congruence. }
  destruct (select_rule xs md nm a cs) as [later|].
  - destruct (mode_name_eqb (r_mode x) md && r_pattern x nm a cs) eqn:T; simpl.
    + destruct (Qle_bool (r_priority x) (r_priority later)); simpl; intros [= <-].
      * destruct (IH eq_refl) as (H1 & H2 & H3). split; [right; exact H1|]. split; assumption.
      * split; [left; reflexivity|]. apply A. reflexivity.
    + intros [= <-]. destruct (IH eq_refl) as (H1 & H2 & H3).
      split; [right; exact H1|]. split; assumption.
  - destruct (mode_name_eqb (r_mode x) md && r_pattern x nm a cs) eqn:T; [|discriminate].
    intros [= <-]. split; [left; reflexivity|]. apply A. reflexivity.
Qed.

(** In the default mode: the stack and long division templates have the
    highest priority, then the template that enters mode [rtl]. *)
Lemma select_default (nm : qname) (a : gmap string string) (cs : list node) :
  select_template MDefault nm a cs =
  Some (if qname_eqb nm (M "mlongdiv") then T_mlongdiv
        else if qname_eqb nm (M "mstack") then T_mstack
        else if in_mathml nm && String.eqb (attr a "dir") "rtl" then T_enter_rtl
        else T_copy).
Proof.
  unfold select_template, select_rule, stylesheet, named.
  cbn -[qname_eqb in_mathml attr String.eqb].
  destruct (qname_eqb nm (M "mlongdiv")), (qname_eqb nm (M "mstack")),
    (in_mathml nm && String.eqb (attr a "dir") "rtl"); reflexivity.
Qed.

Lemma select_rtl_elementary (nm : qname) (a : gmap string string) (cs : list node) :
  is_elementary nm = true -> select_template MRtl nm a cs = Some T_rtl_elementary.
Proof.
  unfold is_elementary. rewrite orb_true_iff, !qname_eqb_eq.
  intros [-> | ->]; reflexivity.
Qed.

(** ** The weight of the intermediate stack of a long division *)

Lemma wsum_app (l k : list node) : wsum (l ++ k) = wsum l + wsum k.
Proof. unfold wsum. rewrite map_app, list_sum_app. reflexivity. Qed.

Lemma wsum_merge_text (l : list node) : wsum (merge_text l) <= wsum l.
Proof.
  induction l as [|x xs IH]; simpl; [lia|].
  destruct x as [nm a cs|s].
  - unfold wsum in *; simpl. lia.
  - destruct (merge_text xs) as [|[nm a cs|t] r]; unfold wsum in *; simpl in *.
    + destruct (XStr.nonempty s); simpl; lia.
    + destruct (XStr.nonempty s); simpl; lia.
    + lia.
Qed.

Lemma weight_mk (nm : qname) (a : gmap string string) (l : list node) :
  weight (mk nm a l) <= (if qname_eqb nm (M "mlongdiv") then 10 else 1) + wsum l.
Proof.
  unfold mk; simpl. pose proof (wsum_merge_text l). unfold wsum in *.
  destruct (qname_eqb nm (M "mlongdiv")); lia.
Qed.

Lemma wsum_elements (l : list node) : wsum (elements l) <= wsum l.
Proof.
  induction l as [|x xs IH]; [reflexivity|].
  unfold elements, wsum in *. rewrite filter_cons.
  destruct (decide (is_element x)); simpl.
  - apply Nat.add_le_mono_l, IH.
  - etrans; [apply IH|]. apply Nat.le_add_l.
Qed.

Lemma wsum_arguments (cs : list node) :
  wsum (nth_element cs 1) + wsum (nth_element cs 2) + wsum (nth_element cs 3)
  + wsum (skipn 3 (elements cs)) <= wsum cs.
Proof.
  pose proof (wsum_elements cs) as H. unfold nth_element.
  destruct (elements cs) as [|x [|y [|z r]]]; unfold wsum in *; simpl in *;
    rewrite ?skipn_O; lia.
Qed.

Lemma wsum_cons (x : node) (l : list node) : wsum (x :: l) = weight x + wsum l.
Proof. reflexivity. Qed.

Lemma wsum_nil : wsum [] = 0.
Proof. reflexivity. Qed.

(** Replaces the weight of each literal result element in the goal by a
    number bounded by the weight of its content. *)
Ltac bound_literals :=
  repeat match goal with
    | |- context [weight (lit ?l ?a ?c)] =>
        let B := fresh "B" in
        assert (B : weight (lit l a c) <= 1 + wsum c)
          by (exact (weight_mk (M l) (attrs_of_list a) c));
        rewrite ?wsum_app, ?wsum_cons, ?wsum_nil in B;
        revert B; generalize (weight (lit l a c))
    end;
  intros.

Lemma wsum_longdiv_rows (style : string) (d q dd : list node) :
  wsum (longdiv_rows style d q dd) <= 7 + wsum d + wsum q + wsum dd.
Proof.
  unfold longdiv_rows.
  destruct (is_stacked style);
  repeat match goal with
    | |- context [String.eqb ?x ?y] => destruct (String.eqb x y)
    end;
    rewrite ?wsum_app, ?wsum_cons, ?wsum_nil; bound_literals; simpl in *; lia.
Qed.

Lemma weight_longdiv_stack (cx : context) (a : gmap string string) (cs : list node) :
  weight (longdiv_stack cx a cs) <= 8 + wsum cs.
Proof.
  unfold longdiv_stack.
  etrans; [apply weight_mk|].
  change (qname_eqb (M "mstack") (M "mlongdiv")) with false. cbv iota.
  rewrite wsum_app.
  pose proof (wsum_longdiv_rows (attr a "longdivstyle")
                (nth_element cs 1) (nth_element cs 2) (nth_element cs 3)).
  pose proof (wsum_arguments cs). lia.
Qed.

Lemma measure_longdiv_stack (md : mode) (cx : context) (nm : qname)
    (a : gmap string string) (cs : list node) :
  qname_eqb nm (M "mlongdiv") = true ->
  measure Default (longdiv_stack cx a cs) < measure md (Element nm a cs).
Proof.
  intros E. unfold measure.
  pose proof (weight_longdiv_stack cx a cs) as H.
  assert (R : rank Default (longdiv_stack cx a cs) = 0) by reflexivity.
  rewrite R.
  change (weight (Element nm a cs))
    with ((if qname_eqb nm (M "mlongdiv") then 10 else 1) + wsum cs).
  rewrite E. lia.
Qed.

(** ** The result of a template depends on the calls it makes only *)

Ltac subset_tac :=
  let c := fresh "c" in
  let Hc := fresh "Hc" in
  intros c Hc;
  first [ exact Hc
        | apply elements_subset; exact Hc
        | eapply nth_element_subset; exact Hc
        | apply elements_subset; eapply pair_at_subset; exact Hc
        | apply in_rev in Hc; exact Hc ].

Section Ext.

Variables rec1 rec2 : mode -> context -> node -> option (list node).

Lemma mapM_ext_in {A B : Type} (f g : A -> option B) (l : list A) :
  (forall x, In x l -> f x = g x) -> mapM f l = mapM g l.
Proof.
  intros H. apply Forall_mapM_ext, Forall_forall.
  intros x Hx. apply H, list_elem_of_In, Hx.
Qed.

Lemma apply_to_ext (md : mode) (cx : context) (l : list node) :
  (forall c, In c l -> rec1 md cx c = rec2 md cx c) ->
  apply_to rec1 md cx l = apply_to rec2 md cx l.
Proof. intros H. unfold apply_to. f_equal. apply mapM_ext_in, H. Qed.

Section Element.

Variables (md : mode) (cx : context) (nm : qname) (a : gmap string string)
          (cs : list node).

Hypothesis H : forall md' cx' n',
    measure md' n' < measure md (Element nm a cs) -> rec1 md' cx' n' = rec2 md' cx' n'.

Lemma ext_kids (md' : mode) (cx' : context) (l : list node) :
  (forall c, In c l -> In c cs) ->
  apply_to rec1 md' cx' l = apply_to rec2 md' cx' l.
Proof.
  intros Hl. apply apply_to_ext. intros c Hc. apply H, measure_child, Hl, Hc.
Qed.

Lemma ext_kids_mapM (md' : mode) (cx' : context) (l : list node) :
  (forall c, In c l -> In c cs) ->
  mapM (rec1 md' cx') l = mapM (rec2 md' cx') l.
Proof.
  intros Hl. apply mapM_ext_in. intros c Hc. apply H, measure_child, Hl, Hc.
Qed.

Lemma ext_pairs (cx' : context) (sel : list nat) :
  apply_pairs rec1 cx' (elements cs) sel = apply_pairs rec2 cx' (elements cs) sel.
Proof.
  unfold apply_pairs. f_equal. apply mapM_ext_in. intros j _.
  apply ext_kids. subset_tac.
Qed.

Lemma ext_group (p : XNum.t) :
  t_row_msgroup rec1 cx nm a cs p = t_row_msgroup rec2 cx nm a cs p.
Proof.
  unfold t_row_msgroup. f_equal. apply mapM_ext_in. intros [i c] Hc.
  apply H, measure_child. simpl.
  rewrite <- list_elem_of_In in Hc. apply elem_of_lookup_imap in Hc.
  destruct Hc as (i' & c' & [= -> ->] & Hc).
  apply elements_subset. eapply list_elem_of_In, list_elem_of_lookup_2, Hc.
Qed.

Lemma ext_run (t : template) :
  (t = T_mlongdiv -> qname_eqb nm (M "mlongdiv") = true) ->
  (t = T_enter_rtl -> measure Rtl (Element nm a cs) < measure md (Element nm a cs)) ->
  (t = T_rtl_elementary \/ t = T_row_other \/ t = T_carry_other ->
   measure Default (Element nm a cs) < measure md (Element nm a cs)) ->
  run_template rec1 t md cx nm a cs = run_template rec2 t md cx nm a cs.
Proof.
  intros Hdiv Hrtl Hself.
  destruct t; unfold run_template.
  - unfold t_copy. rewrite ext_kids by subset_tac. reflexivity.
  - unfold t_enter_rtl. apply H, Hrtl. reflexivity.
  - unfold t_mstack. rewrite ext_kids by subset_tac. reflexivity.
  - unfold t_mlongdiv. rewrite (H Default); [reflexivity|].
    apply measure_longdiv_stack, Hdiv. reflexivity.
  - unfold t_rtl_element. rewrite ext_kids_mapM by subset_tac. reflexivity.
  - unfold t_rtl_mfrac_bevelled. rewrite !ext_kids by subset_tac. reflexivity.
  - unfold t_rtl_mfrac. rewrite ext_kids by subset_tac. reflexivity.
  - unfold t_rtl_mroot. rewrite !ext_kids by subset_tac. reflexivity.
  - unfold t_rtl_msqrt. rewrite ext_kids by subset_tac. reflexivity.
  - unfold t_rtl_container. rewrite ext_kids by subset_tac. reflexivity.
  - unfold t_rtl_msup. rewrite !ext_kids by subset_tac. reflexivity.
  - unfold t_rtl_msub. rewrite !ext_kids by subset_tac. reflexivity.
  - unfold t_rtl_msubsup. rewrite !ext_kids by subset_tac. reflexivity.
  - unfold t_rtl_mmultiscripts. rewrite !ext_pairs, ext_kids by subset_tac. reflexivity.
  - unfold t_rtl_mmultiscripts_post. rewrite ext_pairs, ext_kids by subset_tac.
    reflexivity.
  - unfold t_rtl_elementary. rewrite (H Default); [reflexivity|]. apply Hself. tauto.
  - unfold t_rtl_madruwb. rewrite ext_kids by subset_tac. reflexivity.
  - unfold t_row_other. rewrite (H Default); [reflexivity|]. apply Hself. tauto.
  - unfold t_row_msrow. rewrite ext_kids by subset_tac. reflexivity.
  - reflexivity.
  - apply ext_group.
  - reflexivity.
  - unfold t_row_mscarries. rewrite ext_kids by subset_tac. reflexivity.
  - unfold t_carry_other. rewrite (H Default); [reflexivity|]. apply Hself. tauto.
  - unfold t_carry_mscarry. rewrite ext_kids by subset_tac. reflexivity.
Qed.

End Element.

(** What template selection tells about the mode and the name. *)
Lemma stylesheet_facts :
  Forall (fun r =>
            (r_template r = T_mlongdiv ->
             forall nm a cs, r_pattern r nm a cs = true -> qname_eqb nm (M "mlongdiv") = true)
            /\ (r_template r = T_enter_rtl -> r_mode r = MDefault)
            /\ (r_template r = T_rtl_elementary ->
                r_mode r = MRtl
                /\ forall nm a cs, r_pattern r nm a cs = true -> is_elementary nm = true)
            /\ (r_template r = T_row_other -> r_mode r = MMstack1)
            /\ (r_template r = T_carry_other -> r_mode r = MMsc))
         stylesheet.
Proof.
  unfold stylesheet.
  repeat (apply Forall_cons; split;
          [cbn [r_template r_mode r_pattern];
           split; [|split; [|split; [|split]]]; intros Hd; try discriminate Hd|]);
    [..|apply Forall_nil].
  - reflexivity.
  - split; [reflexivity|]. intros nm a cs. unfold one_of, is_elementary. cbn [existsb].
    destruct (qname_eqb nm (M "mlongdiv")), (qname_eqb nm (M "mstack")); simpl; congruence.
  - reflexivity.
  - reflexivity.
  - intros nm a cs Hp. exact Hp.
  - exact I.
Qed.

Lemma select_facts (md : mode) (nm : qname) (a : gmap string string) (cs : list node)
    (t : template) :
  select_template (name_of_mode md) nm a cs = Some t ->
  (t = T_mlongdiv -> qname_eqb nm (M "mlongdiv") = true)
  /\ (t = T_enter_rtl -> md = Default /\ is_elementary nm = false)
  /\ (t = T_rtl_elementary -> md = Rtl /\ is_elementary nm = true)
  /\ (t = T_row_other -> exists p, md = Mstack1 p)
  /\ (t = T_carry_other -> md = Msc).
Proof.
  intros E.
  assert (S : exists r, In r stylesheet /\ r_mode r = name_of_mode md
                        /\ r_pattern r nm a cs = true /\ r_template r = t).
  { unfold select_template in E.
    destruct (select_rule stylesheet (name_of_mode md) nm a cs) as [r|] eqn:Er;
      [|discriminate].
    injection E as <-. apply select_rule_sound in Er as (H1 & H2 & H3).
    exists r. split; [exact H1|]. split; [exact H2|]. split; [exact H3|reflexivity]. }
  destruct S as (r & Hin & Hm & Hp & Ht).
  pose proof stylesheet_facts as F. rewrite Forall_forall in F.
  apply list_elem_of_In, F in Hin. rewrite Ht in Hin.
  destruct Hin as (F1 & F2 & F3 & F4 & F5).
  split; [|split; [|split; [|split]]]; intros ->.
  - eapply F1; [reflexivity|exact Hp].
  - assert (md = Default) as ->.
    { specialize (F2 eq_refl). rewrite F2 in Hm. destruct md; try discriminate Hm.
      reflexivity. }
    split; [reflexivity|]. rewrite select_default in E. unfold is_elementary.
    destruct (qname_eqb nm (M "mlongdiv")); [discriminate|].
    destruct (qname_eqb nm (M "mstack")); [discriminate|]. reflexivity.
  - destruct (F3 eq_refl) as [F3m F3p]. split; [|eapply F3p, Hp].
    rewrite F3m in Hm. destruct md; try discriminate Hm. reflexivity.
  - specialize (F4 eq_refl). rewrite F4 in Hm. destruct md; try discriminate Hm. eauto.
  - specialize (F5 eq_refl). rewrite F5 in Hm. destruct md; try discriminate Hm.
    reflexivity.
Qed.

Lemma instantiate_ext (md : mode) (cx : context) (n : node) :
  (forall md' cx' n', measure md' n' < measure md n ->
                      rec1 md' cx' n' = rec2 md' cx' n') ->
  instantiate rec1 md cx n = instantiate rec2 md cx n.
Proof.
  intros H. destruct n as [nm a cs|s]; [|reflexivity].
  unfold instantiate.
  destruct (select_template (name_of_mode md) nm a cs) as [t|] eqn:E.
  - apply select_facts in E as (F1 & F2 & F3 & F4 & F5).
    apply ext_run; [exact H|exact F1|..].
    + intros Ht. destruct (F2 Ht) as [-> F]. unfold measure, rank. rewrite F. lia.
    + intros [Ht|[Ht|Ht]]; unfold measure, rank.
      * destruct (F3 Ht) as [-> ->]. lia.
      * destruct (F4 Ht) as [p ->]. destruct (is_elementary nm); lia.
      * rewrite (F5 Ht). destruct (is_elementary nm); lia.
  - eapply ext_kids; [exact H|subset_tac].
Qed.

End Ext.

(** ** Templates over calls that all return *)

Lemma mapM_pure {A B : Type} (g : A -> B) (l : list A) :
  mapM (fun x => Some (g x)) l = Some (map g l).
Proof.
  induction l as [|x xs IH]; [reflexivity|].
  simpl. rewrite IH. reflexivity.
Qed.

Lemma bind_some {A B : Type} (v : A) (k : A -> option B) : mbind k (Some v) = k v.
Proof. reflexivity. Qed.

Section Pure.

Variable f : mode -> context -> node -> list node.

Lemma apply_to_pure (md : mode) (cx : context) (l : list node) :
  apply_to (fun md cx n => Some (f md cx n)) md cx l = Some (mconcat (map (f md cx) l)).
Proof. unfold apply_to. rewrite (mapM_pure (f md cx)). reflexivity. Qed.

Lemma apply_pairs_pure (cx : context) (es : list node) (sel : list nat) :
  apply_pairs (fun md cx n => Some (f md cx n)) cx es sel =
  Some (mconcat (map (fun j => mconcat (map (f Rtl cx) (pair_at es j))) (rev sel))).
Proof.
  unfold apply_pairs.
  rewrite (mapM_ext _ (fun j => Some (mconcat (map (f Rtl cx) (pair_at es j))))).
  - rewrite mapM_pure. reflexivity.
  - intros j. apply apply_to_pure.
Qed.

Lemma instantiate_pure (md : mode) (cx : context) (n : node) :
  is_Some (instantiate (fun md cx n => Some (f md cx n)) md cx n).
Proof.
  destruct n as [nm a cs|s]; [|destruct md; simpl; eauto].
  unfold instantiate.
  destruct (select_template (name_of_mode md) nm a cs) as [t|];
    [|rewrite apply_to_pure; eauto].
  destruct t; unfold run_template;
    unfold t_copy, t_enter_rtl, t_mstack, t_mlongdiv, t_rtl_element,
      t_rtl_mfrac_bevelled, t_rtl_mfrac, t_rtl_mroot, t_rtl_msqrt, t_rtl_container,
      t_rtl_msup, t_rtl_msub, t_rtl_msubsup, t_rtl_mmultiscripts,
      t_rtl_mmultiscripts_post, t_rtl_elementary, t_rtl_madruwb, t_row_other,
      t_row_msrow, t_row_mn, t_row_msgroup, t_row_msline, t_row_mscarries,
      t_carry_other, t_carry_mscarry;
    rewrite ?apply_pairs_pure, ?apply_to_pure, ?mapM_pure, ?bind_some;
    eexists; reflexivity.
Qed.

End Pure.

(** ** Enough fuel gives the result *)

Lemma apply_templates_total (fuel : nat) :
  forall md cx n, measure md n < fuel -> is_Some (apply_templates fuel md cx n).
Proof.
  induction fuel as [|fuel IH]; intros md cx n Hm; [lia|].
  simpl.
  rewrite (instantiate_ext
             _ (fun md' cx' n' => Some (default [] (apply_templates fuel md' cx' n')))).
  - apply instantiate_pure.
  - intros md' cx' n' Hlt.
    destruct (IH md' cx' n') as [r ->]; [lia|reflexivity].
Qed.

Lemma apply_templates_fuel (fuel1 : nat) :
  forall fuel2 md cx n,
    measure md n < fuel1 -> measure md n < fuel2 ->
    apply_templates fuel1 md cx n = apply_templates fuel2 md cx n.
Proof.
  induction fuel1 as [|fuel1 IH]; intros fuel2 md cx n H1 H2; [lia|].
  destruct fuel2 as [|fuel2]; [lia|].
  simpl. apply instantiate_ext.
  intros md' cx' n' Hlt. apply IH; lia.
Qed.

(** With more fuel than the measure of the node, the transformation returns
    [transform]. *)
Lemma apply_templates_enough (fuel : nat) (md : mode) (cx : context) (n : node) :
  measure md n < fuel -> apply_templates fuel md cx n = Some (transform md cx n).
Proof.
  intros H. unfold transform, enough_fuel.
  rewrite (apply_templates_fuel fuel (S (measure md n))) by lia.
  destruct (apply_templates_total (S (measure md n)) md cx n) as [r ->]; [lia|].
  reflexivity.
Qed.

(** [transform] satisfies the equations of the templates. *)
Lemma transform_unfold (md : mode) (cx : context) (n : node) :
  instantiate (fun md' cx' n' => Some (transform md' cx' n')) md cx n
  = Some (transform md cx n).
Proof.
  rewrite <- (apply_templates_enough (S (measure md n))) by lia.
  simpl. symmetry. apply instantiate_ext.
  intros md' cx' n' Hlt. apply apply_templates_enough. exact Hlt.
Qed.

Lemma apply_to_transform (md : mode) (cx : context) (l : list node) :
  apply_to (fun md' cx' n' => Some (transform md' cx' n')) md cx l
  = Some (transform_all md cx l).
Proof. apply (apply_to_pure transform). Qed.

(** The transformation of a document returns with any fuel above the
    measure of its nodes. *)
Lemma transform_document_enough (fuel : nat) (doc : list node) :
  (forall n, In n doc -> measure Default n < fuel) ->
  transform_document fuel doc
  = Some (merge_text (transform_all Default (document_context doc) doc)).
Proof.
  intros H. unfold transform_document, apply_to, transform_all.
  rewrite (mapM_ext_in _ (fun n => Some (transform Default (document_context doc) n))).
  - rewrite mapM_pure. reflexivity.
  - intros n Hn. apply apply_templates_enough, H, Hn.
Qed.

(** ** Properties of template selection and of single templates *)

Lemma select_template_mode (md : mode_name) (nm : qname) (a : gmap string string)
    (cs : list node) (t : template) :
  select_template md nm a cs = Some t -> template_mode t = md.
Proof.
  unfold select_template. intros E.
  apply fmap_Some in E as (r & Er & ->).
  apply select_rule_sound in Er as (Hin & Hm & _).
  assert (F : forallb (fun r => mode_name_eqb (template_mode (r_template r)) (r_mode r))
                      stylesheet = true) by reflexivity.
  rewrite forallb_forall in F. specialize (F r Hin).
  rewrite <- Hm. destruct (template_mode (r_template r)), (r_mode r); simpl in F; congruence.
Qed.

Lemma no_specific_rule_default (nm : qname) (a : gmap string string) (cs : list node) :
  specific_rule_matches MDefault nm a cs = false ->
  select_template MDefault nm a cs = Some T_copy.
Proof.
  intros H. unfold specific_rule_matches, stylesheet, named in H.
  cbn -[qname_eqb in_mathml attr String.eqb] in H.
  rewrite select_default.
  destruct (qname_eqb nm (M "mlongdiv")), (qname_eqb nm (M "mstack")),
    (in_mathml nm && String.eqb (attr a "dir") "rtl"); simpl in H; try discriminate H;
    reflexivity.
Qed.

Lemma instantiate_element (rec : mode -> context -> node -> option (list node))
    (md : mode) (cx : context) (nm : qname) (a : gmap string string) (cs : list node)
    (t : template) :
  select_template (name_of_mode md) nm a cs = Some t ->
  instantiate rec md cx (Element nm a cs) = run_template rec t md cx nm a cs.
Proof. intros E. unfold instantiate. rewrite E. reflexivity. Qed.

(** What the selected template is, the result of an element is its body
    over [transform]. *)
Lemma transform_element (md : mode) (cx : context) (nm : qname) (a : gmap string string)
    (cs : list node) (t : template) :
  select_template (name_of_mode md) nm a cs = Some t ->
  run_template (fun md' cx' n' => Some (transform md' cx' n')) t md cx nm a cs
  = Some (transform md cx (Element nm a cs)).
Proof.
  intros E. rewrite <- transform_unfold. symmetry. apply instantiate_element, E.
Qed.

(** C3: in the default mode, an element that no rule more specific than the
    wildcard rule matches is copied: same name, same attributes, and as
    children the results of its children, transformed in the default mode, in
    their order. *)
Theorem default_rule_copies (cx : context) (nm : qname) (a : gmap string string)
    (cs : list node) :
  specific_rule_matches MDefault nm a cs = false ->
  transform Default cx (Element nm a cs)
  = [Element nm a (merge_text (transform_all Default (push cx nm a) cs))].
Proof.
  intros H. apply no_specific_rule_default in H.
  pose proof (transform_element Default cx nm a cs T_copy H) as E.
  unfold run_template, t_copy in E.
  rewrite apply_to_transform, bind_some in E.
  injection E as <-. reflexivity.
Qed.

Lemma default_rule_copies_witness :
  specific_rule_matches MDefault (M "mrow") ∅ [Text "x"] = false
  /\ transform Default (document_context []) (Element (M "mrow") ∅ [Text "x"])
     = [Element (M "mrow") ∅
          (merge_text (transform_all Default (push (document_context []) (M "mrow") ∅)
                                     [Text "x"]))].
Proof.
  split; [reflexivity|].
  apply (default_rule_copies (document_context []) (M "mrow") ∅ [Text "x"]).
  reflexivity.
Defined.

Lemma select_rule_some (rules : list rule) (md : mode_name) (nm : qname)
    (a : gmap string string) (cs : list node) (r : rule) :
  In r rules -> r_mode r = md -> r_pattern r nm a cs = true ->
  is_Some (select_rule rules md nm a cs).
Proof.
  intros Hin Hm Hp. induction rules as [|x xs IH]; [destruct Hin|].
  simpl. destruct (select_rule xs md nm a cs) as [later|].
  - destruct (_ && _); eauto.
  - destruct Hin as [->|Hin]; [|destruct (IH Hin) as [? [=]]].
    rewrite Hm, Hp. destruct md; simpl; eauto.
Qed.

(** Rewrites the calls of a template body over [transform]. *)
Ltac over_transform H :=
  cbv beta in H;
  rewrite ?(apply_pairs_pure transform), ?apply_to_transform, ?mapM_pure, ?bind_some in H.

(** In mode [rtl] an element always gives one element. *)
Lemma mirror_element (cx : context) (nm : qname) (a : gmap string string) (cs : list node) :
  exists nm' a' cs', transform Rtl cx (Element nm a cs) = [Element nm' a' cs'].
Proof.
  destruct (select_template MRtl nm a cs) as [t|] eqn:E.
  - pose proof (select_template_mode _ _ _ _ _ E) as Hm.
    pose proof (transform_element Rtl cx nm a cs t E) as H.
    destruct t; try discriminate Hm; unfold run_template in H;
      unfold t_rtl_element, t_rtl_mfrac_bevelled, t_rtl_mfrac, t_rtl_mroot, t_rtl_msqrt,
        t_rtl_container, t_rtl_msup, t_rtl_msub, t_rtl_msubsup, t_rtl_mmultiscripts,
        t_rtl_mmultiscripts_post, t_rtl_elementary, t_rtl_madruwb in H;
      over_transform H; injection H as <-; unfold lit, mk; eauto.
  - unfold select_template in E.
    destruct (select_rule_some stylesheet MRtl nm a cs
                (Rule MRtl any_element (-1 # 2) T_rtl_element)) as [r Hr];
      [unfold stylesheet; simpl; tauto|reflexivity|reflexivity|].
    rewrite Hr in E. discriminate E.
Qed.

Lemma elements_is_element (l : list node) (c : node) :
  In c (elements l) -> is_element c = true.
Proof.
  unfold elements. rewrite <- list_elem_of_In, list_elem_of_filter.
  intros [H _]. destruct (is_element c); [reflexivity|destruct H].
Qed.

(** C6: an [msup] in mode [rtl] gives an [mmultiscripts] whose children are
    the mirrored base, an [mprescripts], a [none] in the place of the
    pre-subscript, and the mirrored superscript. *)
Theorem mirror_msup (cx : context) (a : gmap string string) (cs : list node)
    (base script : node) (rest : list node) :
  elements cs = base :: script :: rest ->
  exists base' script',
    mirror (push cx (M "msup") a) base = [base']
    /\ mirror (push cx (M "msup") a) script = [script']
    /\ is_element base' = true /\ is_element script' = true
    /\ mirror cx (Element (M "msup") a cs)
       = [Element (M "mmultiscripts") ∅
            [base'; Element (M "mprescripts") ∅ []; Element (M "none") ∅ []; script']].
Proof.
  intros Hcs. unfold mirror.
  assert (Hb : is_element base = true).
  { apply (elements_is_element cs). rewrite Hcs. left. reflexivity. }
  assert (Hs : is_element script = true).
  { apply (elements_is_element cs). rewrite Hcs. right. left. reflexivity. }
  destruct base as [bn ba bc|]; [|discriminate Hb].
  destruct script as [sn sa sc|]; [|discriminate Hs].
  destruct (mirror_element (push cx (M "msup") a) bn ba bc) as (bn' & ba' & bc' & Eb).
  destruct (mirror_element (push cx (M "msup") a) sn sa sc) as (sn' & sa' & sc' & Es).
  exists (Element bn' ba' bc'), (Element sn' sa' sc').
  split; [exact Eb|]. split; [exact Es|]. split; [reflexivity|]. split; [reflexivity|].
  assert (E : select_template (name_of_mode Rtl) (M "msup") a cs = Some T_rtl_msup)
    by reflexivity.
  pose proof (transform_element Rtl cx (M "msup") a cs T_rtl_msup E) as H.
  unfold run_template, t_rtl_msup in H. over_transform H.
  injection H as <-.
  unfold nth_element. rewrite Hcs. simpl nth_error. cbv iota.
  unfold transform_all, mconcat. simpl map. rewrite Eb, Es. reflexivity.
Qed.

Lemma mirror_msup_witness :
  elements [lit "mi" [] [Text "x"]; lit "mn" [] [Text "2"]]
  = [lit "mi" [] [Text "x"]; lit "mn" [] [Text "2"]]
  /\ exists base' script',
    mirror (push (document_context []) (M "msup") ∅) (lit "mi" [] [Text "x"]) = [base']
    /\ mirror (push (document_context []) (M "msup") ∅) (lit "mn" [] [Text "2"]) = [script']
    /\ is_element base' = true /\ is_element script' = true
    /\ mirror (document_context [])
              (Element (M "msup") ∅ [lit "mi" [] [Text "x"]; lit "mn" [] [Text "2"]])
       = [Element (M "mmultiscripts") ∅
            [base'; Element (M "mprescripts") ∅ []; Element (M "none") ∅ []; script']].
Proof.
  split; [reflexivity|].
  apply (mirror_msup (document_context []) ∅
           [lit "mi" [] [Text "x"]; lit "mn" [] [Text "2"]]
           (lit "mi" [] [Text "x"]) (lit "mn" [] [Text "2"]) []).
  reflexivity.
Defined.

Lemma rtl_text_exchanged (s : string) : rtl_text s = exchanged_text s.
Proof.
  unfold rtl_text, exchanged_text, rtl_text_rules.
  rewrite !filter_cons, filter_nil. cbn [fst]. rewrite !(String.eqb_sym s).
  repeat match goal with
    | |- context [String.eqb ?x s] =>
        destruct (String.eqb x s); cbn -[String.eqb]; [reflexivity|]
    end.
  reflexivity.
Qed.

Lemma apply_templates_text (fuel : nat) (cx : context) (s : string) :
  apply_templates (S fuel) Rtl cx (Text s) = Some [Text (exchanged_text s)].
Proof. simpl. rewrite rtl_text_exchanged. reflexivity. Qed.

Lemma transform_text (cx : context) (s : string) :
  transform Rtl cx (Text s) = [Text (exchanged_text s)].
Proof. unfold transform, enough_fuel. rewrite apply_templates_text. reflexivity. Qed.

(** C7: a text node in mode [rtl] is replaced by its partner when it is one
    of ( ) { } < > ∈ ∋, and is copied otherwise; no element name, attribute
    or context changes that, and one unit of fuel is enough. *)
Theorem mirror_text (cx : context) (s : string) :
  mirror cx (Text s) = [Text (exchanged_text s)]
  /\ forall fuel, apply_templates (S fuel) Rtl cx (Text s) = Some [Text (exchanged_text s)].
Proof.
  split.
  - apply transform_text.
  - intros fuel. apply apply_templates_text.
Qed.

(** The stack template and the long division template over [transform]. *)
Lemma transform_mstack (cx : context) (a : gmap string string) (cs : list node) :
  transform Default cx (Element (M "mstack") a cs)
  = stack_table a
      (merge_text (transform_all (Mstack1 (XNum.of_Z 0)) (push cx (M "mstack") a)
                                 (elements cs))).
Proof.
  assert (E : select_template (name_of_mode Default) (M "mstack") a cs = Some T_mstack)
    by (simpl; rewrite select_default; reflexivity).
  pose proof (transform_element Default cx (M "mstack") a cs T_mstack E) as H.
  unfold run_template, t_mstack in H. over_transform H.
  injection H as <-. reflexivity.
Qed.

Lemma transform_mlongdiv (cx : context) (a : gmap string string) (cs : list node) :
  transform Default cx (Element (M "mlongdiv") a cs)
  = longdiv_result (attr a "longdivstyle") (nth_element cs 1) (nth_element cs 2)
      (transform Default
         {| ancestors := []; doc_nodes := count_nodes (longdiv_stack cx a cs) |}
         (longdiv_stack cx a cs)).
Proof.
  assert (E : select_template (name_of_mode Default) (M "mlongdiv") a cs = Some T_mlongdiv)
    by (simpl; rewrite select_default; reflexivity).
  pose proof (transform_element Default cx (M "mlongdiv") a cs T_mlongdiv E) as H.
  unfold run_template, t_mlongdiv in H. over_transform H.
  injection H as <-. reflexivity.
Qed.

(** C8: an [mstack] or [mlongdiv] met in mode [rtl] is not mirrored.  The
    result is an [mrow] with [dir="ltr"] around what the default mode gives
    for the same element in the same context, and in the default mode the
    element is handled by the stack template or the long division template,
    whatever its attributes. *)
Theorem elementary_not_mirrored (cx : context) (nm : qname) (a : gmap string string)
    (cs : list node) :
  is_elementary nm = true ->
  mirror cx (Element nm a cs)
  = [Element (M "mrow") {["dir" := "ltr"]}
       (merge_text (transform Default cx (Element nm a cs)))]
  /\ select_template MDefault nm a cs
     = Some (if qname_eqb nm (M "mlongdiv") then T_mlongdiv else T_mstack).
Proof.
  intros He. unfold mirror. split.
  - pose proof (select_rtl_elementary nm a cs He) as E.
    pose proof (transform_element Rtl cx nm a cs T_rtl_elementary E) as H.
    unfold run_template, t_rtl_elementary in H. over_transform H.
    injection H as <-. reflexivity.
  - rewrite select_default. unfold is_elementary in He.
    destruct (qname_eqb nm (M "mlongdiv")); [reflexivity|].
    destruct (qname_eqb nm (M "mstack")); [reflexivity|discriminate He].
Qed.

Lemma elementary_not_mirrored_witness :
  is_elementary (M "mstack") = true
  /\ mirror (document_context []) (Element (M "mstack") {["dir" := "rtl"]} [])
     = [Element (M "mrow") {["dir" := "ltr"]}
          (merge_text (transform Default (document_context [])
                                 (Element (M "mstack") {["dir" := "rtl"]} [])))]
  /\ select_template MDefault (M "mstack") {["dir" := "rtl"]} [] = Some T_mstack.
Proof.
  split; [reflexivity|].
  apply (elementary_not_mirrored (document_context []) (M "mstack") {["dir" := "rtl"]} []).
  reflexivity.
Defined.

(** ** Rows of a stack *)

Lemma nonempty_eqb (s : string) : XStr.nonempty s = negb (String.eqb s "").
Proof. destruct s; reflexivity. Qed.

Lemma no_length_spec (a : gmap string string) : no_length a = length_absent_or_zero a.
Proof.
  unfold no_length, length_absent_or_zero, attr.
  destruct (a !! "length") as [v|]; simpl; [|reflexivity].
  rewrite nonempty_eqb, negb_involutive. reflexivity.
Qed.

Lemma row_anchor_mtr (class l : string) (cells : list node) :
  row_anchor [lit "mtr" [("class", class); ("l", l)] cells] = Some l.
Proof.
  unfold row_anchor, lit, mk, attrs_of_list. simpl.
  rewrite lookup_insert_ne by discriminate. apply lookup_insert_eq.
Qed.

Lemma transform_msline (cx : context) (a : gmap string string) (cs : list node)
    (p : XNum.t) :
  t_row_msline cx a p = Some (transform (Mstack1 p) cx (Element (M "msline") a cs)).
Proof.
  assert (E : select_template (name_of_mode (Mstack1 p)) (M "msline") a cs
              = Some T_row_msline) by reflexivity.
  pose proof (transform_element (Mstack1 p) cx (M "msline") a cs T_row_msline E) as H.
  exact H.
Qed.

(** C4, as amended: the anchor of the row made for an [msline] lowered at
    offset [p] is the fill-to-max marker when the length is absent, empty or
    zero; otherwise it is [p] plus the declared length under right and
    decimalpoint alignment (the default), and [p] under any other
    alignment. *)
Theorem line_anchor (cx : context) (a : gmap string string) (cs : list node)
    (p : XNum.t) :
  row_anchor (transform (Mstack1 p) cx (Element (M "msline") a cs))
  = Some (if length_absent_or_zero a then "*"
          else if String.eqb (stack_align cx) "right"
                  || String.eqb (stack_align cx) "decimalpoint"
               then XNum.to_string (XNum.add p (XNum.of_string (attr a "length")))
               else XNum.to_string p).
Proof.
  pose proof (transform_msline cx a cs p) as H.
  cbv beta zeta delta [t_row_msline] in H. apply (inj Some) in H. rewrite <- H.
  rewrite row_anchor_mtr. unfold msline_l. rewrite no_length_spec. reflexivity.
Qed.

(** C4, as stated, fails: under left alignment a line of length 2 lowered at
    offset 0 is anchored at 0, not at 2. *)
Lemma line_anchor_left_counterexample : ~ line_anchor_as_specified.
Proof.
  intros H.
  specialize (H (in_stack [("stackalign", "left")] 4) {["length" := "2"]} []
                (XNum.of_Z 0)).
  vm_compute in H. discriminate H.
Qed.

Lemma transform_mn (cx : context) (a : gmap string string) (cs : list node) (p : XNum.t) :
  t_row_mn cx (M "mn") a cs p = Some (transform (Mstack1 p) cx (Element (M "mn") a cs)).
Proof.
  assert (E : select_template (name_of_mode (Mstack1 p)) (M "mn") a cs = Some T_row_mn)
    by reflexivity.
  exact (transform_element (Mstack1 p) cx (M "mn") a cs T_row_mn E).
Qed.

(** The anchor of the row made for an [mn] is the attribute computed by
    [mn_l] from the normalized text of the numeral. *)
Lemma mn_anchor (cx : context) (a : gmap string string) (cs : list node) (p : XNum.t) :
  row_anchor (transform (Mstack1 p) cx (Element (M "mn") a cs))
  = Some (mn_l cx (XStr.normalize_space (string_value (Element (M "mn") a cs))) p).
Proof.
  pose proof (transform_mn cx a cs p) as H.
  cbv beta zeta delta [t_row_mn] in H. apply (inj Some) in H. rewrite <- H.
  unfold row_anchor, lit, mk, attrs_of_list. simpl. apply lookup_insert_eq.
Qed.

(** The anchors of a numeral of [len] characters under the alignments that
    the code handles as the specification says: right, decimalpoint with and
    without a separator, and center. *)
Lemma mn_anchor_aligned (cx : context) (mn : string) (p : XNum.t) :
  (stack_align cx = "right" ->
   mn_l cx mn p = XNum.to_string (XNum.add p (XNum.of_nat (XStr.string_length mn))))
  /\ (stack_align cx = "decimalpoint" -> XStr.contains mn (decimal_point cx) = false ->
      mn_l cx mn p = XNum.to_string (XNum.add p (XNum.of_nat (XStr.string_length mn))))
  /\ (stack_align cx = "decimalpoint" -> XStr.contains mn (decimal_point cx) = true ->
      mn_l cx mn p
      = XNum.to_string
          (XNum.add p (XNum.of_nat (XStr.string_length
                                      (XStr.substring_before mn (decimal_point cx))))))
  /\ (stack_align cx = "center" ->
      mn_l cx mn p
      = XNum.to_string
          (XNum.round (XNum.div (XNum.add p (XNum.of_nat (XStr.string_length mn)))
                                (XNum.of_Z 2)))).
Proof.
  unfold mn_l. repeat split.
  - intros ->. reflexivity.
  - intros -> ->. reflexivity.
  - intros -> ->. reflexivity.
  - intros ->. reflexivity.
Qed.

(** C5 at a failing input: in a stack with [stackalign="left"] the numeral
    12 of a group at position 1 is lowered at offset 1; the anchor of its row
    is the text "$p", which is not a number, where the specification has
    the offset itself. *)
Theorem mn_anchor_left_literal :
  row_anchor
    (transform (Mstack1 (XNum.of_Z 0)) (in_stack [("stackalign", "left")] 4)
       (Element (M "msgroup") {["position" := "1"]} [mn_ "12"]))
  = Some "$p"
  /\ XNum.of_string "$p" = XNum.NaN
  /\ XNum.to_string (XNum.add (XNum.of_Z 0) (XNum.of_string "1")) = "1".
Proof. vm_compute. repeat split. Qed.

(** ** The end-to-end example *)

(** C1, as amended: the long division with style ":right=right", divisor 3,
    quotient 12 and dividend 36 becomes a table ([mtable] with no column or
    row spacing) of one row, whose cells hold, one character each, the
    dividend, ":", the divisor, "=" and the quotient; no [mstack] or [msrow]
    is left. *)
Theorem division_example_result (fuel : nat) :
  measure Default division_example < fuel ->
  transform_document fuel [division_example]
  = Some [Element (M "mtable")
            (attrs_of_list [("columnspacing", "0em"); ("rowspacing", "0em")])
            [Text newline;
             Element (M "mtr") ∅
               [cell (mn_ "3"); cell (mn_ "6"); cell (mo_ ":"); cell (mn_ "3");
                cell (mo_ "="); cell (mn_ "1"); cell (mn_ "2")]]].
Proof.
  intros H. rewrite transform_document_enough.
  - vm_compute. reflexivity.
  - intros n [<-|[]]. exact H.
Qed.

Lemma division_example_result_witness :
  measure Default division_example < 49
  /\ transform_document 49 [division_example]
     = Some [Element (M "mtable")
               (attrs_of_list [("columnspacing", "0em"); ("rowspacing", "0em")])
               [Text newline;
                Element (M "mtr") ∅
                  [cell (mn_ "3"); cell (mn_ "6"); cell (mo_ ":"); cell (mn_ "3");
                   cell (mo_ "="); cell (mn_ "1"); cell (mn_ "2")]]].
Proof.
  split; [vm_compute; lia|].
  apply (division_example_result 49). vm_compute. lia.
Defined.

(** C1, as stated, fails: the result is not a bare row of the five items. *)
Lemma division_example_counterexample :
  ~ plain_row (transform_all Default (document_context [division_example])
                             [division_example]).
Proof.
  intros (nm & a & H). vm_compute in H. discriminate H.
Qed.

(** ** Mirroring twice *)

Ltac split_eqb v :=
  repeat match goal with
    | |- context [String.eqb v ?x] =>
        let E := fresh "E" in
        destruct (String.eqb_spec v x) as [E|E]; [subst v|]
    end.

Lemma rtl_attr_open (v : string) : rtl_attr "open" v = [("close", fence_partner v)].
Proof.
  unfold rtl_attr, fence_partner, rtl_attr_rules, attr_is, attr_named.
  cbn -[String.eqb]. change (String.eqb "open" "open") with true.
  change (String.eqb "open" "close") with false.
  change (String.eqb "open" "notation") with false. cbn -[String.eqb].
  split_eqb v; try reflexivity; cbn -[String.eqb]; reflexivity.
Qed.

Lemma rtl_attr_close (v : string) : rtl_attr "close" v = [("open", fence_partner v)].
Proof.
  unfold rtl_attr, fence_partner, rtl_attr_rules, attr_is, attr_named.
  cbn -[String.eqb]. change (String.eqb "close" "close") with true.
  change (String.eqb "close" "open") with false.
  change (String.eqb "close" "notation") with false. cbn -[String.eqb].
  split_eqb v; try reflexivity; cbn -[String.eqb]; reflexivity.
Qed.

Lemma fence_partner_involutive (v : string) : fence_partner (fence_partner v) = v.
Proof.
  unfold fence_partner at 2. split_eqb v; try reflexivity.
  unfold fence_partner.
  repeat match goal with
    | H : v <> ?x |- _ => apply String.eqb_neq in H; rewrite H; clear H
    end.
  reflexivity.
Qed.

(** What each attribute gives in mode [rtl]. *)
Lemma rtl_attr_cases (k v : string) :
  rtl_attr k v
  = if String.eqb k "open" then [("close", fence_partner v)]
    else if String.eqb k "close" then [("open", fence_partner v)]
    else if String.eqb k "notation" && String.eqb v "radical"
         then [("notation", "top right")]
         else [(k, v); ("dir", "ltr")].
Proof.
  destruct (String.eqb_spec k "open") as [->|Ho]; [apply rtl_attr_open|].
  destruct (String.eqb_spec k "close") as [->|Hc]; [apply rtl_attr_close|].
  apply String.eqb_neq in Ho, Hc.
  unfold rtl_attr, rtl_attr_rules, attr_is, attr_named.
  cbn -[String.eqb]. rewrite Ho, Hc. cbn -[String.eqb].
  destruct (String.eqb k "notation" && String.eqb v "radical"); reflexivity.
Qed.

(** Two attributes of different names can be mirrored in any order. *)
Lemma rtl_attr_commute (k1 v1 k2 v2 : string) (acc : gmap string string) :
  k1 <> k2 ->
  add_attrs (add_attrs acc (rtl_attr k2 v2)) (rtl_attr k1 v1)
  = add_attrs (add_attrs acc (rtl_attr k1 v1)) (rtl_attr k2 v2).
Proof.
  intros Hne. rewrite !rtl_attr_cases.
  assert (N : forall k v, String.eqb k "notation" && String.eqb v "radical" = true ->
                          k = "notation").
  { intros k v H. apply andb_true_iff in H as [H _]. apply String.eqb_eq, H. }
  destruct (String.eqb_spec k1 "open") as [H1o|H1o];
    destruct (String.eqb_spec k2 "open") as [H2o|H2o]; try congruence;
    destruct (String.eqb_spec k1 "close") as [H1c|H1c];
    destruct (String.eqb_spec k2 "close") as [H2c|H2c]; try congruence;
    destruct (String.eqb k1 "notation" && String.eqb v1 "radical") eqn:N1;
    try apply N in N1;
    destruct (String.eqb k2 "notation" && String.eqb v2 "radical") eqn:N2;
    try apply N in N2;
    try congruence;
    unfold add_attrs; cbn [fold_left fst snd];
    apply map_eq; intros j;
    repeat (rewrite lookup_insert; case_decide; try congruence);
    reflexivity.
Qed.

(** The fold over the attributes meets them in any order. *)
Lemma rtl_attrs_insert (base a : gmap string string) (k v : string) :
  a !! k = None ->
  rtl_attrs base (<[k := v]> a) = add_attrs (rtl_attrs base a) (rtl_attr k v).
Proof.
  intros H. unfold rtl_attrs.
  apply (map_fold_insert_L (fun k v acc => add_attrs acc (rtl_attr k v))); [|exact H].
  intros j1 j2 z1 z2 y Hne _ _. apply rtl_attr_commute. exact Hne.
Qed.

Lemma fences_only_spec (a : gmap string string) : fences_only a = true -> only_fences a.
Proof.
  unfold fences_only, only_fences. rewrite forallb_forall. intros H k [v Hv].
  specialize (H (k, v)). unfold is_fence in H. simpl in H.
  rewrite orb_true_iff, !String.eqb_eq in H. apply H.
  apply list_elem_of_In, elem_of_map_to_list, Hv.
Qed.

Lemma add_attrs_one (acc : gmap string string) (k v : string) :
  add_attrs acc [(k, v)] = <[k := v]> acc.
Proof. reflexivity. Qed.

(** The attributes of an element with fences only, after mode [rtl]. *)
Lemma rtl_attrs_fences (a : gmap string string) :
  only_fences a ->
  forall k,
    rtl_attrs ∅ a !! k
    = if String.eqb k "close" then fence_partner <$> a !! "open"
      else if String.eqb k "open" then fence_partner <$> a !! "close"
      else None.
Proof.
  unfold rtl_attrs.
  apply (map_fold_weak_ind
           (fun r m => only_fences m ->
                       forall k, r !! k
                                 = if String.eqb k "close" then fence_partner <$> m !! "open"
                                   else if String.eqb k "open"
                                        then fence_partner <$> m !! "close"
                                        else None)).
  - intros _ k. rewrite !lookup_empty. destruct (String.eqb k "close"), (String.eqb k "open");
      reflexivity.
  - intros i x m r Hi IH Hf k.
    assert (Hm : only_fences m).
    { intros j Hj. apply Hf. destruct (decide (i = j)) as [->|Hne].
      - rewrite Hi in Hj. destruct Hj as [? [=]].
      - rewrite lookup_insert_ne by exact Hne. exact Hj. }
    specialize (IH Hm).
    destruct (Hf i) as [-> | ->]; [rewrite lookup_insert_eq; eauto|..].
    + rewrite rtl_attr_open, add_attrs_one.
      destruct (String.eqb_spec k "close") as [->|Hk].
      * rewrite !lookup_insert_eq. reflexivity.
      * rewrite lookup_insert_ne by congruence. rewrite IH.
        apply String.eqb_neq in Hk. rewrite Hk.
        rewrite (lookup_insert_ne m "open" "close") by discriminate. reflexivity.
    + rewrite rtl_attr_close, add_attrs_one.
      destruct (String.eqb_spec k "open") as [->|Hk].
      * rewrite !lookup_insert_eq. reflexivity.
      * rewrite lookup_insert_ne by congruence. rewrite IH.
        apply String.eqb_neq in Hk. rewrite Hk.
        rewrite (lookup_insert_ne m "close" "open") by discriminate.
        destruct (String.eqb k "close"); reflexivity.
Qed.

Lemma rtl_attrs_fences_twice (a : gmap string string) :
  only_fences a -> rtl_attrs ∅ (rtl_attrs ∅ a) = a.
Proof.
  intros Hf.
  assert (Hb : only_fences (rtl_attrs ∅ a)).
  { intros k. rewrite (rtl_attrs_fences a Hf).
    destruct (String.eqb_spec k "close") as [->|_]; [tauto|].
    destruct (String.eqb_spec k "open") as [->|_]; [tauto|].
    intros [? [=]]. }
  apply map_eq. intros k.
  rewrite (rtl_attrs_fences _ Hb), !(rtl_attrs_fences a Hf). simpl.
  destruct (String.eqb_spec k "close") as [->|Hc].
  - destruct (a !! "close") as [v|]; simpl; [|reflexivity].
    rewrite fence_partner_involutive. reflexivity.
  - destruct (String.eqb_spec k "open") as [->|Ho].
    + destruct (a !! "open") as [v|]; simpl; [|reflexivity].
      rewrite fence_partner_involutive. reflexivity.
    + destruct (a !! k) as [v|] eqn:E; [|reflexivity].
      destruct (Hf k) as [-> | ->]; [rewrite E; eauto|congruence..].
Qed.

Lemma transform_all_single (md : mode) (cx : context) (n : node) :
  transform_all md cx [n] = transform md cx n.
Proof. unfold transform_all, mconcat. cbn [map concat]. apply app_nil_r. Qed.

Lemma exchanged_text_involutive (s : string) : exchanged_text (exchanged_text s) = s.
Proof.
  unfold exchanged_text at 2. split_eqb s; try reflexivity.
  unfold exchanged_text.
  repeat match goal with
    | H : s <> ?x |- _ => apply String.eqb_neq in H; rewrite H; clear H
    end.
  reflexivity.
Qed.

Lemma mirror_childless (cx : context) (nm : qname) (a : gmap string string) :
  generic_in_rtl nm -> mirror cx (Element nm a []) = [Element nm (rtl_attrs ∅ a) []].
Proof.
  intros Hg. unfold mirror.
  pose proof (transform_element Rtl cx nm a [] T_rtl_element (Hg a [])) as H.
  unfold run_template, t_rtl_element in H. over_transform H.
  apply (inj Some) in H. rewrite <- H. reflexivity.
Qed.

(** C2, as amended: mirroring twice gives back every text node, every fence
    attribute, and every element without children that falls to the generic
    rule and has fence attributes only. *)
Theorem mirror_twice_leaves (cx : context) :
  (forall s, mirror_twice cx (Text s) = [Text s])
  /\ (forall v, mirror_attr_twice "open" v = [("open", v)])
  /\ (forall v, mirror_attr_twice "close" v = [("close", v)])
  /\ (forall nm a, generic_in_rtl nm -> fences_only a = true ->
                   mirror_twice cx (Element nm a []) = [Element nm a []]).
Proof.
  split; [|split; [|split]].
  - intros s. unfold mirror_twice, mirror.
    rewrite transform_text, transform_all_single, transform_text.
    rewrite exchanged_text_involutive. reflexivity.
  - intros v. unfold mirror_attr_twice. rewrite rtl_attr_open. simpl.
    rewrite rtl_attr_close, fence_partner_involutive. reflexivity.
  - intros v. unfold mirror_attr_twice. rewrite rtl_attr_close. simpl.
    rewrite rtl_attr_open, fence_partner_involutive. reflexivity.
  - intros nm a Hg Hf. apply fences_only_spec in Hf.
    unfold mirror_twice. rewrite (mirror_childless cx nm a Hg).
    rewrite transform_all_single.
    pose proof (mirror_childless cx nm (rtl_attrs ∅ a) Hg) as E. unfold mirror in E.
    rewrite E, (rtl_attrs_fences_twice a Hf). reflexivity.
Qed.

Lemma mirror_twice_leaves_witness :
  generic_in_rtl (M "mfenced")
  /\ fences_only {["open" := "("; "close" := "]"]} = true
  /\ mirror_twice (document_context [])
                  (Element (M "mfenced") {["open" := "("; "close" := "]"]} [])
     = [Element (M "mfenced") {["open" := "("; "close" := "]"]} []].
Proof.
  split; [intros a cs; reflexivity|].
  split; [reflexivity|].
  apply (mirror_twice_leaves (document_context [])).
  - intros a cs. reflexivity.
  - reflexivity.
Defined.

(** C2, as stated, fails: a fence in an [mo] comes back with the spaces the
    generic rule puts before every child and is not exchanged a second time,
    and a superscript comes back as an [mmultiscripts]. *)
Lemma mirror_twice_counterexample :
  mirror_twice (document_context []) (mo_ "(") = [mo_ "  )"]
  /\ mirror_twice (document_context []) (mo_ "(") <> [mo_ "("]
  /\ mirror_twice (document_context [])
                  (Element (M "msup") ∅ [Element (M "mi") ∅ []; Element (M "mn") ∅ []])
     <> [Element (M "msup") ∅ [Element (M "mi") ∅ []; Element (M "mn") ∅ []]].
Proof.
  split; [vm_compute; reflexivity|].
  split; intros H; vm_compute in H; discriminate H.
Qed.

(** ** The pre-filter and the handler *)

(** C9: the option [enableMml3] is [true] in the options of the document
    class whatever the options of the class it extends; when the document has
    it [false] the filter leaves its argument as it is, and when the document
    has it [true] the filter replaces [data] by its transform and nothing
    else. *)
Theorem mmlFilter_gated {N Math : Type} (transform : N -> @Mml3.MathDocument -> N)
    (args : @Mml3.FILTERDATA N Math) (base : gmap string Js.value) :
  Mml3Handler.OPTIONS base !! "enableMml3" = Some (Js.Bool true)
  /\ (Mml3.options (Mml3.document args) !! "enableMml3" = Some (Js.Bool false) ->
      Mml3.mmlFilter transform args = args)
  /\ (Mml3.options (Mml3.document args) !! "enableMml3" = Some (Js.Bool true) ->
      Mml3.mmlFilter transform args
      = {| Mml3.math := Mml3.math args;
           Mml3.document := Mml3.document args;
           Mml3.data := transform (Mml3.data args) (Mml3.document args) |}).
Proof.
  split; [apply lookup_insert_eq|].
  unfold Mml3.mmlFilter, Js.get.
  split; intros ->; reflexivity.
Qed.

Lemma mmlFilter_gated_witness :
  let off := {| Mml3.math := tt;
                Mml3.document := {| Mml3.options := {["enableMml3" := Js.Bool false]} |};
                Mml3.data := 1 |} in
  let on := {| Mml3.math := tt;
               Mml3.document := {| Mml3.options := Mml3Handler.OPTIONS ∅ |};
               Mml3.data := 1 |} in
  Mml3.mmlFilter (fun n _ => S n) off = off
  /\ Mml3.data (Mml3.mmlFilter (fun n _ => S n) on) = 2.
Proof.
  intros off on. split.
  - apply (mmlFilter_gated (fun n _ => S n) off ∅). reflexivity.
  - rewrite (proj2 (proj2 (mmlFilter_gated (fun n _ => S n) on ∅))); reflexivity.
Defined.

Section Handler.

Import Mml3Handler.

(** One construction leaves a jax as it is or adds one filter to it. *)
Lemma visit_lookup (doc : nat) (jaxes : list nat) (st : store) (l : nat)
    (jax : InputJax) :
  st !! l = Some jax ->
  visit doc jaxes st !! l = Some jax
  \/ visit doc jaxes st !! l = Some (add_filter doc jax).
Proof.
  intros H. induction jaxes as [|x xs IH]; simpl; [left; exact H|].
  destruct (st !! x) as [j|] eqn:E; [|exact IH].
  destruct (String.eqb (name j) "MathML"); [|exact IH].
  destruct (decide (x = l)) as [->|Hne].
  - rewrite lookup_insert_eq. right. congruence.
  - rewrite lookup_insert_ne by exact Hne. left. exact H.
Qed.

Lemma add_filter_marked (doc : nat) (jax : InputJax) :
  Js.truthy (Js.get (jax_options jax) "_mml3") = true ->
  add_filter doc jax = jax.
Proof. intros H. unfold add_filter. rewrite H. reflexivity. Qed.

Lemma add_filter_marks (doc : nat) (jax : InputJax) :
  Js.truthy (Js.get (jax_options (add_filter doc jax)) "_mml3") = true.
Proof.
  unfold add_filter.
  destruct (Js.truthy (Js.get (jax_options jax) "_mml3")) eqn:E; simpl; [exact E|].
  unfold Js.get. rewrite lookup_insert_eq. reflexivity.
Qed.

(** Two documents constructed for the same MathML jax: the first adds its
    filter, the second adds nothing. *)
Lemma construct_twice (st : store) (l d1 d2 : nat) (jax : InputJax) :
  st !! l = Some jax -> name jax = "MathML" ->
  Js.truthy (Js.get (jax_options jax) "_mml3") = false ->
  exists jax',
    construct_all [(d1, Some [l]); (d2, Some [l])] st !! l = Some jax'
    /\ mmlFilters jax' = mmlFilters jax ++ [d1].
Proof.
  intros H Hn Hm. exists (add_filter d1 jax).
  unfold construct_all, construct; simpl.
  rewrite H, Hn. simpl. rewrite lookup_insert_eq.
  assert (N : name (add_filter d1 jax) = "MathML").
  { unfold add_filter. rewrite Hm. exact Hn. }
  rewrite N. simpl. rewrite lookup_insert_eq.
  rewrite (add_filter_marked d2) by apply add_filter_marks.
  split; [reflexivity|]. unfold add_filter. rewrite Hm. reflexivity.
Qed.

(** C10: whatever documents are constructed, and for whatever lists of input
    jax, a jax of the store ends with the filters it had, or with these and
    one more; in the second case its option [_mml3] was not set before and is
    [true] after.  A jax whose [_mml3] is set gets no filter. *)
Theorem filter_added_at_most_once (calls : list (nat * option (list nat)))
    (st : store) (l : nat) (jax : InputJax) :
  st !! l = Some jax ->
  exists jax',
    construct_all calls st !! l = Some jax'
    /\ name jax' = name jax
    /\ (mmlFilters jax' = mmlFilters jax
        \/ exists doc,
             mmlFilters jax' = mmlFilters jax ++ [doc]
             /\ Js.truthy (Js.get (jax_options jax) "_mml3") = false
             /\ jax_options jax' !! "_mml3" = Some (Js.Bool true))
    /\ (Js.truthy (Js.get (jax_options jax) "_mml3") = true -> jax' = jax).
Proof.
  intros H.
  assert (G : exists jax',
             construct_all calls st !! l = Some jax'
             /\ (jax' = jax \/ exists doc, jax' = add_filter doc jax)).
  { revert st jax H. induction calls as [|c cs IH]; intros st jax H.
    - exists jax. split; [exact H|left; reflexivity].
    - unfold construct_all. simpl. fold (construct_all cs (construct st c)).
      unfold construct at 1.
      destruct (visit_lookup (fst c) (default [] (snd c)) st l jax H) as [E|E].
      + destruct (IH _ _ E) as (jax' & E' & Hj). exists jax'. split; [exact E'|exact Hj].
      + destruct (IH _ _ E) as (jax' & E' & [->|[doc ->]]).
        * exists (add_filter (fst c) jax). split; [exact E'|right; eauto].
        * exists (add_filter (fst c) jax). split; [|right; eauto].
          rewrite E'. f_equal. apply add_filter_marked, add_filter_marks. }
  destruct G as (jax' & E & Hj). exists jax'. split; [exact E|].
  destruct Hj as [->|[doc ->]].
  - split; [reflexivity|]. split; [left; reflexivity|]. intros _. reflexivity.
  - unfold add_filter.
    destruct (Js.truthy (Js.get (jax_options jax) "_mml3")) eqn:T; simpl.
    + split; [reflexivity|]. split; [left; reflexivity|]. intros _. reflexivity.
    + split; [reflexivity|]. split; [|discriminate].
      right. exists doc. split; [reflexivity|]. split; [reflexivity|].
      apply lookup_insert_eq.
Qed.

Lemma filter_added_at_most_once_witness :
  let jax := {| name := "MathML"; jax_options := ∅; mmlFilters := [] |} in
  ({[7 := jax]} : store) !! 7 = Some jax
  /\ exists jax',
       construct_all [(1, Some [7]); (2, Some [7]); (3, None)] {[7 := jax]} !! 7
       = Some jax'
       /\ name jax' = name jax
       /\ (mmlFilters jax' = mmlFilters jax
           \/ exists doc,
                mmlFilters jax' = mmlFilters jax ++ [doc]
                /\ Js.truthy (Js.get (jax_options jax) "_mml3") = false
                /\ jax_options jax' !! "_mml3" = Some (Js.Bool true))
       /\ (Js.truthy (Js.get (jax_options jax) "_mml3") = true -> jax' = jax).
Proof.
  intros jax. split; [reflexivity|].
  apply (filter_added_at_most_once [(1, Some [7]); (2, Some [7]); (3, None)]
           {[7 := jax]} 7 jax).
  reflexivity.
Defined.

End Handler.

(** ** Numbers and strings of XPath on naturals *)

Lemma of_Q_inject (z : Z) (q : Q) : (q == inject_Z z)%Q -> XNum.of_Q q = XNum.of_Z z.
Proof.
  intros H. unfold XNum.of_Q, XNum.of_Z.
  rewrite (Qred_complete _ _ H), inject_Z_Qred. reflexivity.
Qed.

Lemma add_of_Z (x y : Z) : XNum.add (XNum.of_Z x) (XNum.of_Z y) = XNum.of_Z (x + y).
Proof. apply of_Q_inject. rewrite inject_Z_plus. reflexivity. Qed.

Lemma sub_of_Z (x y : Z) : XNum.sub (XNum.of_Z x) (XNum.of_Z y) = XNum.of_Z (x - y).
Proof.
  apply of_Q_inject. unfold Z.sub. rewrite inject_Z_plus, inject_Z_opp. reflexivity.
Qed.

Lemma leb_of_Z (x y : Z) : XNum.leb (XNum.of_Z x) (XNum.of_Z y) = (x <=? y)%Z.
Proof.
  unfold XNum.leb, XNum.of_Z. apply eq_true_iff_eq.
  rewrite Qle_bool_iff, <- Zle_Qle, Z.leb_le. reflexivity.
Qed.

Lemma eqb_of_Z (x y : Z) : XNum.eqb (XNum.of_Z x) (XNum.of_Z y) = (x =? y)%Z.
Proof.
  unfold XNum.eqb, XNum.of_Z. apply eq_true_iff_eq.
  rewrite Qeq_bool_iff, inject_Z_injective, Z.eqb_eq. reflexivity.
Qed.

Lemma positions_upto_of_Z (b : Z) (n : nat) :
  XNum.positions_upto (XNum.of_Z b) n = Nat.min (Z.to_nat b) n.
Proof.
  unfold XNum.positions_upto.
  assert (G : forall k m, length (filter (fun i => XNum.leb (XNum.of_nat i) (XNum.of_Z b))
                                          (seq (S k) m))
                          = Nat.min (Z.to_nat b - k) m).
  { intros k m. revert k. induction m as [|m IH]; intros k.
    - simpl. lia.
    - rewrite <- cons_seq, filter_cons.
      pose proof (leb_of_Z (Z.of_nat (S k)) b) as E.
      change (XNum.of_Z (Z.of_nat (S k))) with (XNum.of_nat (S k)) in E.
      destruct (XNum.leb (XNum.of_nat (S k)) (XNum.of_Z b)); symmetry in E.
      + apply Z.leb_le in E. rewrite decide_True by exact I.
        cbn [length]. rewrite IH. lia.
      + apply Z.leb_gt in E. rewrite decide_False by (intros []).
        rewrite IH. lia. }
  rewrite (G 0%nat n). f_equal. lia.
Qed.

Lemma sorts_below_of_Z (x y : Z) :
  sorts_below (XNum.of_Z x) (XNum.of_Z y) = (x <? y)%Z.
Proof.
  unfold sorts_below, XNum.of_Z. apply eq_true_iff_eq.
  rewrite negb_true_iff, Z.ltb_lt, <- not_true_iff_false, Qle_bool_iff, <- Zle_Qle. lia.
Qed.

Lemma digit_cases (d : Z) :
  (0 <= d < 10)%Z ->
  d = 0%Z \/ d = 1%Z \/ d = 2%Z \/ d = 3%Z \/ d = 4%Z \/ d = 5%Z \/ d = 6%Z \/ d = 7%Z
  \/ d = 8%Z \/ d = 9%Z.
Proof. lia. Qed.

Lemma digit_val_char (d : Z) :
  (0 <= d < 10)%Z -> XNum.digit_val (XNum.digit_char d) = Some d.
Proof.
  intros H. apply digit_cases in H.
  repeat (destruct H as [->|H]; [reflexivity|]). subst d. reflexivity.
Qed.

Lemma read_nat_digits (fuel : nat) :
  forall (n : Z) (acc : string),
    (0 <= n < 2 ^ Z.of_nat fuel)%Z -> (0 < n)%Z \/ (0 < fuel)%nat ->
    exists k : nat,
      (0 < k)%nat
      /\ (exists d rest, (0 <= d < 10)%Z
                         /\ XNum.nat_digits fuel n acc = String (XNum.digit_char d) rest)
      /\ forall a c,
           XNum.read_digits a c (XNum.nat_digits fuel n acc)
           = XNum.read_digits (a * 10 ^ Z.of_nat k + n) (c + k) acc.
Proof.
  induction fuel as [|fuel IH]; intros n acc Hn Hf.
  - simpl in Hn. lia.
  - cbn [XNum.nat_digits].
    assert (Hd : (0 <= n mod 10 < 10)%Z) by (apply Z.mod_pos_bound; lia).
    destruct (Z.eqb_spec (n / 10) 0) as [E|E].
    + exists 1%nat. split; [lia|]. split; [eauto|].
      intros a c. cbn [XNum.read_digits]. rewrite digit_val_char by exact Hd.
      pose proof (Z.div_mod n 10 ltac:(lia)).
      f_equal; [change (Z.of_nat 1) with 1%Z; lia|lia].
    + assert (Hq : (0 < n / 10)%Z).
      { pose proof (Z.div_pos n 10). lia. }
      assert (Hb : (n / 10 < 2 ^ Z.of_nat fuel)%Z).
      { rewrite Nat2Z.inj_succ, Z.pow_succ_r in Hn by lia.
        apply Z.div_lt_upper_bound; lia. }
      destruct (IH (n / 10)%Z (String (XNum.digit_char (n mod 10)) acc))
        as (k & Hk & Hhead & Hread); [lia|left; exact Hq|].
      exists (S k). split; [lia|]. split; [exact Hhead|].
      intros a c. rewrite Hread. cbn [XNum.read_digits].
      rewrite digit_val_char by exact Hd.
      pose proof (Z.div_mod n 10 ltac:(lia)).
      f_equal; [rewrite Nat2Z.inj_succ, Z.pow_succ_r by lia; lia|lia].
Qed.

Lemma to_string_of_nat (n : nat) :
  XNum.to_string (XNum.of_nat n) = XNum.Z_abs_string (Z.of_nat n).
Proof.
  unfold XNum.to_string, XNum.of_nat, XNum.of_Z. rewrite inject_Z_Qred.
  cbn [Qnum Qden inject_Z].
  destruct (Z.ltb_spec (Z.of_nat n) 0) as [H|_]; [lia|].
  rewrite Z.mod_1_r, Z.div_1_r, Z.abs_eq by lia. reflexivity.
Qed.

Lemma of_string_to_string (n : nat) :
  XNum.of_string (XNum.to_string (XNum.of_nat n)) = XNum.of_nat n.
Proof.
  rewrite to_string_of_nat. unfold XNum.Z_abs_string.
  rewrite Z.abs_eq by lia.
  destruct (read_nat_digits (S (Z.to_nat (Z.log2 (Z.of_nat n)))) (Z.of_nat n) EmptyString)
    as (k & Hk & (d & rest & Hd & Hhead) & Hread).
  { split; [lia|]. rewrite Nat2Z.inj_succ, Z2Nat.id by apply Z.log2_nonneg.
    destruct n as [|n]; [reflexivity|]. apply Z.log2_spec. lia. }
  { right. lia. }
  unfold XNum.of_string.
  assert (Hdrop : XNum.drop_space
                    (XNum.nat_digits (S (Z.to_nat (Z.log2 (Z.of_nat n)))) (Z.of_nat n) "")
                  = XNum.nat_digits (S (Z.to_nat (Z.log2 (Z.of_nat n)))) (Z.of_nat n) "").
  { rewrite Hhead. apply digit_cases in Hd.
    repeat (destruct Hd as [->|Hd]; [reflexivity|]). subst d. reflexivity. }
  rewrite Hdrop.
  assert (Hp : XNum.parse_unsigned
                 (XNum.nat_digits (S (Z.to_nat (Z.log2 (Z.of_nat n)))) (Z.of_nat n) "")
               = Some (inject_Z (Z.of_nat n))).
  { unfold XNum.parse_unsigned. rewrite Hread. cbn [XNum.read_digits].
    destruct k as [|k]; [lia|]. simpl. reflexivity. }
  assert (Hq : XNum.of_Q (inject_Z (Z.of_nat n)) = XNum.of_nat n).
  { apply of_Q_inject. reflexivity. }
  rewrite Hhead in Hp |- *. apply digit_cases in Hd.
  repeat (destruct Hd as [->|Hd];
          [vm_compute (XNum.digit_char _) in Hp |- *; cbv iota; rewrite Hp; exact Hq|]).
  subst d. vm_compute (XNum.digit_char _) in Hp |- *. cbv iota. rewrite Hp. exact Hq.
Qed.

Lemma chars_aux_spec (s : string) :
  (fst (XStr.chars_aux s) ++ join (snd (XStr.chars_aux s)))%string = s
  /\ Forall (fun c => XStr.nonempty c = true) (snd (XStr.chars_aux s)).
Proof.
  induction s as [|a s [IH1 IH2]]; [split; [reflexivity|constructor]|].
  cbn [XStr.chars_aux]. destruct (XStr.chars_aux s) as [pending cs].
  cbn [fst snd] in IH1, IH2.
  destruct (XStr.is_cont a); cbn [fst snd].
  - split; [rewrite <- IH1; reflexivity|exact IH2].
  - split; [rewrite <- IH1; reflexivity|].
    constructor; [reflexivity|exact IH2].
Qed.

Lemma join_chars (s : string) : join (XStr.chars s) = s.
Proof.
  destruct (chars_aux_spec s) as [H _]. unfold XStr.chars.
  destruct (XStr.chars_aux s) as [pending cs]. cbn [fst snd] in H.
  destruct pending; exact H.
Qed.

Lemma chars_nonempty (s : string) : Forall (fun c => XStr.nonempty c = true) (XStr.chars s).
Proof.
  destruct (chars_aux_spec s) as [_ H]. unfold XStr.chars.
  destruct (XStr.chars_aux s) as [pending cs]. cbn [fst snd] in H.
  destruct pending; [exact H|]. constructor; [reflexivity|exact H].
Qed.

Lemma char_at_chars (s : string) :
  map (XStr.char_at s) (seq 1 (XStr.string_length s)) = XStr.chars s.
Proof.
  unfold XStr.string_length, XStr.char_at.
  rewrite <- seq_shift, map_map.
  generalize (XStr.chars s) as l. intros l.
  induction l as [|c l IH]; [reflexivity|].
  cbn [length]. rewrite <- cons_seq, <- seq_shift. cbn [map nth]. rewrite map_map.
  f_equal. exact IH.
Qed.

(** ** Trees that only the default template touches *)

Lemma node_ind_children (P : node -> Prop) :
  (forall s, P (Text s)) ->
  (forall nm a cs, Forall P cs -> P (Element nm a cs)) ->
  forall n, P n.
Proof.
  intros HT HE. fix IH 1. intros [nm a cs|s]; [|apply HT].
  apply HE. induction cs as [|c cs IHcs]; constructor; [apply IH|exact IHcs].
Qed.

Lemma merge_text_separated (l : list node) : separated l = true -> merge_text l = l.
Proof.
  induction l as [|[nm a cs|s] l IH]; intros H; [reflexivity| |].
  - cbn [merge_text]. rewrite IH by exact H. reflexivity.
  - cbn [separated] in H. apply andb_prop in H as [H H3]. apply andb_prop in H as [H1 H2].
    cbn [merge_text]. rewrite IH by exact H3.
    destruct l as [|[nm a cs|t] l]; [| |discriminate H2]; rewrite H1; reflexivity.
Qed.

Lemma merge_text_elements (l : list node) :
  Forall (fun n => is_element n = true) l -> merge_text l = l.
Proof.
  induction 1 as [|[nm a cs|s] l H _ IH]; [reflexivity| |discriminate H].
  cbn [merge_text]. rewrite IH. reflexivity.
Qed.

Lemma elements_merge_text (l : list node) : elements (merge_text l) = elements l.
Proof.
  induction l as [|[nm a cs|s] l IH]; [reflexivity| |].
  - cbn [merge_text]. unfold elements in *. rewrite !filter_cons. cbn [is_element].
    rewrite IH. reflexivity.
  - cbn [merge_text]. unfold elements in *. rewrite filter_cons. cbn [is_element].
    rewrite decide_False by (intros []). rewrite <- IH.
    destruct (merge_text l) as [|[nm a cs|t] r].
    + destruct (XStr.nonempty s); reflexivity.
    + destruct (XStr.nonempty s); [|reflexivity].
      rewrite (filter_cons _ (Text s)). rewrite decide_False by (intros []). reflexivity.
    + rewrite !filter_cons. rewrite !decide_False by (intros []). reflexivity.
Qed.

Lemma transform_all_fixed (md : mode) (cx : context) (l : list node) :
  Forall (fun c => transform md cx c = [c]) l -> transform_all md cx l = l.
Proof.
  unfold transform_all, mconcat.
  induction 1 as [|c l H _ IH]; [reflexivity|].
  cbn [map concat]. rewrite H, IH. reflexivity.
Qed.

Lemma transform_copy (cx : context) (nm : qname) (a : gmap string string)
    (cs : list node) :
  is_elementary nm = false ->
  in_mathml nm && String.eqb (attr a "dir") "rtl" = false ->
  transform Default cx (Element nm a cs)
  = [mk nm a (transform_all Default (push cx nm a) cs)].
Proof.
  intros H1 H2.
  assert (E : select_template (name_of_mode Default) nm a cs = Some T_copy).
  { simpl. rewrite select_default. unfold is_elementary in H1.
    apply orb_false_elim in H1 as [-> ->]. rewrite H2. reflexivity. }
  pose proof (transform_element Default cx nm a cs T_copy E) as H.
  unfold run_template, t_copy in H. over_transform H.
  injection H as <-. reflexivity.
Qed.

Lemma plain_fixed (n : node) :
  parsed n = true -> plain n = true -> forall cx, transform Default cx n = [n].
Proof.
  induction n as [s|nm a cs IH] using node_ind_children; intros Hp Hq cx.
  - reflexivity.
  - cbn [parsed plain] in Hp, Hq.
    apply andb_prop in Hp as [Hs Hp].
    apply andb_prop in Hq as [Hq Hc]. apply andb_prop in Hq as [He Hd].
    apply negb_true_iff in He, Hd.
    rewrite transform_copy by assumption.
    rewrite transform_all_fixed.
    + unfold mk. rewrite merge_text_separated by exact Hs. reflexivity.
    + rewrite forallb_forall in Hp, Hc. rewrite Forall_forall in IH |- *.
      intros c Hin. apply IH; [exact Hin| |].
      * apply Hp. apply list_elem_of_In. exact Hin.
      * apply Hc. apply list_elem_of_In. exact Hin.
Qed.

(** X1: an element in whose tree no element is an [mstack] or an [mlongdiv], no
    MathML element has [dir="rtl"], and the text nodes are as a parser
    leaves them, is left as it is: the transformation of the document made
    of it returns exactly it for every fuel above its measure, and the
    default mode returns it unchanged in every context. *)
Theorem plain_unchanged (n : node) (fuel : nat) :
  is_element n = true -> parsed n = true -> plain n = true ->
  measure Default n < fuel ->
  transform_document fuel [n] = Some [n]
  /\ forall cx, transform Default cx n = [n].
Proof.
  intros He Hp Hq Hf. split.
  - rewrite transform_document_enough.
    + rewrite transform_all_single, plain_fixed by assumption.
      destruct n; [reflexivity|discriminate He].
    + intros c [<-|[]]. exact Hf.
  - apply plain_fixed; assumption.
Qed.

Lemma plain_unchanged_witness :
  (is_element (Element (M "mrow") ∅ [mn_ "1"; mo_ "+"; mn_ "2"]) = true)
  /\ (parsed (Element (M "mrow") ∅ [mn_ "1"; mo_ "+"; mn_ "2"]) = true)
  /\ (plain (Element (M "mrow") ∅ [mn_ "1"; mo_ "+"; mn_ "2"]) = true)
  /\ (measure Default (Element (M "mrow") ∅ [mn_ "1"; mo_ "+"; mn_ "2"]) < 30)
  /\ (transform_document 30 [(Element (M "mrow") ∅ [mn_ "1"; mo_ "+"; mn_ "2"])] = Some
      [(Element (M "mrow") ∅ [mn_ "1"; mo_ "+"; mn_ "2"])]
  /\ forall cx, transform Default cx (Element (M "mrow") ∅ [mn_ "1"; mo_ "+"; mn_ "2"]) =
      [(Element (M "mrow") ∅ [mn_ "1"; mo_ "+"; mn_ "2"])]).
Proof.
  assert (h1 : is_element (Element (M "mrow") ∅ [mn_ "1"; mo_ "+"; mn_ "2"]) = true)
    by reflexivity.
  assert (h2 : parsed (Element (M "mrow") ∅ [mn_ "1"; mo_ "+"; mn_ "2"]) = true)
    by (vm_compute; reflexivity).
  assert (h3 : plain (Element (M "mrow") ∅ [mn_ "1"; mo_ "+"; mn_ "2"]) = true)
    by (vm_compute; reflexivity).
  assert (h4 : measure Default (Element (M "mrow") ∅ [mn_ "1"; mo_ "+"; mn_ "2"]) < 30)
    by (vm_compute; lia).
  exact (conj h1 (conj h2 (conj h3 (conj h4 (plain_unchanged (Element (M "mrow") ∅ [mn_ "1";
      mo_ "+"; mn_ "2"]) 30 h1 h2 h3 h4))))).
Defined.

(** ** The table of a stack *)

Lemma select_some (md : mode_name) (nm : qname) (a : gmap string string) (cs : list node) :
  is_Some (select_template md nm a cs).
Proof.
  unfold select_template.
  assert (H : is_Some (select_rule stylesheet md nm a cs)).
  { destruct md.
    - apply (select_rule_some _ _ _ _ _ (Rule MDefault any_element (-1 # 2) T_copy));
        [unfold stylesheet; simpl; tauto|reflexivity|reflexivity].
    - apply (select_rule_some _ _ _ _ _ (Rule MRtl any_element (-1 # 2) T_rtl_element));
        [unfold stylesheet; simpl; tauto|reflexivity|reflexivity].
    - apply (select_rule_some _ _ _ _ _ (Rule MMstack1 any_element (-1 # 2) T_row_other));
        [unfold stylesheet; simpl; tauto|reflexivity|reflexivity].
    - apply (select_rule_some _ _ _ _ _ (Rule MMsc any_element (-1 # 2) T_carry_other));
        [unfold stylesheet; simpl; tauto|reflexivity|reflexivity]. }
  destruct H as [r ->]. eauto.
Qed.

Lemma mapM_imap_pure {A B : Type} (g : nat * A -> B) (l : list A) :
  mapM (fun ic => Some (g ic)) (imap (fun i c => (i, c)) l)
  = Some (imap (fun i c => g (i, c)) l).
Proof.
  rewrite mapM_pure. f_equal.
  assert (G : forall h : nat -> nat,
             map g (imap (fun i c => (h i, c)) l) = imap (fun i c => g (h i, c)) l).
  { induction l as [|c l IH]; intros h; [reflexivity|].
    cbn [imap map]. f_equal. exact (IH (fun i => h (S i))). }
  exact (G (fun i => i)).
Qed.

Lemma transform_msgroup_gen (cx : context) (nm : qname) (a : gmap string string)
    (cs : list node) (p : XNum.t) :
  select_template MMstack1 nm a cs = Some T_row_msgroup ->
  transform (Mstack1 p) cx (Element nm a cs)
  = concat (imap (fun i c =>
                    transform (Mstack1 (XNum.add (XNum.add p (attr_sum a "position"))
                                                 (XNum.mul (XNum.of_nat i) (attr_sum a "shift"))))
                              (push cx nm a) c)
                 (elements cs)).
Proof.
  intros E.
  pose proof (transform_element (Mstack1 p) cx nm a cs T_row_msgroup E) as H.
  unfold run_template, t_row_msgroup, param_p in H.
  rewrite (mapM_imap_pure
             (fun ic => transform (Mstack1 (XNum.add (XNum.add p (attr_sum a "position"))
                                             (XNum.mul (XNum.of_nat (fst ic))
                                                       (attr_sum a "shift"))))
                                  (push cx nm a) (snd ic))) in H.
  apply (inj Some) in H; rewrite <- H. reflexivity.
Qed.

Lemma ml_element (has_prev : bool) (next : option node) (nm : qname)
    (a : gmap string string) (cs : list node) :
  ml has_prev next (Element nm a cs)
  = match ml_select has_prev next nm a with
    | Some ML_none => [lit "mrow" [] []]
    | Some ML_copy => [mk nm a (ml_list false cs)]
    | Some ML_underlined =>
        [mk (M "mtr") a
            (imap (underlined_cell match next with
                                   | Some s => cells_of s
                                   | None => []
                                   end)
                  (cells_of (Element nm a cs)))]
    | Some ML_first_line => [mk (M "mtr") a (map first_line_cell (cells_of (Element nm a cs)))]
    | Some ML_line => []
    | None => ml_list false cs
    end.
Proof.
  cbn [ml].
  assert (G : forall prev l,
             (fix go (prev : bool) (l : list node) {struct l} : list node :=
                match l with
                | [] => []
                | c :: rest => ml prev (head (elements rest)) c ++ go (prev || is_element c) rest
                end) prev l = ml_list prev l).
  { intros prev l. revert prev. induction l as [|c l IH]; intros prev; [reflexivity|].
    cbn [ml_list]. cbv beta iota. f_equal; try apply IH. }
  rewrite G. reflexivity.
Qed.

Lemma ml_select_mtr (has_prev : bool) (next : option node) (a : gmap string string) :
  ml_select has_prev next (M "mtr") a
  = Some (if String.eqb (attr a "class") "msline"
          then if has_prev then ML_line else ML_first_line
          else if match next with
                  | Some s => is_line s
                  | None => false
                  end
               then ML_underlined else ML_copy).
Proof.
  unfold ml_select, ml_rules, is_line. cbn [select_ml_rule ml_pattern ml_priority].
  change (qname_eqb (M "mtr") (M "mtr")) with true.
  change (qname_eqb (M "mtr") (M "none")) with false.
  destruct (String.eqb (attr a "class") "msline"), has_prev;
    destruct next as [s|]; try destruct (String.eqb (class_of s) "msline"); reflexivity.
Qed.

Lemma elements_cons_element (nm : qname) (a : gmap string string) (cs l : list node) :
  elements (Element nm a cs :: l) = Element nm a cs :: elements l.
Proof. reflexivity. Qed.

Lemma elements_cons_text (s : string) (l : list node) :
  elements (Text s :: l) = elements l.
Proof. reflexivity. Qed.

Lemma elements_app (l k : list node) : elements (l ++ k) = elements l ++ elements k.
Proof. apply filter_app. Qed.

Lemma stack_rows_shape (maxl : string) (tn te : nat) (rows : list node) :
  forall prev, Forall row_shape (stack_rows maxl tn te prev rows).
Proof.
  induction rows as [|r rows IH]; intros prev; [constructor|].
  cbn [stack_rows]. apply Forall_app_2; [|apply IH].
  destruct (_ || _); [|constructor].
  constructor; [left; reflexivity|]. constructor; [|constructor].
  right. unfold stack_row, mk. eauto.
Qed.

Lemma merge_text_Forall (P : node -> Prop) (l : list node) :
  (forall s, P (Text s)) -> Forall P l -> Forall P (merge_text l).
Proof.
  intros HT. induction 1 as [|n l H _ IH]; [constructor|].
  destruct n as [nm a cs|s]; cbn [merge_text]; [constructor; assumption|].
  destruct (merge_text l) as [|[nm a cs|t] r].
  - destruct (XStr.nonempty s); [constructor; [apply HT|constructor]|constructor].
  - destruct (XStr.nonempty s); [constructor; [apply HT|exact IH]|exact IH].
  - inversion IH; subst. constructor; [apply HT|assumption].
Qed.

Lemma table_row_mtr (b : bool) (cells : list node) :
  table_row (Element (M "mtr") (if b then {["class" := "msline"]} else ∅) cells).
Proof. split; [reflexivity|]. destruct b; [right|left]; reflexivity. Qed.

Lemma ml_list_rows (l : list node) :
  Forall row_shape l ->
  forall prev,
    Forall table_row (elements (ml_list prev l))
    /\ Forall (fun r => is_line r = false)
              (if prev then elements (ml_list prev l) else tail (elements (ml_list prev l))).
Proof.
  induction 1 as [|n l H _ IH]; intros prev.
  - split; [constructor|]. destruct prev; constructor.
  - cbn [ml_list]. rewrite elements_app.
    destruct H as [H|(b & cells & ->)].
    + destruct n as [nm a cs|s]; [discriminate H|].
      cbn [ml is_element app]. rewrite orb_false_r. apply IH.
    + cbn [is_element]. rewrite orb_true_r, ml_element, ml_select_mtr.
      destruct (IH true) as [IH1 IH2].
      destruct b.
      * change (String.eqb (attr {["class" := "msline"]} "class") "msline") with true.
        cbv iota. destruct prev.
        -- split; assumption.
        -- unfold mk. cbn [app]. rewrite elements_cons_element. cbn [tail].
           split; [|exact IH2]. constructor; [|exact IH1].
           apply (table_row_mtr true).
      * change (String.eqb (attr ∅ "class") "msline") with false. cbv iota.
        assert (G : forall cells',
                   Forall table_row (elements ([mk (M "mtr") ∅ cells'] ++ ml_list true l))
                   /\ Forall (fun r => is_line r = false)
                             (if prev
                              then elements ([mk (M "mtr") ∅ cells'] ++ ml_list true l)
                              else tail (elements ([mk (M "mtr") ∅ cells'] ++ ml_list true l)))).
        { intros cells'. unfold mk. cbn [app]. rewrite elements_cons_element. cbn [tail].
          split; [constructor; [apply (table_row_mtr false)|exact IH1]|].
          destruct prev; [constructor; [reflexivity|exact IH2]|exact IH2]. }
        rewrite <- !elements_app.
        destruct (match head (elements l) with Some s => is_line s | None => false end);
          apply G.
Qed.

Lemma stack_table_shape (a : gmap string string) (t : list node) :
  exists rows : list node,
    stack_table a t = [Element (M "mtable") (table_attrs a) rows]
    /\ Forall table_row (elements rows)
    /\ Forall (fun r => is_line r = false) (tail (elements rows)).
Proof.
  unfold stack_table.
  set (maxl := max_l _).
  set (tn := list_sum (map count_nodes t)). set (te := list_sum (map count_elements t)).
  unfold mk at 1. rewrite ml_element.
  change (ml_select false None (M "mtable") _) with (Some ML_copy). cbv iota.
  eexists. split; [reflexivity|].
  rewrite elements_merge_text.
  apply (ml_list_rows _ (merge_text_Forall row_shape _ (fun s => or_introl eq_refl)
                           (stack_rows_shape maxl tn te (elements t) None)) false).
Qed.

(** X2: whatever its attributes and children, an [mstack] becomes exactly one
    [mtable] with the two spacings and the [align] attribute of the stack;
    every row element of the table is an [mtr] with no attribute or with
    the class msline only, so that the anchors [l] of the intermediate rows
    are gone, and no row after the first has the class msline. *)
Theorem stack_gives_table (cx : context) (a : gmap string string) (cs : list node) :
  exists rows : list node,
    transform Default cx (Element (M "mstack") a cs)
    = [Element (M "mtable") (table_attrs a) rows]
    /\ Forall table_row (elements rows)
    /\ Forall (fun r => is_line r = false) (tail (elements rows)).
Proof.
  rewrite transform_mstack. apply stack_table_shape.
Qed.

(** ** Rows without lines and carries *)

Lemma ml_select_copy (has_prev : bool) (next : option node) (nm : qname)
    (a : gmap string string) :
  qname_eqb nm (M "none") = false ->
  String.eqb (attr a "class") "msline" = false ->
  match next with
  | Some s => is_line s
  | None => false
  end = false ->
  ml_select has_prev next nm a = Some ML_copy.
Proof.
  intros H1 H2 H3.
  unfold ml_select, ml_rules. cbn [select_ml_rule ml_pattern ml_priority].
  rewrite H1, H2. unfold is_line in H3.
  destruct (qname_eqb nm (M "mtr")), has_prev; destruct next as [s|];
    try rewrite H3; reflexivity.
Qed.

Lemma ml_clean_not_line (n : node) : ml_clean n = true -> is_line n = false.
Proof.
  destruct n as [nm a cs|s]; [|reflexivity].
  cbn [ml_clean]. intros H.
  apply andb_prop in H as [H _]. apply andb_prop in H as [H _].
  apply andb_prop in H as [_ H]. apply negb_true_iff in H. exact H.
Qed.

Lemma head_elements_clean (l : list node) :
  Forall (fun n => ml_clean n = true) l ->
  match head (elements l) with
  | Some s => is_line s
  | None => false
  end = false.
Proof.
  induction 1 as [|n l H _ IH]; [reflexivity|].
  destruct n as [nm a cs|s]; [|exact IH].
  rewrite elements_cons_element. cbn [head]. apply ml_clean_not_line. exact H.
Qed.

Lemma ml_clean_fixed (n : node) :
  ml_clean n = true ->
  forall has_prev next,
    match next with
    | Some s => is_line s
    | None => false
    end = false ->
    ml has_prev next n = [n].
Proof.
  induction n as [s|nm a cs IH] using node_ind_children; intros Hc has_prev next Hn;
    [reflexivity|].
  cbn [ml_clean] in Hc.
  apply andb_prop in Hc as [Hc H4]. apply andb_prop in Hc as [Hc H3].
  apply andb_prop in Hc as [H1 H2]. apply negb_true_iff in H1, H2.
  rewrite ml_element, ml_select_copy by assumption.
  assert (G : forall prev, ml_list prev cs = cs).
  { rewrite forallb_forall in H4.
    assert (H4' : Forall (fun n => ml_clean n = true) cs).
    { apply List.Forall_forall. intros c Hin. apply H4, Hin. }
    clear H3 H4. induction IH as [|c l Hc _ IHl]; intros prev; [reflexivity|].
    inversion H4' as [|? ? Hcc Hl]; subst.
    cbn [ml_list]. rewrite Hc; [|exact Hcc|apply head_elements_clean; exact Hl].
    cbn [app]. f_equal. apply IHl. exact Hl. }
  rewrite G. unfold mk. rewrite merge_text_separated by exact H3. reflexivity.
Qed.

Lemma ml_list_clean (l : list node) :
  Forall (fun n => ml_clean n = true) l -> forall prev, ml_list prev l = l.
Proof.
  induction 1 as [|c l Hc Hl IH]; intros prev; [reflexivity|].
  cbn [ml_list]. rewrite ml_clean_fixed; [|exact Hc|apply head_elements_clean; exact Hl].
  cbn [app]. f_equal. apply IH.
Qed.

Lemma sorts_below_of_nat (x y : nat) :
  sorts_below (XNum.of_nat x) (XNum.of_nat y) = (x <? y)%nat.
Proof.
  unfold XNum.of_nat. rewrite sorts_below_of_Z.
  apply eq_true_iff_eq. rewrite Z.ltb_lt, Nat.ltb_lt. lia.
Qed.

Lemma max_l_anchors (k0 : nat) (ks : list nat) :
  max_l (map (fun k => XNum.to_string (XNum.of_nat k)) (k0 :: ks))
  = XNum.to_string (XNum.of_nat (list_max (k0 :: ks))).
Proof.
  cbn [map max_l].
  assert (G : forall b,
             fold_left (fun best s => if sorts_below (XNum.of_string best) (XNum.of_string s)
                                      then s else best)
                       (map (fun k => XNum.to_string (XNum.of_nat k)) ks)
                       (XNum.to_string (XNum.of_nat b))
             = XNum.to_string (XNum.of_nat (Nat.max b (list_max ks)))).
  { induction ks as [|k ks IH]; intros b.
    - cbn [map fold_left list_max fold_right]. rewrite Nat.max_0_r. reflexivity.
    - cbn [map fold_left]. rewrite !of_string_to_string.
      rewrite sorts_below_of_nat.
      change (list_max (k :: ks)) with (Nat.max k (list_max ks)).
      destruct (Nat.ltb_spec b k).
      + rewrite IH. replace (Nat.max b (Nat.max k (list_max ks)))
          with (Nat.max k (list_max ks)) by lia. reflexivity.
      + rewrite IH. replace (Nat.max b (Nat.max k (list_max ks)))
          with (Nat.max b (list_max ks)) by lia. reflexivity. }
  rewrite G. reflexivity.
Qed.

Lemma separated_elements (l : list node) :
  Forall (fun n => is_element n = true) l -> separated l = true.
Proof.
  induction 1 as [|[nm a cs|s] l H _ IH]; [reflexivity|exact IH|discriminate H].
Qed.

Lemma elements_all (l : list node) :
  Forall (fun n => is_element n = true) l -> elements l = l.
Proof.
  induction 1 as [|[nm a cs|s] l H _ IH]; [reflexivity| |discriminate H].
  rewrite elements_cons_element, IH. reflexivity.
Qed.

Lemma count_elements_cells (l : list node) :
  Forall (fun n => is_element n = true) l ->
  length l <= list_sum (map count_elements l).
Proof.
  induction 1 as [|[nm a cs|s] l H _ IH]; [reflexivity| |discriminate H].
  cbn [map length]. change (count_elements (Element nm a cs))
    with (S (list_sum (map count_elements cs))).
  cbn [list_sum fold_right]. fold (list_sum (map count_elements l)). lia.
Qed.

Lemma good_cells_elements (cells : list node) :
  good_cells cells -> Forall (fun n => is_element n = true) cells.
Proof. intros H. eapply Forall_impl; [exact H|]. intros c [Hc _]. exact Hc. Qed.

Lemma good_cells_clean (cells : list node) :
  good_cells cells -> Forall (fun n => ml_clean n = true) cells.
Proof. intros H. eapply Forall_impl; [exact H|]. intros c [_ Hc]. exact Hc. Qed.

Lemma stack_rows_plain (maxl : string) (tn te : nat) (rs : list (nat * list node)) :
  forall prev,
    match prev with
    | Some q => class_of q = ""
    | None => True
    end ->
    stack_rows maxl tn te prev (map anchored_row rs)
    = concat (map (fun r => [Text newline; stack_row maxl tn te None (anchored_row r)]) rs).
Proof.
  induction rs as [|r rs IH]; intros prev Hp; [reflexivity|].
  cbn [map stack_rows concat].
  change (class_of (anchored_row r)) with "". cbn [String.eqb negb orb].
  rewrite IH by reflexivity.
  destruct prev as [q|]; [rewrite Hp|]; reflexivity.
Qed.

Lemma stack_row_plain (w tn te : nat) (r : nat * list node) :
  good_cells (snd r) -> w - fst r <= te ->
  stack_row (XNum.to_string (XNum.of_nat w)) tn te None (anchored_row r)
  = Element (M "mtr") ∅ (repeat empty_cell (w - fst r) ++ snd r).
Proof.
  intros Hg Hte. unfold stack_row.
  change (class_of (anchored_row r)) with "".
  change (attr (attrs_of (anchored_row r)) "l")
    with (XNum.to_string (XNum.of_nat (fst r))).
  change (children_of (anchored_row r)) with (snd r).
  cbn [String.eqb andb]. cbv iota.
  rewrite !of_string_to_string. unfold XNum.of_nat. rewrite sub_of_Z, positions_upto_of_Z.
  replace (Nat.min (Z.to_nat (Z.of_nat w - Z.of_nat (fst r))) te) with (w - fst r) by lia.
  rewrite elements_all by (apply good_cells_elements; exact Hg).
  unfold mk. rewrite merge_text_elements; [reflexivity|].
  apply Forall_app_2; [|apply good_cells_elements; exact Hg].
  apply List.Forall_forall. intros c Hc. apply repeat_spec in Hc. subst c.
  reflexivity.
Qed.

Lemma list_max_ge (k : nat) (ks : list nat) : In k ks -> k <= list_max ks.
Proof.
  intros H. pose proof (proj1 (list_max_le ks (list_max ks)) (Nat.le_refl _)) as F.
  rewrite List.Forall_forall in F. apply F, H.
Qed.

Lemma list_max_in (k : nat) (ks : list nat) : In (list_max (k :: ks)) (k :: ks).
Proof.
  revert k. induction ks as [|k' ks IH]; intros k.
  - left. cbn. lia.
  - change (list_max (k :: k' :: ks)) with (Nat.max k (list_max (k' :: ks))).
    destruct (Nat.max_spec k (list_max (k' :: ks))) as [[_ ->]|[_ ->]].
    + right. apply IH.
    + left. reflexivity.
Qed.

Lemma stack_table_plain (a : gmap string string) (rs : list (nat * list node)) :
  Forall (fun r => good_cells (snd r) /\ fst r <= length (snd r)) rs ->
  stack_table a (map anchored_row rs)
  = [Element (M "mtable") (table_attrs a)
       (concat (map (padded_row (list_max (map fst rs))) rs))].
Proof.
  intros Hrs. unfold stack_table.
  assert (He : elements (map anchored_row rs) = map anchored_row rs).
  { apply elements_all, List.Forall_forall. intros n Hn.
    apply in_map_iff in Hn as (r & <- & _). reflexivity. }
  rewrite He.
  assert (Hl : omap (fun r => attrs_of r !! "l") (map anchored_row rs)
               = map (fun k => XNum.to_string (XNum.of_nat k)) (map fst rs)).
  { clear. induction rs as [|r rs IH]; [reflexivity|].
    cbn [map omap list_omap]. change (attrs_of (anchored_row r) !! "l")
      with (Some (XNum.to_string (XNum.of_nat (fst r)))).
    cbv iota. f_equal. exact IH. }
  rewrite Hl.
  set (te := list_sum (map count_elements (map anchored_row rs))).
  set (tn := list_sum (map count_nodes (map anchored_row rs))).
  rewrite stack_rows_plain by exact I.
  destruct rs as [|r0 rs]; [reflexivity|].
  set (all := r0 :: rs) in *.
  change (map fst all) with (fst r0 :: map fst rs) at 1.
  rewrite max_l_anchors. change (fst r0 :: map fst rs) with (map fst all).
  set (w := list_max (map fst all)).
  assert (Hw : w <= te).
  { assert (Hin : In w (map fst all)) by apply list_max_in.
    apply in_map_iff in Hin as (r & Er & Hin).
    rewrite List.Forall_forall in Hrs. destruct (Hrs r Hin) as [Hg Hk].
    transitivity (count_elements (anchored_row r)).
    - change (count_elements (anchored_row r))
        with (S (list_sum (map count_elements (snd r)))).
      pose proof (count_elements_cells (snd r) (good_cells_elements _ Hg)). lia.
    - unfold te. clear - Hin. induction all as [|x all IH]; [destruct Hin|].
      cbn [map list_sum fold_right]. fold (list_sum (map count_elements (map anchored_row all))).
      destruct Hin as [->|Hin]; [lia|]. specialize (IH Hin). lia. }
  assert (Hrows : map (fun r => [Text newline;
                                 stack_row (XNum.to_string (XNum.of_nat w)) tn te None
                                           (anchored_row r)]) all
                  = map (padded_row w) all).
  { apply map_ext_in. intros r Hin. unfold padded_row.
    rewrite List.Forall_forall in Hrs. destruct (Hrs r Hin) as [Hg Hk].
    rewrite stack_row_plain; [reflexivity|exact Hg|lia]. }
  rewrite Hrows.
  assert (Hclean : Forall (fun n => ml_clean n = true) (concat (map (padded_row w) all))).
  { apply Forall_concat, List.Forall_forall. intros l Hl'.
    apply in_map_iff in Hl' as (r & <- & Hin).
    rewrite List.Forall_forall in Hrs. destruct (Hrs r Hin) as [Hg Hk].
    constructor; [reflexivity|]. constructor; [|constructor].
    cbn [ml_clean]. change (qname_eqb (M "mtr") (M "none")) with false.
    change (String.eqb (attr ∅ "class") "msline") with false. cbn [negb andb].
    assert (Hcells : good_cells (repeat empty_cell (w - fst r) ++ snd r)).
    { apply Forall_app_2; [|exact Hg].
      apply List.Forall_forall. intros c Hc. apply repeat_spec in Hc. subst c.
      split; reflexivity. }
    rewrite separated_elements by (apply good_cells_elements; exact Hcells).
    apply forallb_forall. intros c Hc.
    pose proof (good_cells_clean _ Hcells) as F. rewrite List.Forall_forall in F.
    apply F, Hc. }
  assert (Hsep : separated (concat (map (padded_row w) all)) = true).
  { generalize w. clear. intros w. induction all as [|r all IH]; [reflexivity|].
    cbn [map concat padded_row app separated].
    change (XStr.nonempty newline) with true. exact IH. }
  unfold mk at 1. rewrite merge_text_separated by exact Hsep.
  rewrite ml_element.
  change (ml_select false None (M "mtable") _) with (Some ML_copy). cbv iota.
  rewrite ml_list_clean by exact Hclean.
  unfold mk. rewrite merge_text_separated by exact Hsep. reflexivity.
Qed.

(** ** Stacks of numbers *)

Lemma append_empty (s : string) : (s ++ "")%string = s.
Proof.
  induction s as [|c s IH]; [reflexivity|].
  change (String c (s ++ "")%string = String c s). rewrite IH. reflexivity.
Qed.

Lemma string_value_mn (s : string) : string_value (mn_ s) = s.
Proof. cbn [mn_ string_value fold_right]. apply append_empty. Qed.

Lemma mn_cell_shape (d : string) :
  XStr.nonempty d = true ->
  mn_cell d
  = Element (M "mtd") ∅
      ((if String.eqb d "." || String.eqb d ","
        then [Element (M "mspace") {["width" := ".15em"]} []] else [])
       ++ [Element (M "mn") ∅ [Text d]]).
Proof.
  intros H. unfold mn_cell, lit, mk.
  destruct (String.eqb d "." || String.eqb d ","); cbn [app merge_text]; rewrite H;
    reflexivity.
Qed.

Lemma good_number_cells (s : string) : good_cells (map mn_cell (digits s)).
Proof.
  unfold good_cells, digits. apply Forall_map.
  eapply Forall_impl; [apply chars_nonempty|].
  intros d Hd. cbv beta in Hd. rewrite mn_cell_shape by exact Hd.
  split; [reflexivity|].
  destruct (String.eqb d "." || String.eqb d ","); cbn; rewrite Hd; reflexivity.
Qed.

Lemma string_value_mn_cell (d : string) : string_value (mn_cell d) = d.
Proof.
  destruct (XStr.nonempty d) eqn:E.
  - rewrite mn_cell_shape by exact E.
    destruct (String.eqb d "." || String.eqb d ","); cbn [app string_value fold_right];
      rewrite ?append_empty; reflexivity.
  - destruct d; [reflexivity|discriminate E].
Qed.

Lemma transform_number (cx : context) (s : string) (p : XNum.t) :
  width s <= doc_nodes cx ->
  transform (Mstack1 p) cx (mn_ s)
  = [Element (M "mtr") {["l" := mn_l cx (XStr.normalize_space s) p]}
       (map mn_cell (digits s))].
Proof.
  intros Hn.
  pose proof (transform_mn cx ∅ [Text s] p) as H. fold (mn_ s) in H.
  apply (inj Some) in H. rewrite <- H. unfold t_row_mn.
  fold (mn_ s). rewrite string_value_mn.
  unfold XNum.of_nat. rewrite positions_upto_of_Z, Nat2Z.id.
  unfold width, digits in Hn. fold (XStr.string_length (XStr.normalize_space s)) in Hn.
  rewrite Nat.min_l by exact Hn.
  rewrite <- map_map, char_at_chars.
  unfold lit, mk. rewrite merge_text_elements; [reflexivity|].
  apply good_cells_elements, good_number_cells.
Qed.

Lemma stack_of_numbers (cx : context) (a : gmap string string) (ss : list string)
    (anchor : string -> nat) :
  Forall (fun s => width s <= doc_nodes cx /\ anchor s <= width s
                   /\ mn_l (push cx (M "mstack") a) (XStr.normalize_space s) (XNum.of_Z 0)
                      = XNum.to_string (XNum.of_nat (anchor s))) ss ->
  transform Default cx (Element (M "mstack") a (map mn_ ss))
  = [Element (M "mtable") (table_attrs a)
       (concat (map (fun s => padded_row (widest anchor ss) (number_row anchor s)) ss))].
Proof.
  intros H. rewrite transform_mstack.
  assert (E : merge_text
                (transform_all (Mstack1 (XNum.of_Z 0)) (push cx (M "mstack") a)
                               (elements (map mn_ ss)))
              = map anchored_row (map (number_row anchor) ss)).
  { rewrite elements_all
      by (apply List.Forall_forall; intros n Hn; apply in_map_iff in Hn as (s & <- & _);
          reflexivity).
    unfold transform_all, mconcat. rewrite !map_map.
    assert (G : map (fun s => transform (Mstack1 (XNum.of_Z 0)) (push cx (M "mstack") a)
                                        (mn_ s)) ss
                = map (fun s => [anchored_row (number_row anchor s)]) ss).
    { apply map_ext_in. intros s Hs. rewrite List.Forall_forall in H.
      destruct (H s Hs) as (Hn & _ & Hl).
      rewrite transform_number by exact Hn. rewrite Hl. reflexivity. }
    rewrite G. clear.
    rewrite merge_text_elements.
    - induction ss as [|s ss IH]; [reflexivity|]. cbn [map concat app]. rewrite IH.
      reflexivity.
    - apply Forall_concat, List.Forall_forall. intros l Hl.
      apply in_map_iff in Hl as (s & <- & _). constructor; [reflexivity|constructor]. }
  rewrite E, stack_table_plain.
  - rewrite !map_map. reflexivity.
  - apply List.Forall_forall. intros r Hr. apply in_map_iff in Hr as (s & <- & Hs).
    rewrite List.Forall_forall in H. destruct (H s Hs) as (_ & Hk & _).
    split; [apply good_number_cells|].
    cbn [number_row fst snd]. rewrite length_map. exact Hk.
Qed.

Lemma stack_align_pushed (cx : context) (a : gmap string string) :
  stack_align (push cx (M "mstack") a)
  = if XStr.nonempty (attr a "stackalign") then attr a "stackalign" else "decimalpoint".
Proof.
  unfold stack_align, ancestor_attr, push. cbn [ancestors].
  rewrite filter_cons, decide_True by reflexivity. reflexivity.
Qed.

(** X3: for an [mstack] with [stackalign="right"] whose children are numbers,
    none with more characters than the document has nodes, the table has
    one row per number, each after a line break, with every character of
    the number in a cell of its own after as many empty cells as the number
    is shorter than the longest one: every row has as many cells as the
    longest number has characters. *)
Theorem right_aligned_numbers (cx : context) (a : gmap string string) (ss : list string) :
  attr a "stackalign" = "right" ->
  Forall (fun s => width s <= doc_nodes cx) ss ->
  exists rows : list node,
    transform Default cx (Element (M "mstack") a (map mn_ ss))
    = [Element (M "mtable") (table_attrs a) rows]
    /\ rows = concat (map (fun s => padded_row (widest width ss) (number_row width s)) ss)
    /\ Forall (fun r => length (children_of r) = widest width ss) (elements rows).
Proof.
  intros Ha Hn. eexists. split; [|split; [reflexivity|]].
  - apply stack_of_numbers.
    apply List.Forall_forall. intros s Hs. rewrite List.Forall_forall in Hn.
    split; [apply Hn, Hs|]. split; [reflexivity|].
    unfold mn_l. rewrite stack_align_pushed, Ha.
    change (XStr.nonempty "right") with true. cbv iota.
    change (String.eqb "right" "right") with true. cbn [orb].
    unfold XNum.of_nat. rewrite add_of_Z. reflexivity.
  - apply Forall_forall. intros r Hr.
    unfold elements in Hr. apply list_elem_of_filter in Hr as [Hr1 Hr2].
    apply list_elem_of_In, in_concat in Hr2 as (l & Hl & Hin).
    apply in_map_iff in Hl as (s & <- & Hs).
    destruct Hin as [<-|[<-|[]]]; [destruct Hr1|].
    cbn [children_of number_row fst snd]. rewrite length_app, repeat_length, length_map.
    fold (width s).
    assert (width s <= widest width ss); [|lia].
    apply list_max_ge, in_map, Hs.
Qed.

Lemma right_aligned_numbers_witness :
  (attr (attrs_of_list [("stackalign", "right")]) "stackalign" = "right")
  /\ (Forall (fun s => width s <= doc_nodes sample_context) ["7"; "1205"])
  /\ (exists rows : list node,
    transform Default sample_context (Element (M "mstack") (attrs_of_list [("stackalign",
        "right")]) (map mn_ ["7"; "1205"]))
    = [Element (M "mtable") (table_attrs (attrs_of_list [("stackalign", "right")])) rows]
    /\ rows = concat (map (fun s => padded_row (widest width ["7"; "1205"]) (number_row
        width s)) ["7"; "1205"])
    /\ Forall (fun r => length (children_of r) = widest width ["7"; "1205"]) (elements
        rows)).
Proof.
  assert (h1 : attr (attrs_of_list [("stackalign", "right")]) "stackalign" = "right")
    by (vm_compute; reflexivity).
  assert (h2 : Forall (fun s => width s <= doc_nodes sample_context) ["7"; "1205"])
    by (repeat (constructor; [apply Nat.leb_le; reflexivity|]); constructor).
  exact (conj h1 (conj h2 (right_aligned_numbers sample_context (attrs_of_list
      [("stackalign", "right")]) ["7"; "1205"] h1 h2))).
Defined.

Lemma string_length_cons (c : ascii) (s : string) :
  XStr.string_length (String c s) = S (lead s).
Proof.
  unfold XStr.string_length, XStr.chars, lead. cbn [XStr.chars_aux].
  destruct (XStr.chars_aux s) as [pending cs]. destruct (XStr.is_cont c); reflexivity.
Qed.

Lemma lead_cons (c : ascii) (s : string) :
  lead (String c s) = if XStr.is_cont c then lead s else S (lead s).
Proof.
  unfold lead. cbn [XStr.chars_aux].
  destruct (XStr.chars_aux s) as [pending cs]. destruct (XStr.is_cont c); reflexivity.
Qed.

Lemma lead_prefix (u v : string) : lead u <= lead (u ++ v).
Proof.
  induction u as [|c u IH]; [unfold lead at 1; simpl; lia|].
  change (String c u ++ v)%string with (String c (u ++ v)). rewrite !lead_cons.
  destruct (XStr.is_cont c); lia.
Qed.

Lemma string_length_prefix (u v : string) :
  XStr.string_length u <= XStr.string_length (u ++ v).
Proof.
  destruct u as [|c u]; [unfold XStr.string_length at 1; simpl; lia|].
  change (String c u ++ v)%string with (String c (u ++ v)). rewrite !string_length_cons.
  pose proof (lead_prefix u v). lia.
Qed.

Lemma substring_before_prefix (s t : string) :
  exists v, s = (XStr.substring_before s t ++ v)%string.
Proof.
  induction s as [|c s [v IH]].
  - exists "". cbn [XStr.substring_before]. destruct (XStr.is_prefix t ""); reflexivity.
  - cbn [XStr.substring_before]. destruct (XStr.is_prefix t (String c s)); [eauto|].
    destruct (XStr.contains s t); [|eauto].
    exists v. change (String c s = String c (XStr.substring_before s t ++ v)).
    rewrite <- IH. reflexivity.
Qed.

Lemma integer_width_le (dp s : string) : integer_width dp s <= width s.
Proof.
  unfold integer_width, width, digits. fold (XStr.string_length (XStr.normalize_space s)).
  destruct (XStr.contains _ dp); [|lia].
  destruct (substring_before_prefix (XStr.normalize_space s) dp) as [v E].
  rewrite E at 2. apply string_length_prefix.
Qed.

(** X4: for an [mstack] whose rows see the alignment decimalpoint and whose
    children are numbers, none with more characters than the document has
    nodes, the row of a number is its characters, one per cell, after as
    many empty cells as its integer part (the characters before the decimal
    separator, all of them when it has none) is shorter than the longest
    integer part of the stack: the separators stand in one column. *)
Theorem decimal_aligned_numbers (cx : context) (a : gmap string string) (ss : list string) :
  stack_align (push cx (M "mstack") a) = "decimalpoint" ->
  Forall (fun s => width s <= doc_nodes cx) ss ->
  transform Default cx (Element (M "mstack") a (map mn_ ss))
  = [Element (M "mtable") (table_attrs a)
       (concat (map (fun s =>
                       padded_row
                         (widest (integer_width (decimal_point (push cx (M "mstack") a))) ss)
                         (number_row
                            (integer_width (decimal_point (push cx (M "mstack") a))) s))
                    ss))].
Proof.
  intros Ha Hn. apply stack_of_numbers.
  apply List.Forall_forall. intros s Hs. rewrite List.Forall_forall in Hn.
  split; [apply Hn, Hs|]. split; [apply integer_width_le|].
  unfold mn_l, integer_width. rewrite Ha.
  change (String.eqb "decimalpoint" "right") with false.
  change (String.eqb "decimalpoint" "center") with false.
  change (String.eqb "decimalpoint" "decimalpoint") with true.
  cbn [orb andb].
  destruct (XStr.contains _ _); cbn [negb]; cbv iota;
    unfold XNum.of_nat; rewrite add_of_Z; reflexivity.
Qed.

Lemma decimal_aligned_numbers_witness :
  (stack_align (push sample_context (M "mstack") ∅) = "decimalpoint")
  /\ (Forall (fun s => width s <= doc_nodes sample_context) ["1.5"; "12.25"])
  /\ (transform Default sample_context (Element (M "mstack") ∅ (map mn_ ["1.5"; "12.25"]))
  = [Element (M "mtable") (table_attrs ∅)
       (concat (map (fun s =>
                       padded_row
                         (widest (integer_width (decimal_point (push sample_context (M
                             "mstack") ∅))) ["1.5"; "12.25"])
                         (number_row
                            (integer_width (decimal_point (push sample_context (M "mstack")
                                ∅))) s))
                    ["1.5"; "12.25"]))]).
Proof.
  assert (h1 : stack_align (push sample_context (M "mstack") ∅) = "decimalpoint")
    by (vm_compute; reflexivity).
  assert (h2 : Forall (fun s => width s <= doc_nodes sample_context) ["1.5"; "12.25"])
    by (repeat (constructor; [apply Nat.leb_le; reflexivity|]); constructor).
  exact (conj h1 (conj h2 (decimal_aligned_numbers sample_context ∅ ["1.5"; "12.25"] h1
      h2))).
Defined.

Lemma join_values_cells (l : list string) : join (map string_value (map mn_cell l)) = join l.
Proof.
  induction l as [|d l IH]; [reflexivity|].
  cbn [map join]. rewrite string_value_mn_cell, IH. reflexivity.
Qed.

(** X5: in mode [mstack1] an [mn] becomes one [mtr] that carries only the anchor
    [l]; the number of its cells is the smaller of the number of characters
    of the normalized text of the [mn] and the number of nodes of the
    document, and when the text is not longer than the document has nodes,
    the texts of the cells, put together in order, are that text. *)
Theorem number_cells (cx : context) (a : gmap string string) (cs : list node) (p : XNum.t) :
  exists (l : string) (cells : list node),
    transform (Mstack1 p) cx (Element (M "mn") a cs) = [Element (M "mtr") {["l" := l]} cells]
    /\ length cells
       = Nat.min (XStr.string_length
                    (XStr.normalize_space (string_value (Element (M "mn") a cs))))
                 (doc_nodes cx)
    /\ (XStr.string_length (XStr.normalize_space (string_value (Element (M "mn") a cs)))
        <= doc_nodes cx ->
        join (map string_value cells)
        = XStr.normalize_space (string_value (Element (M "mn") a cs))).
Proof.
  pose proof (transform_mn cx a cs p) as H.
  apply (inj Some) in H. rewrite <- H. unfold t_row_mn.
  set (mn := XStr.normalize_space _).
  unfold XNum.of_nat. rewrite positions_upto_of_Z, Nat2Z.id.
  unfold lit, mk.
  assert (He : forall n, merge_text (map (fun pos => mn_cell (XStr.char_at mn pos)) (seq 1 n))
                         = map (fun pos => mn_cell (XStr.char_at mn pos)) (seq 1 n)).
  { intros n. apply merge_text_elements, List.Forall_forall. intros c Hc.
    apply in_map_iff in Hc as (pos & <- & _). reflexivity. }
  rewrite He. eexists _, _. split; [reflexivity|]. split.
  - rewrite length_map, length_seq. reflexivity.
  - intros Hn. rewrite Nat.min_l by exact Hn.
    rewrite <- (map_map (XStr.char_at mn) mn_cell), char_at_chars, join_values_cells.
    apply join_chars.
Qed.

(** ** Long division *)

Lemma copy_decimalpoint_delete (cx : context) (a : gmap string string) (k : string) :
  k <> "decimalpoint" ->
  copy_decimalpoint cx (delete k a) ∅ = copy_decimalpoint cx a ∅.
Proof.
  intros Hk. unfold copy_decimalpoint. rewrite !filter_cons.
  assert (E : delete k a !! "decimalpoint" = a !! "decimalpoint")
    by (apply lookup_delete_ne; exact Hk).
  assert (H : has_attr (delete k a) "decimalpoint" = has_attr a "decimalpoint")
    by (unfold has_attr; rewrite E; reflexivity).
  rewrite H. destruct (has_attr a "decimalpoint").
  - rewrite !decide_True by exact I. unfold copy_attr. rewrite E. reflexivity.
  - rewrite !decide_False by (intros []). reflexivity.
Qed.

Lemma known_style_rows (style : string) (d q dd : list node) :
  known_style style = false -> longdiv_rows style d q dd = longdiv_rows "" d q dd.
Proof.
  unfold known_style. cbn [existsb]. intros H.
  repeat (apply orb_false_elim in H as [? H]).
  unfold longdiv_rows, is_stacked.
  repeat match goal with
    | E : String.eqb style _ = false |- _ => rewrite E; clear E
    end.
  reflexivity.
Qed.

Lemma known_style_stacked (style : string) : known_style style = false -> is_stacked style = false.
Proof.
  unfold known_style. cbn [existsb]. intros H.
  repeat (apply orb_false_elim in H as [? H]).
  unfold is_stacked.
  repeat match goal with
    | E : String.eqb style _ = false |- _ => rewrite E; clear E
    end.
  reflexivity.
Qed.

Lemma longdiv_result_plain (style : string) (d q stack : list node) :
  is_stacked style = false -> longdiv_result style d q stack = stack.
Proof.
  unfold is_stacked, longdiv_result. intros H.
  repeat (apply orb_false_elim in H as [H ?]).
  repeat match goal with
    | E : String.eqb style _ = false |- _ => rewrite E; clear E
    end.
  reflexivity.
Qed.

(** X6: an [mlongdiv] whose [longdivstyle] is none of the nine values that the
    template tests is laid out exactly as the same [mlongdiv] without the
    attribute.  The value written with a slash and a backslash is among
    them, as the test of the stylesheet compares with [style_slashes]. *)
Theorem unknown_style_default (cx : context) (a : gmap string string) (cs : list node) :
  known_style (attr a "longdivstyle") = false ->
  transform Default cx (Element (M "mlongdiv") a cs)
  = transform Default cx (Element (M "mlongdiv") (delete "longdivstyle" a) cs).
Proof.
  intros H. rewrite !transform_mlongdiv.
  assert (E : attr (delete "longdivstyle" a) "longdivstyle" = "").
  { unfold attr. rewrite lookup_delete_eq. reflexivity. }
  assert (S : longdiv_stack cx (delete "longdivstyle" a) cs = longdiv_stack cx a cs).
  { unfold longdiv_stack. rewrite E, copy_decimalpoint_delete by discriminate.
    rewrite (known_style_rows _ _ _ _ H), (known_style_stacked _ H). reflexivity. }
  rewrite S, E.
  rewrite (longdiv_result_plain _ _ _ _ (known_style_stacked _ H)).
  reflexivity.
Qed.

Lemma unknown_style_default_witness :
  (known_style (attr (attrs_of_list [("longdivstyle", "left/\right")]) "longdivstyle") =
      false)
  /\ (transform Default sample_context (Element (M "mlongdiv") (attrs_of_list
      [("longdivstyle", "left/\right")]) [mn_ "3"; mn_ "12"; mn_ "36"])
  = transform Default sample_context (Element (M "mlongdiv") (delete "longdivstyle"
      (attrs_of_list [("longdivstyle", "left/\right")])) [mn_ "3"; mn_ "12"; mn_ "36"])).
Proof.
  assert (h1 : known_style (attr (attrs_of_list [("longdivstyle", "left/\right")])
      "longdivstyle") = false)
    by (vm_compute; reflexivity).
  exact (conj h1 (unknown_style_default sample_context (attrs_of_list [("longdivstyle",
      "left/\right")]) [mn_ "3"; mn_ "12"; mn_ "36"] h1)).
Defined.

Lemma copy_decimalpoint_keys (cx : context) (a : gmap string string) (k : string) :
  k <> "decimalpoint" -> copy_decimalpoint cx a ∅ !! k = None.
Proof.
  intros Hk. unfold copy_decimalpoint, copy_attr.
  destruct (filter _ _) as [|e l]; [reflexivity|].
  destruct (e !! "decimalpoint"); [|reflexivity].
  rewrite lookup_insert_ne by congruence. reflexivity.
Qed.

(** X7: whatever its style and children, the stack that an [mlongdiv] is turned
    into comes out as one [mtable] with the two spacings, and [align="top"]
    in the four stacked styles, whose row elements are [mtr] with no
    attribute or with the class msline only; in the stacked styles the
    table is set beside the divisor and the quotient, in every other style
    it is the whole result. *)
Theorem longdiv_gives_table (cx : context) (a : gmap string string) (cs : list node) :
  exists rows : list node,
    Forall table_row (elements rows)
    /\ transform Default cx (Element (M "mlongdiv") a cs)
       = longdiv_result (attr a "longdivstyle") (nth_element cs 1) (nth_element cs 2)
           [Element (M "mtable")
              (if is_stacked (attr a "longdivstyle")
               then <["align" := "top"]>
                      (attrs_of_list [("columnspacing", "0em"); ("rowspacing", "0em")])
               else attrs_of_list [("columnspacing", "0em"); ("rowspacing", "0em")])
              rows]
    /\ (is_stacked (attr a "longdivstyle") = false ->
        transform Default cx (Element (M "mlongdiv") a cs)
        = [Element (M "mtable")
             (attrs_of_list [("columnspacing", "0em"); ("rowspacing", "0em")]) rows]).
Proof.
  rewrite transform_mlongdiv.
  assert (Hms : exists kids,
             longdiv_stack cx a cs
             = Element (M "mstack")
                 (if is_stacked (attr a "longdivstyle")
                  then <["align" := "top"]> (copy_decimalpoint cx a ∅)
                  else copy_decimalpoint cx a ∅) kids)
    by (unfold longdiv_stack, mk; eauto).
  destruct Hms as [kids ->]. rewrite transform_mstack.
  match goal with
  | |- context [stack_table ?msa ?t] =>
      destruct (stack_table_shape msa t) as (rows & E & Hrows & _)
  end.
  exists rows. split; [exact Hrows|]. rewrite E.
  assert (Ha : table_attrs (if is_stacked (attr a "longdivstyle")
                            then <["align" := "top"]> (copy_decimalpoint cx a ∅)
                            else copy_decimalpoint cx a ∅)
               = if is_stacked (attr a "longdivstyle")
                 then <["align" := "top"]>
                        (attrs_of_list [("columnspacing", "0em"); ("rowspacing", "0em")])
                 else attrs_of_list [("columnspacing", "0em"); ("rowspacing", "0em")]).
  { unfold table_attrs, copy_attr. destruct (is_stacked _).
    - rewrite lookup_insert_eq. reflexivity.
    - rewrite copy_decimalpoint_keys by discriminate. reflexivity. }
  rewrite Ha. split; [reflexivity|].
  intros Hs. rewrite Hs. apply longdiv_result_plain, Hs.
Qed.

Lemma nearest_attr_pushed (cx : context) (nm : qname) (a : gmap string string) (k : string) :
  nearest_attr (push cx nm a) k
  = if has_attr a k then attr a k else nearest_attr cx k.
Proof.
  unfold nearest_attr, push. cbn [ancestors]. rewrite filter_cons. cbn [snd].
  destruct (has_attr a k).
  - rewrite decide_True by exact I. reflexivity.
  - rewrite decide_False by (intros []). reflexivity.
Qed.

Lemma copy_attr_value (e : gmap string string) (k : string) :
  has_attr e k = true ->
  has_attr (copy_attr e k ∅) k = true /\ attr (copy_attr e k ∅) k = attr e k.
Proof.
  unfold has_attr, copy_attr, attr. intros H. apply bool_decide_eq_true in H as [v Hv].
  rewrite Hv, lookup_insert_eq. split; [|reflexivity].
  apply bool_decide_eq_true. eauto.
Qed.

Lemma copied_decimalpoint (l : list (qname * gmap string string)) :
  let r := match filter (fun e => has_attr e "decimalpoint") (map snd l) with
           | e :: _ => copy_attr e "decimalpoint" ∅
           | [] => ∅
           end in
  (if has_attr r "decimalpoint" then attr r "decimalpoint" else "")
  = match filter (fun e => has_attr (snd e) "decimalpoint") l with
    | (_, a') :: _ => attr a' "decimalpoint"
    | [] => ""
    end.
Proof.
  induction l as [|[nm e] l IH]; [reflexivity|].
  cbn [map snd]. rewrite !filter_cons. cbn [snd].
  destruct (has_attr e "decimalpoint") eqn:He.
  - rewrite !decide_True by exact I. cbv zeta.
    destruct (copy_attr_value e "decimalpoint" He) as [-> ->]. reflexivity.
  - rewrite !decide_False by (intros []). exact IH.
Qed.

(** X8: the rows of the intermediate stack of a long division see the decimal
    separator that the children of the [mlongdiv] see, and they are aligned
    at the decimal point: no [stackalign] attribute of the [mlongdiv] or of
    an ancestor reaches them. *)
Theorem longdiv_decimal_point (cx : context) (a : gmap string string) (cs : list node) :
  decimal_point (push (longdiv_context cx a cs) (M "mstack")
                      (attrs_of (longdiv_stack cx a cs)))
  = decimal_point (push cx (M "mlongdiv") a)
  /\ stack_align (push (longdiv_context cx a cs) (M "mstack")
                       (attrs_of (longdiv_stack cx a cs)))
     = "decimalpoint".
Proof.
  unfold longdiv_stack, mk. cbn [attrs_of].
  set (base := copy_decimalpoint cx a ∅).
  set (msa := if is_stacked _ then _ else _).
  assert (E : forall k, k <> "align" -> msa !! k = base !! k).
  { intros k Hk. unfold msa. destruct (is_stacked _); [|reflexivity].
    apply lookup_insert_ne. congruence. }
  split.
  - assert (N : nearest_attr (push (longdiv_context cx a cs) (M "mstack") msa) "decimalpoint"
                = nearest_attr (push cx (M "mlongdiv") a) "decimalpoint").
    { rewrite !nearest_attr_pushed. unfold has_attr, attr. rewrite E by discriminate.
      fold (has_attr base "decimalpoint"). fold (attr base "decimalpoint").
      fold (has_attr a "decimalpoint"). fold (attr a "decimalpoint").
      change (nearest_attr (longdiv_context cx a cs) "decimalpoint") with "".
      unfold base, copy_decimalpoint. rewrite filter_cons.
      destruct (has_attr a "decimalpoint") eqn:Ha.
      - rewrite decide_True by exact I.
        destruct (copy_attr_value a "decimalpoint" Ha) as [-> ->]. reflexivity.
      - rewrite decide_False by (intros []).
        apply (copied_decimalpoint (ancestors cx)). }
    unfold decimal_point. rewrite N. reflexivity.
  - rewrite stack_align_pushed. unfold attr. rewrite E by discriminate.
    unfold base. rewrite copy_decimalpoint_keys by discriminate. reflexivity.
Qed.

(** ** Mode rtl: attributes and the generic template *)

Lemma rtl_attrs_ltr (base a : gmap string string) (k v : string) :
  a !! k = Some v -> plain_attr k v = true -> rtl_attrs base a !! "dir" = Some "ltr".
Proof.
  intros Ha Hp.
  rewrite <- (insert_delete_id a k v Ha).
  rewrite rtl_attrs_insert by apply lookup_delete_eq.
  rewrite rtl_attr_cases. unfold plain_attr in Hp.
  apply andb_prop in Hp as [Hp H3]. apply andb_prop in Hp as [H1 H2].
  apply negb_true_iff in H1, H2, H3. rewrite H1, H2, H3.
  unfold add_attrs. cbn [fold_left fst snd]. apply lookup_insert_eq.
Qed.

Lemma mirror_root_dir (cx : context) (nm : qname) (a : gmap string string) (cs : list node) :
  a !! "dir" = Some "rtl" ->
  exists nm' a' cs',
    transform Rtl cx (Element nm a cs) = [Element nm' a' cs']
    /\ (a' !! "dir" = Some "ltr" \/ a' !! "dir" = None).
Proof.
  intros Ha.
  destruct (select_some MRtl nm a cs) as [t E].
  pose proof (select_template_mode _ _ _ _ _ E) as Hm.
  pose proof (transform_element Rtl cx nm a cs t E) as H.
  destruct t; try discriminate Hm; unfold run_template in H;
    unfold t_rtl_element, t_rtl_mfrac_bevelled, t_rtl_mfrac, t_rtl_mroot, t_rtl_msqrt,
      t_rtl_container, t_rtl_msup, t_rtl_msub, t_rtl_msubsup, t_rtl_mmultiscripts,
      t_rtl_mmultiscripts_post, t_rtl_elementary, t_rtl_madruwb in H;
    over_transform H; apply (inj Some) in H; rewrite <- H; unfold lit, mk;
    eexists _, _, _; (split; [reflexivity|]);
    first [ left; apply (rtl_attrs_ltr _ a "dir" "rtl" Ha); reflexivity
          | right; reflexivity
          | left; reflexivity ].
Qed.

(** X9: a MathML element with [dir="rtl"] other than [mstack] and [mlongdiv] is
    transformed in the default mode exactly as mode [rtl] transforms it,
    into one element, and that element has [dir="ltr"] or no [dir]
    attribute: [dir="rtl"] is never left on it. *)
Theorem rtl_mark_removed (cx : context) (nm : qname) (a : gmap string string)
    (cs : list node) :
  in_mathml nm = true -> a !! "dir" = Some "rtl" -> is_elementary nm = false ->
  exists nm' a' cs',
    transform Default cx (Element nm a cs) = [Element nm' a' cs']
    /\ transform Default cx (Element nm a cs) = mirror cx (Element nm a cs)
    /\ (a' !! "dir" = Some "ltr" \/ a' !! "dir" = None).
Proof.
  intros Hn Ha He.
  assert (E : select_template (name_of_mode Default) nm a cs = Some T_enter_rtl).
  { simpl. rewrite select_default. unfold is_elementary in He.
    apply orb_false_elim in He as [-> ->]. unfold attr. rewrite Hn, Ha. reflexivity. }
  pose proof (transform_element Default cx nm a cs T_enter_rtl E) as H.
  unfold run_template, t_enter_rtl in H. apply (inj Some) in H.
  destruct (mirror_root_dir cx nm a cs Ha) as (nm' & a' & cs' & Hr & Hd).
  exists nm', a', cs'. rewrite <- H. unfold mirror. auto.
Qed.

Lemma rtl_mark_removed_witness :
  (in_mathml (M "mrow") = true)
  /\ ((attrs_of_list [("dir", "rtl")]) !! "dir" = Some "rtl")
  /\ (is_elementary (M "mrow") = false)
  /\ (exists nm' a' cs',
    transform Default sample_context (Element (M "mrow") (attrs_of_list [("dir", "rtl")])
        [mn_ "1"; mo_ "+"; mn_ "2"]) = [Element nm' a' cs']
    /\ transform Default sample_context (Element (M "mrow") (attrs_of_list [("dir", "rtl")])
        [mn_ "1"; mo_ "+"; mn_ "2"]) = mirror sample_context (Element (M "mrow")
        (attrs_of_list [("dir", "rtl")]) [mn_ "1"; mo_ "+"; mn_ "2"])
    /\ (a' !! "dir" = Some "ltr" \/ a' !! "dir" = None)).
Proof.
  assert (h1 : in_mathml (M "mrow") = true)
    by (vm_compute; reflexivity).
  assert (h2 : (attrs_of_list [("dir", "rtl")]) !! "dir" = Some "rtl")
    by (vm_compute; reflexivity).
  assert (h3 : is_elementary (M "mrow") = false)
    by (vm_compute; reflexivity).
  exact (conj h1 (conj h2 (conj h3 (rtl_mark_removed sample_context (M "mrow")
      (attrs_of_list [("dir", "rtl")]) [mn_ "1"; mo_ "+"; mn_ "2"] h1 h2 h3)))).
Defined.

Lemma elements_rev (l : list node) : elements (rev l) = rev (elements l).
Proof.
  induction l as [|c l IH]; [reflexivity|].
  cbn [rev]. rewrite elements_app, IH.
  destruct c as [nm a cs|s]; [rewrite elements_cons_element|rewrite elements_cons_text].
  - reflexivity.
  - change (elements [Text s]) with (@nil node). rewrite app_nil_r. reflexivity.
Qed.

Lemma elements_spaced (cx : context) (l : list node) :
  elements (concat (map (fun k => Text " " :: k) (map (transform Rtl cx) l)))
  = transform_all Rtl cx (elements l).
Proof.
  unfold transform_all, mconcat.
  induction l as [|c l IH]; [reflexivity|].
  cbn [map concat]. rewrite elements_app, IH, elements_cons_text.
  destruct c as [nm a cs|s].
  - rewrite elements_cons_element. cbn [map concat]. f_equal.
    destruct (mirror_element cx nm a cs) as (nm' & a' & cs' & ->). reflexivity.
  - rewrite elements_cons_text, transform_text. reflexivity.
Qed.

(** X10: an element that falls to the generic template of mode [rtl] keeps its
    name and gets its attributes mirrored, and the elements among its new
    children are the results of mirroring its child elements taken from the
    last to the first. *)
Theorem generic_reverses (cx : context) (nm : qname) (a : gmap string string)
    (cs : list node) :
  select_template MRtl nm a cs = Some T_rtl_element ->
  exists kids : list node,
    mirror cx (Element nm a cs) = [Element nm (rtl_attrs ∅ a) kids]
    /\ elements kids = transform_all Rtl (push cx nm a) (rev (elements cs)).
Proof.
  intros E.
  pose proof (transform_element Rtl cx nm a cs T_rtl_element E) as H.
  unfold run_template, t_rtl_element in H. over_transform H.
  apply (inj Some) in H. unfold mirror. rewrite <- H. unfold mk.
  eexists. split; [reflexivity|].
  rewrite elements_merge_text, elements_spaced, elements_rev. reflexivity.
Qed.

Lemma generic_reverses_witness :
  (select_template MRtl (M "mrow") ∅ [mn_ "1"; Text " "; mo_ "+"; mn_ "2"] = Some
      T_rtl_element)
  /\ (exists kids : list node,
    mirror sample_context (Element (M "mrow") ∅ [mn_ "1"; Text " "; mo_ "+"; mn_ "2"]) =
        [Element (M "mrow") (rtl_attrs ∅ ∅) kids]
    /\ elements kids = transform_all Rtl (push sample_context (M "mrow") ∅) (rev (elements
        [mn_ "1"; Text " "; mo_ "+"; mn_ "2"]))).
Proof.
  assert (h1 : select_template MRtl (M "mrow") ∅ [mn_ "1"; Text " "; mo_ "+"; mn_ "2"] =
      Some T_rtl_element)
    by (vm_compute; reflexivity).
  exact (conj h1 (generic_reverses sample_context (M "mrow") ∅ [mn_ "1"; Text " "; mo_ "+";
      mn_ "2"] h1)).
Defined.

Lemma mirror_all_elements (cx : context) (l : list node) :
  Forall (fun n => is_element n = true) l ->
  Forall (fun n => is_element n = true) (transform_all Rtl cx l).
Proof.
  unfold transform_all, mconcat. intros H. apply Forall_concat, List.Forall_forall.
  intros r Hr. apply in_map_iff in Hr as (c & <- & Hc).
  rewrite List.Forall_forall in H. specialize (H c Hc).
  destruct c as [nm a cs|s]; [|discriminate H].
  destruct (mirror_element cx nm a cs) as (nm' & a' & cs' & ->).
  constructor; [reflexivity|constructor].
Qed.

Lemma nth_element_elements (cs : list node) (i : nat) :
  Forall (fun n => is_element n = true) (nth_element cs i).
Proof.
  destruct i as [|k]; [constructor|]. unfold nth_element.
  destruct (nth_error (elements cs) k) as [n|] eqn:E; [|constructor].
  constructor; [|constructor].
  apply (elements_is_element cs). eapply nth_error_In. exact E.
Qed.

Lemma lit_elements (local : string) (a : list (string * string)) (l : list node) :
  Forall (fun n => is_element n = true) l ->
  lit local a l = Element (M local) (attrs_of_list a) l.
Proof. intros H. unfold lit, mk. rewrite merge_text_elements by exact H. reflexivity. Qed.

Lemma nth_element_1 (cs : list node) (x : node) (rest : list node) :
  elements cs = x :: rest -> nth_element cs 1 = [x].
Proof. intros E. unfold nth_element. rewrite E. reflexivity. Qed.

Lemma nth_element_2 (cs : list node) (x y : node) (rest : list node) :
  elements cs = x :: y :: rest -> nth_element cs 2 = [y].
Proof. intros E. unfold nth_element. rewrite E. reflexivity. Qed.

(** X11: in mode [rtl] an [msub] with at least two child elements becomes an
    [mmultiscripts] without attributes that holds the mirrored base,
    [mprescripts], the mirrored subscript and [none]; an [msubsup] becomes
    one that holds the mirrored base, [mprescripts], the mirrored subscript
    and the mirrored third child, if there is one.  Further children and
    the attributes of the element are dropped. *)
Theorem mirror_msub_msubsup (cx : context) (a : gmap string string) (cs : list node)
    (base sub : node) (rest : list node) :
  elements cs = base :: sub :: rest ->
  mirror cx (Element (M "msub") a cs)
  = [Element (M "mmultiscripts") ∅
       (mirror (push cx (M "msub") a) base
        ++ [Element (M "mprescripts") ∅ []]
        ++ mirror (push cx (M "msub") a) sub
        ++ [Element (M "none") ∅ []])]
  /\ mirror cx (Element (M "msubsup") a cs)
     = [Element (M "mmultiscripts") ∅
          (mirror (push cx (M "msubsup") a) base
           ++ [Element (M "mprescripts") ∅ []]
           ++ mirror (push cx (M "msubsup") a) sub
           ++ transform_all Rtl (push cx (M "msubsup") a) (firstn 1 rest))].
Proof.
  intros Hcs. unfold mirror.
  assert (H3 : nth_element cs 3 = firstn 1 rest).
  { unfold nth_element. rewrite Hcs. destruct rest; reflexivity. }
  split.
  - assert (E : select_template (name_of_mode Rtl) (M "msub") a cs = Some T_rtl_msub)
      by reflexivity.
    pose proof (transform_element Rtl cx (M "msub") a cs _ E) as H.
    unfold run_template, t_rtl_msub in H. over_transform H.
    apply (inj Some) in H. rewrite <- H.
    rewrite lit_elements.
    + rewrite (nth_element_1 _ _ _ Hcs), (nth_element_2 _ _ _ _ Hcs),
        !transform_all_single. reflexivity.
    + repeat apply Forall_app_2; try (apply mirror_all_elements, nth_element_elements).
      all: repeat constructor.
  - assert (E : select_template (name_of_mode Rtl) (M "msubsup") a cs = Some T_rtl_msubsup)
      by reflexivity.
    pose proof (transform_element Rtl cx (M "msubsup") a cs _ E) as H.
    unfold run_template, t_rtl_msubsup in H. over_transform H.
    apply (inj Some) in H. rewrite <- H.
    rewrite lit_elements.
    + rewrite (nth_element_1 _ _ _ Hcs), (nth_element_2 _ _ _ _ Hcs), H3,
        !transform_all_single. reflexivity.
    + repeat apply Forall_app_2; try (apply mirror_all_elements, nth_element_elements).
      all: repeat constructor.
Qed.

Lemma mirror_msub_msubsup_witness :
  (elements [mo_ "x"; mn_ "1"; mn_ "2"] = (mo_ "x") :: (mn_ "1") :: [mn_ "2"])
  /\ (mirror sample_context (Element (M "msub") ∅ [mo_ "x"; mn_ "1"; mn_ "2"])
  = [Element (M "mmultiscripts") ∅
       (mirror (push sample_context (M "msub") ∅) (mo_ "x")
        ++ [Element (M "mprescripts") ∅ []]
        ++ mirror (push sample_context (M "msub") ∅) (mn_ "1")
        ++ [Element (M "none") ∅ []])]
  /\ mirror sample_context (Element (M "msubsup") ∅ [mo_ "x"; mn_ "1"; mn_ "2"])
     = [Element (M "mmultiscripts") ∅
          (mirror (push sample_context (M "msubsup") ∅) (mo_ "x")
           ++ [Element (M "mprescripts") ∅ []]
           ++ mirror (push sample_context (M "msubsup") ∅) (mn_ "1")
           ++ transform_all Rtl (push sample_context (M "msubsup") ∅) (firstn 1 [mn_
               "2"]))]).
Proof.
  assert (h1 : elements [mo_ "x"; mn_ "1"; mn_ "2"] = (mo_ "x") :: (mn_ "1") :: [mn_ "2"])
    by (vm_compute; reflexivity).
  exact (conj h1 (mirror_msub_msubsup sample_context ∅ [mo_ "x"; mn_ "1"; mn_ "2"] (mo_ "x")
      (mn_ "1") [mn_ "2"] h1)).
Defined.

(** ** Mode rtl: mmultiscripts *)

Lemma filter_none (P : nat -> bool) (l : list nat) :
  (forall x, In x l -> P x = false) -> filter (fun x => P x) l = [].
Proof.
  induction l as [|x l IH]; intros H; [reflexivity|].
  rewrite filter_cons, (H x (or_introl eq_refl)).
  rewrite decide_False by (intros []). apply IH. intros y Hy. apply H. right. exact Hy.
Qed.

Lemma filter_stride (P : nat -> bool) (k : nat) :
  forall s,
    (forall m, m < k -> P (s + 2 * m) = true /\ P (S (s + 2 * m)) = false) ->
    filter (fun x => P x) (seq s (2 * k)) = map (fun m => s + 2 * m) (seq 0 k).
Proof.
  induction k as [|k IH]; intros s H; [reflexivity|].
  replace (2 * S k) with (S (S (2 * k))) by lia.
  rewrite <- !cons_seq, !filter_cons.
  destruct (H 0) as [H1 H2]; [lia|].
  rewrite Nat.mul_0_r, Nat.add_0_r in H1, H2. rewrite H1, H2.
  rewrite decide_True by exact I. rewrite decide_False by (intros []).
  rewrite IH.
  - cbn [map]. rewrite Nat.mul_0_r, Nat.add_0_r. f_equal.
    rewrite <- seq_shift, map_map. apply map_ext. intros m. lia.
  - intros m Hm. destruct (H (S m)) as [G1 G2]; [lia|].
    replace (S (S s) + 2 * m) with (s + 2 * S m) by lia. split; assumption.
Qed.

Lemma length_flat (ps : list (node * node)) : length (flat ps) = 2 * length ps.
Proof.
  unfold flat. induction ps as [|p ps IH]; [reflexivity|].
  cbn [map concat length app]. rewrite IH. lia.
Qed.

Lemma pairs_at (ps : list (node * node)) :
  forall (front back : list node),
    map (pair_at (front ++ flat ps ++ back))
        (map (fun m => length front + 2 * m) (seq 0 (length ps)))
    = map (fun p => [fst p; snd p]) ps.
Proof.
  induction ps as [|[x y] ps IH]; intros front back; [reflexivity|].
  cbn [length]. rewrite <- cons_seq. cbn [map fst snd]. f_equal.
  - unfold pair_at. rewrite Nat.mul_0_r, Nat.add_0_r.
    rewrite skipn_app, skipn_all, Nat.sub_diag. reflexivity.
  - specialize (IH (front ++ [x; y]) back). rewrite <- IH.
    replace (front ++ flat ((x, y) :: ps) ++ back)
      with ((front ++ [x; y]) ++ flat ps ++ back)
      by (rewrite <- app_assoc; reflexivity).
    f_equal. rewrite <- seq_shift, map_map. apply map_ext. intros m.
    rewrite length_app. cbn [length]. lia.
Qed.

Lemma transform_all_concat (md : mode) (cx : context) (ls : list (list node)) :
  concat (map (transform_all md cx) ls) = transform_all md cx (concat ls).
Proof.
  unfold transform_all, mconcat. induction ls as [|l ls IH]; [reflexivity|].
  cbn [map concat]. rewrite map_app, concat_app, IH. reflexivity.
Qed.

Lemma pairs_reversed (cx : context) (es : list node) (sel : list nat)
    (ps : list (node * node)) :
  map (pair_at es) sel = map (fun p => [fst p; snd p]) ps ->
  mconcat (map (fun j => mconcat (map (transform Rtl cx) (pair_at es j))) (rev sel))
  = transform_all Rtl cx (flat (rev ps)).
Proof.
  intros H. unfold flat. rewrite <- transform_all_concat, map_map.
  rewrite map_rev, <- (map_map (pair_at es) (fun l => mconcat (map (transform Rtl cx) l))).
  rewrite H, map_map, <- map_rev. reflexivity.
Qed.

Lemma select_mmultiscripts (a : gmap string string) (cs : list node) :
  select_template MRtl (M "mmultiscripts") a cs
  = Some (if existsb (has_name (M "mprescripts")) cs
          then T_rtl_mmultiscripts else T_rtl_mmultiscripts_post).
Proof.
  unfold select_template, stylesheet.
  cbn [select_rule r_mode r_pattern r_priority mode_name_eqb andb].
  destruct (existsb (has_name (M "mprescripts")) cs); reflexivity.
Qed.

Lemma existsb_elements (f : node -> bool) (cs : list node) :
  (forall s, f (Text s) = false) -> existsb f cs = existsb f (elements cs).
Proof.
  intros Hf. induction cs as [|[nm a l|s] cs IH]; [reflexivity| |].
  - rewrite elements_cons_element. cbn [existsb]. rewrite IH. reflexivity.
  - rewrite elements_cons_text. cbn [existsb]. rewrite Hf, IH. reflexivity.
Qed.

(** X12: in mode [rtl] an [mmultiscripts] without [mprescripts] whose child
    elements are a base and pairs of scripts becomes an [mmultiscripts]
    without attributes that holds the mirrored base, [mprescripts], and
    then the mirrored pairs from the last pair to the first, each pair in
    its own order: the postscripts become prescripts. *)
Theorem mirror_postscripts (cx : context) (a : gmap string string) (cs : list node)
    (base : node) (ps : list (node * node)) :
  elements cs = base :: flat ps ->
  existsb (has_name (M "mprescripts")) cs = false ->
  mirror cx (Element (M "mmultiscripts") a cs)
  = [Element (M "mmultiscripts") ∅
       (mirror (push cx (M "mmultiscripts") a) base
        ++ [Element (M "mprescripts") ∅ []]
        ++ transform_all Rtl (push cx (M "mmultiscripts") a) (flat (rev ps)))].
Proof.
  intros Hcs Hp. unfold mirror.
  assert (E : select_template (name_of_mode Rtl) (M "mmultiscripts") a cs
              = Some T_rtl_mmultiscripts_post)
    by (simpl; rewrite select_mmultiscripts, Hp; reflexivity).
  pose proof (transform_element Rtl cx (M "mmultiscripts") a cs _ E) as H.
  unfold run_template, t_rtl_mmultiscripts_post in H. over_transform H.
  apply (inj Some) in H. rewrite <- H.
  assert (Hsel : map (pair_at (elements cs)) (even_positions (elements cs))
                 = map (fun p => [fst p; snd p]) ps).
  { unfold even_positions. rewrite Hcs. cbn [length]. rewrite length_flat.
    rewrite <- cons_seq, filter_cons. cbn [Nat.odd]. rewrite decide_False by (intros []).
    rewrite (filter_stride Nat.odd).
    - replace (base :: flat ps) with ([base] ++ flat ps ++ [])
        by (rewrite app_nil_r; reflexivity).
      rewrite <- (pairs_at ps [base] []). reflexivity.
    - intros m _. split.
      + rewrite Nat.odd_add_mul_2. reflexivity.
      + rewrite Nat.odd_succ, Nat.even_add_mul_2. reflexivity. }
  rewrite (pairs_reversed _ _ _ _ Hsel).
  rewrite (nth_element_1 _ _ _ Hcs), transform_all_single.
  f_equal. apply lit_elements.
  assert (Hall : Forall (fun n => is_element n = true) (elements cs)).
  { apply List.Forall_forall. intros c. apply elements_is_element. }
  rewrite Hcs in Hall. inversion Hall as [|? ? Hb Hps]; subst.
  apply Forall_app_2; [|apply Forall_app_2].
  - rewrite <- transform_all_single. apply mirror_all_elements. repeat constructor. exact Hb.
  - repeat constructor.
  - apply mirror_all_elements. unfold flat in *.
    apply Forall_concat, List.Forall_forall. intros l Hl.
    apply in_map_iff in Hl as ([x y] & <- & Hin). apply in_rev in Hin.
    rewrite List.Forall_forall in Hps.
    repeat constructor; apply Hps, in_concat; exists [x; y]; (split; [|simpl; tauto]);
      apply in_map_iff; exists (x, y); auto.
Qed.

Lemma mirror_postscripts_witness :
  (elements [mo_ "x"; mn_ "1"; mn_ "2"; mn_ "3"; mn_ "4"] = (mo_ "x") :: flat [(mn_ "1", mn_
      "2"); (mn_ "3", mn_ "4")])
  /\ (existsb (has_name (M "mprescripts")) [mo_ "x"; mn_ "1"; mn_ "2"; mn_ "3"; mn_ "4"] =
      false)
  /\ (mirror sample_context (Element (M "mmultiscripts") ∅ [mo_ "x"; mn_ "1"; mn_ "2"; mn_
      "3"; mn_ "4"])
  = [Element (M "mmultiscripts") ∅
       (mirror (push sample_context (M "mmultiscripts") ∅) (mo_ "x")
        ++ [Element (M "mprescripts") ∅ []]
        ++ transform_all Rtl (push sample_context (M "mmultiscripts") ∅) (flat (rev [(mn_
            "1", mn_ "2"); (mn_ "3", mn_ "4")])))]).
Proof.
  assert (h1 : elements [mo_ "x"; mn_ "1"; mn_ "2"; mn_ "3"; mn_ "4"] = (mo_ "x") :: flat
      [(mn_ "1", mn_ "2"); (mn_ "3", mn_ "4")])
    by (vm_compute; reflexivity).
  assert (h2 : existsb (has_name (M "mprescripts")) [mo_ "x"; mn_ "1"; mn_ "2"; mn_ "3"; mn_
      "4"] = false)
    by (vm_compute; reflexivity).
  exact (conj h1 (conj h2 (mirror_postscripts sample_context ∅ [mo_ "x"; mn_ "1"; mn_ "2";
      mn_ "3"; mn_ "4"] (mo_ "x") [(mn_ "1", mn_ "2"); (mn_ "3", mn_ "4")] h1 h2))).
Defined.

Lemma filter_ext_bool (P Q : nat -> bool) (l : list nat) :
  (forall x, P x = Q x) -> filter (fun x => P x) l = filter (fun x => Q x) l.
Proof.
  intros H. apply list_filter_iff. intros x. rewrite H. reflexivity.
Qed.

Lemma existsb_at (f g : nat -> bool) (i0 n : nat) :
  i0 < n -> (forall i, f i = (i =? i0)%nat && g i) ->
  existsb f (seq 0 n) = g i0.
Proof.
  intros Hn Hf. apply eq_true_iff_eq. rewrite existsb_exists. split.
  - intros (x & _ & Hx). rewrite Hf in Hx. apply andb_prop in Hx as [H1 H2].
    apply Nat.eqb_eq in H1. subst x. exact H2.
  - intros H. exists i0. split; [apply in_seq; lia|].
    rewrite Hf, Nat.eqb_refl, H. reflexivity.
Qed.

Lemma prescripts_at (base pre : node) (posts pres : list (node * node)) :
  has_name (M "mprescripts") pre = true ->
  existsb (has_name (M "mprescripts")) (base :: flat posts ++ flat pres) = false ->
  forall i,
    is_prescripts (base :: flat posts ++ pre :: flat pres) i
    = (i =? S (2 * length posts))%nat.
Proof.
  intros Hpre Hno i.
  assert (Hall : forall c, In c (base :: flat posts ++ flat pres) ->
                           has_name (M "mprescripts") c = false).
  { intros c Hc. destruct (has_name (M "mprescripts") c) eqn:E; [|reflexivity].
    rewrite <- Hno. symmetry. apply existsb_exists. eauto. }
  unfold is_prescripts.
  change (base :: flat posts ++ pre :: flat pres)
    with ((base :: flat posts) ++ pre :: flat pres).
  assert (Hlen : length (base :: flat posts) = S (2 * length posts))
    by (cbn [length]; rewrite length_flat; reflexivity).
  destruct (Nat.lt_trichotomy i (S (2 * length posts))) as [Hi|[Hi|Hi]].
  - rewrite nth_error_app1 by lia.
    destruct (nth_error (base :: flat posts) i) as [c|] eqn:E.
    + rewrite (proj2 (Nat.eqb_neq _ _)) by lia.
      apply Hall. apply nth_error_In in E. rewrite app_comm_cons.
      apply in_or_app. left. exact E.
    + symmetry. apply Nat.eqb_neq. lia.
  - rewrite nth_error_app2 by lia. rewrite Hlen, Hi, Nat.sub_diag, Nat.eqb_refl.
    exact Hpre.
  - rewrite nth_error_app2 by lia. rewrite Hlen.
    rewrite (proj2 (Nat.eqb_neq _ _)) by lia.
    destruct (i - S (2 * length posts)) as [|k] eqn:Ek; [lia|]. cbn [nth_error].
    destruct (nth_error (flat pres) k) as [c|] eqn:E; [|reflexivity].
    apply Hall. apply nth_error_In in E. rewrite app_comm_cons.
    apply in_or_app. right. exact E.
Qed.

(** X13: in mode [rtl] an [mmultiscripts] whose child elements are a base, pairs
    of postscripts, one [mprescripts] and pairs of prescripts becomes an
    [mmultiscripts] without attributes that holds the mirrored base, the
    mirrored prescript pairs from the last to the first, [mprescripts], and
    the mirrored postscript pairs from the last to the first: prescripts
    and postscripts change sides. *)
Theorem mirror_prescripts (cx : context) (a : gmap string string) (cs : list node)
    (base pre : node) (posts pres : list (node * node)) :
  elements cs = base :: flat posts ++ pre :: flat pres ->
  has_name (M "mprescripts") pre = true ->
  existsb (has_name (M "mprescripts")) (base :: flat posts ++ flat pres) = false ->
  mirror cx (Element (M "mmultiscripts") a cs)
  = [Element (M "mmultiscripts") ∅
       (mirror (push cx (M "mmultiscripts") a) base
        ++ transform_all Rtl (push cx (M "mmultiscripts") a) (flat (rev pres))
        ++ [Element (M "mprescripts") ∅ []]
        ++ transform_all Rtl (push cx (M "mmultiscripts") a) (flat (rev posts)))].
Proof.
  intros Hcs Hpre Hno. unfold mirror.
  assert (Hp : existsb (has_name (M "mprescripts")) cs = true).
  { rewrite existsb_elements by reflexivity. rewrite Hcs.
    apply existsb_exists. exists pre. split; [|exact Hpre].
    right. apply in_or_app. right. left. reflexivity. }
  assert (E : select_template (name_of_mode Rtl) (M "mmultiscripts") a cs
              = Some T_rtl_mmultiscripts)
    by (simpl; rewrite select_mmultiscripts, Hp; reflexivity).
  pose proof (transform_element Rtl cx (M "mmultiscripts") a cs _ E) as H.
  unfold run_template, t_rtl_mmultiscripts in H. over_transform H.
  apply (inj Some) in H. rewrite <- H. clear H E.
  set (es := elements cs) in *.
  set (i0 := S (2 * length posts)).
  assert (Hlen : length es = i0 + 1 + 2 * length pres).
  { rewrite Hcs. cbn [length]. rewrite length_app. cbn [length].
    rewrite !length_flat. unfold i0. lia. }
  assert (Hat : forall i, is_prescripts es i = (i =? i0)%nat).
  { rewrite Hcs. apply prescripts_at; assumption. }
  assert (Hafter : map (pair_at es) (after_prescripts es)
                   = map (fun p => [fst p; snd p]) pres).
  { unfold after_prescripts.
    rewrite (filter_ext_bool _ (fun j => (i0 <? j)%nat && Nat.odd (j - i0))).
    2:{ intros j.
        apply (existsb_at _ (fun i => (i <? j)%nat && Nat.odd (j - i)) i0); [lia|].
        intros i. rewrite Hat, <- andb_assoc. reflexivity. }
    rewrite Hlen, seq_app, filter_app.
    rewrite (filter_none (fun j => (i0 <? j)%nat && Nat.odd (j - i0)) (seq 0 (i0 + 1))).
    2:{ intros j Hj. apply in_seq in Hj.
        rewrite (proj2 (Nat.ltb_ge _ _)) by lia. reflexivity. }
    cbn [app]. rewrite (filter_stride (fun j => (i0 <? j)%nat && Nat.odd (j - i0))).
    2:{ intros m _. rewrite !(proj2 (Nat.ltb_lt _ _)) by lia. cbn [andb]. split.
        - replace (0 + (i0 + 1) + 2 * m - i0) with (1 + 2 * m) by lia.
          rewrite Nat.odd_add_mul_2. reflexivity.
        - replace (S (0 + (i0 + 1) + 2 * m) - i0) with (2 + 2 * m) by lia.
          rewrite Nat.odd_add_mul_2. reflexivity. }
    rewrite Hcs.
    replace (base :: flat posts ++ pre :: flat pres)
      with ((base :: flat posts ++ [pre]) ++ flat pres ++ [])
      by (rewrite app_nil_r, app_comm_cons, <- app_assoc; reflexivity).
    rewrite <- (pairs_at pres (base :: flat posts ++ [pre]) []).
    f_equal. apply map_ext. intros m. cbn [length]. rewrite length_app, length_flat.
    cbn [length]. unfold i0. lia. }
  assert (Hbefore : map (pair_at es) (before_prescripts es)
                    = map (fun p => [fst p; snd p]) posts).
  { unfold before_prescripts.
    rewrite (filter_ext_bool _ (fun j => (0 <? j)%nat && (j <? i0)%nat && Nat.even (i0 - j))).
    2:{ intros j.
        apply (existsb_at _ (fun i => (0 <? j)%nat && (j <? i)%nat && Nat.even (i - j))
                          i0); [lia|].
        intros i. rewrite Hat, <- !andb_assoc. reflexivity. }
    rewrite Hlen. replace (i0 + 1 + 2 * length pres)
      with (1 + (2 * length posts + (1 + 2 * length pres))) by (unfold i0; lia).
    rewrite (seq_app 1 _ 0), (seq_app (2 * length posts) _ (0 + 1)), !filter_app.
    rewrite (filter_none (fun j => (0 <? j)%nat && (j <? i0)%nat && Nat.even (i0 - j))
                         (seq 0 1))
      by (intros j [<-|[]]; reflexivity).
    rewrite (filter_none (fun j => (0 <? j)%nat && (j <? i0)%nat && Nat.even (i0 - j))
                         (seq (0 + 1 + 2 * length posts) (1 + 2 * length pres))).
    2:{ intros j Hj. apply in_seq in Hj.
        rewrite (proj2 (Nat.ltb_ge j i0)) by (unfold i0; lia).
        rewrite andb_false_r. reflexivity. }
    rewrite app_nil_r. cbn [app].
    rewrite (filter_stride (fun j => (0 <? j)%nat && (j <? i0)%nat && Nat.even (i0 - j))).
    2:{ intros m Hm. split.
        - rewrite (proj2 (Nat.ltb_lt 0 _)) by lia.
          rewrite (proj2 (Nat.ltb_lt _ i0)) by (unfold i0; lia). cbn [andb].
          replace (i0 - (0 + 1 + 2 * m)) with (0 + 2 * (length posts - m))
            by (unfold i0; lia).
          rewrite Nat.even_add_mul_2. reflexivity.
        - replace (i0 - S (0 + 1 + 2 * m)) with (1 + 2 * (length posts - m - 1))
            by (unfold i0; lia).
          rewrite Nat.even_add_mul_2, andb_false_r. reflexivity. }
    rewrite Hcs.
    change (base :: flat posts ++ pre :: flat pres)
      with ([base] ++ flat posts ++ pre :: flat pres).
    rewrite <- (pairs_at posts [base] (pre :: flat pres)). reflexivity. }
  rewrite (pairs_reversed _ _ _ _ Hafter), (pairs_reversed _ _ _ _ Hbefore).
  rewrite (nth_element_1 _ _ _ Hcs), transform_all_single.
  f_equal. apply lit_elements.
  assert (Hall : Forall (fun n => is_element n = true) es).
  { apply List.Forall_forall. intros c. apply elements_is_element. }
  assert (Hflat : forall ps, (forall c, In c (flat ps) -> is_element c = true) ->
                             Forall (fun n => is_element n = true) (flat (rev ps))).
  { intros ps Hps. apply List.Forall_forall. intros c Hc. apply Hps.
    unfold flat in *. apply in_concat in Hc as (l & Hl & Hc).
    apply in_map_iff in Hl as (p & <- & Hp'). apply in_rev in Hp'.
    apply in_concat. exists [fst p; snd p]. split; [|exact Hc].
    apply in_map_iff. eauto. }
  rewrite Hcs in Hall. rewrite List.Forall_forall in Hall.
  repeat apply Forall_app_2.
  - rewrite <- transform_all_single. apply mirror_all_elements.
    constructor; [|constructor]. apply Hall. left. reflexivity.
  - apply mirror_all_elements, Hflat. intros c Hc. apply Hall. right.
    apply in_or_app. right. right. exact Hc.
  - repeat constructor.
  - apply mirror_all_elements, Hflat. intros c Hc. apply Hall. right.
    apply in_or_app. left. exact Hc.
Qed.

Lemma mirror_prescripts_witness :
  (elements [mo_ "x"; mn_ "1"; mn_ "2"; Element (M "mprescripts") ∅ []; mn_ "3"; mn_ "4"] =
      (mo_ "x") :: flat [(mn_ "1", mn_ "2")] ++ (Element (M "mprescripts") ∅ []) :: flat
      [(mn_ "3", mn_ "4")])
  /\ (has_name (M "mprescripts") (Element (M "mprescripts") ∅ []) = true)
  /\ (existsb (has_name (M "mprescripts")) ((mo_ "x") :: flat [(mn_ "1", mn_ "2")] ++ flat
      [(mn_ "3", mn_ "4")]) = false)
  /\ (mirror sample_context (Element (M "mmultiscripts") ∅ [mo_ "x"; mn_ "1"; mn_ "2";
      Element (M "mprescripts") ∅ []; mn_ "3"; mn_ "4"])
  = [Element (M "mmultiscripts") ∅
       (mirror (push sample_context (M "mmultiscripts") ∅) (mo_ "x")
        ++ transform_all Rtl (push sample_context (M "mmultiscripts") ∅) (flat (rev [(mn_
            "3", mn_ "4")]))
        ++ [Element (M "mprescripts") ∅ []]
        ++ transform_all Rtl (push sample_context (M "mmultiscripts") ∅) (flat (rev [(mn_
            "1", mn_ "2")])))]).
Proof.
  assert (h1 : elements [mo_ "x"; mn_ "1"; mn_ "2"; Element (M "mprescripts") ∅ []; mn_ "3";
      mn_ "4"] = (mo_ "x") :: flat [(mn_ "1", mn_ "2")] ++ (Element (M "mprescripts") ∅ [])
      :: flat [(mn_ "3", mn_ "4")])
    by (vm_compute; reflexivity).
  assert (h2 : has_name (M "mprescripts") (Element (M "mprescripts") ∅ []) = true)
    by (vm_compute; reflexivity).
  assert (h3 : existsb (has_name (M "mprescripts")) ((mo_ "x") :: flat [(mn_ "1", mn_ "2")]
      ++ flat [(mn_ "3", mn_ "4")]) = false)
    by (vm_compute; reflexivity).
  exact (conj h1 (conj h2 (conj h3 (mirror_prescripts sample_context ∅ [mo_ "x"; mn_ "1";
      mn_ "2"; Element (M "mprescripts") ∅ []; mn_ "3"; mn_ "4"] (mo_ "x") (Element (M
      "mprescripts") ∅ []) [(mn_ "1", mn_ "2")] [(mn_ "3", mn_ "4")] h1 h2 h3)))).
Defined.

(** ** Mode rtl: roots, fractions and containers *)

(** X14: in mode [rtl] an [msqrt] with a child element becomes an [menclose] with
    the notation top right and the mirrored attributes of the [msqrt], that
    holds the mirrored first child element only, the other children being
    dropped; an [mroot] becomes an [msup] without attributes that holds
    that [menclose] of its first child element and the mirrored second
    child element, if there is one. *)
Theorem mirror_roots (cx : context) (a : gmap string string) (cs : list node)
    (radicand : node) (rest : list node) :
  elements cs = radicand :: rest ->
  mirror cx (Element (M "msqrt") a cs)
  = [Element (M "menclose") (rtl_attrs {["notation" := "top right"]} a)
       (mirror (push cx (M "msqrt") a) radicand)]
  /\ mirror cx (Element (M "mroot") a cs)
     = [Element (M "msup") ∅
          (Element (M "menclose") (rtl_attrs {["notation" := "top right"]} a)
                   (mirror (push cx (M "mroot") a) radicand)
           :: transform_all Rtl (push cx (M "mroot") a) (firstn 1 rest))].
Proof.
  intros Hcs. unfold mirror.
  assert (Hr : is_element radicand = true).
  { apply (elements_is_element cs). rewrite Hcs. left. reflexivity. }
  assert (H2 : nth_element cs 2 = firstn 1 rest).
  { unfold nth_element. rewrite Hcs. destruct rest; reflexivity. }
  assert (Hm : forall cx', merge_text (transform Rtl cx' radicand) = transform Rtl cx' radicand).
  { intros cx'. apply merge_text_elements. rewrite <- transform_all_single.
    apply mirror_all_elements. constructor; [exact Hr|constructor]. }
  split.
  - assert (E : select_template (name_of_mode Rtl) (M "msqrt") a cs = Some T_rtl_msqrt)
      by reflexivity.
    pose proof (transform_element Rtl cx (M "msqrt") a cs _ E) as H.
    unfold run_template, t_rtl_msqrt in H. over_transform H.
    apply (inj Some) in H. rewrite <- H.
    rewrite (nth_element_1 _ _ _ Hcs), transform_all_single. unfold mk. rewrite Hm.
    reflexivity.
  - assert (E : select_template (name_of_mode Rtl) (M "mroot") a cs = Some T_rtl_mroot)
      by reflexivity.
    pose proof (transform_element Rtl cx (M "mroot") a cs _ E) as H.
    unfold run_template, t_rtl_mroot in H. over_transform H.
    apply (inj Some) in H. rewrite <- H.
    rewrite (nth_element_1 _ _ _ Hcs), H2, transform_all_single.
    rewrite lit_elements.
    + unfold mk. rewrite Hm. reflexivity.
    + constructor; [reflexivity|].
      apply mirror_all_elements. rewrite <- H2. apply nth_element_elements.
Qed.

Lemma mirror_roots_witness :
  (elements [mn_ "2"; mn_ "3"] = (mn_ "2") :: [mn_ "3"])
  /\ (mirror sample_context (Element (M "msqrt") ∅ [mn_ "2"; mn_ "3"])
  = [Element (M "menclose") (rtl_attrs {["notation" := "top right"]} ∅)
       (mirror (push sample_context (M "msqrt") ∅) (mn_ "2"))]
  /\ mirror sample_context (Element (M "mroot") ∅ [mn_ "2"; mn_ "3"])
     = [Element (M "msup") ∅
          (Element (M "menclose") (rtl_attrs {["notation" := "top right"]} ∅)
                   (mirror (push sample_context (M "mroot") ∅) (mn_ "2"))
           :: transform_all Rtl (push sample_context (M "mroot") ∅) (firstn 1 [mn_ "3"]))]).
Proof.
  assert (h1 : elements [mn_ "2"; mn_ "3"] = (mn_ "2") :: [mn_ "3"])
    by (vm_compute; reflexivity).
  exact (conj h1 (mirror_roots sample_context ∅ [mn_ "2"; mn_ "3"] (mn_ "2") [mn_ "3"] h1)).
Defined.

Lemma select_mfrac (a : gmap string string) (cs : list node) :
  select_template MRtl (M "mfrac") a cs
  = Some (if String.eqb (attr a "bevelled") "true" then T_rtl_mfrac_bevelled
          else T_rtl_mfrac).
Proof.
  unfold select_template, select_rule, stylesheet, named, named_with, one_of.
  cbn -[attr].
  destruct (String.eqb (attr a "bevelled") "true"); reflexivity.
Qed.

(** X15: in mode [rtl] an [mfrac] with at least two child elements keeps
    numerator and denominator in their order: it is copied with mirrored
    attributes and its child elements mirrored in document order.  When it
    is bevelled it becomes instead an [mrow] without attributes that holds
    an [msub] of an empty [mi] and the mirrored denominator, an [mo] with a
    backslash, and an [msup] of an empty [mi] and the mirrored numerator. *)
Theorem mirror_fraction (cx : context) (a : gmap string string) (cs : list node)
    (num den : node) (rest : list node) :
  elements cs = num :: den :: rest ->
  mirror cx (Element (M "mfrac") a cs)
  = if String.eqb (attr a "bevelled") "true"
    then [Element (M "mrow") ∅
            [Element (M "msub") ∅
               (Element (M "mi") ∅ [] :: mirror (push cx (M "mfrac") a) den);
             Element (M "mo") ∅ [Text "\"];
             Element (M "msup") ∅
               (Element (M "mi") ∅ [] :: mirror (push cx (M "mfrac") a) num)]]
    else [Element (M "mfrac") (rtl_attrs ∅ a)
            (transform_all Rtl (push cx (M "mfrac") a) (num :: den :: rest))].
Proof.
  intros Hcs. unfold mirror.
  assert (Hall : Forall (fun n => is_element n = true) (elements cs)).
  { apply List.Forall_forall. intros c. apply elements_is_element. }
  pose proof (select_mfrac a cs) as E.
  destruct (String.eqb (attr a "bevelled") "true").
  - pose proof (transform_element Rtl cx (M "mfrac") a cs _ E) as H.
    unfold run_template, t_rtl_mfrac_bevelled in H. over_transform H.
    apply (inj Some) in H. rewrite <- H.
    rewrite (nth_element_1 _ _ _ Hcs), (nth_element_2 _ _ _ _ Hcs), !transform_all_single.
    rewrite Hcs in Hall. inversion Hall as [|? ? Hn Hl]; subst.
    inversion Hl as [|? ? Hd _]; subst.
    assert (G : forall c, is_element c = true ->
                          merge_text (transform Rtl (push cx (M "mfrac") a) c)
                          = transform Rtl (push cx (M "mfrac") a) c).
    { intros c Hc. apply merge_text_elements.
      rewrite <- transform_all_single. apply mirror_all_elements.
      constructor; [exact Hc|constructor]. }
    unfold lit, mk. cbn [merge_text]. rewrite !G by assumption. reflexivity.
  - pose proof (transform_element Rtl cx (M "mfrac") a cs _ E) as H.
    unfold run_template, t_rtl_mfrac in H. over_transform H.
    apply (inj Some) in H. rewrite <- H. rewrite Hcs. unfold mk.
    rewrite merge_text_elements; [reflexivity|].
    apply mirror_all_elements. rewrite <- Hcs. exact Hall.
Qed.

Lemma mirror_fraction_witness :
  (elements [mn_ "1"; mn_ "2"] = (mn_ "1") :: (mn_ "2") :: [])
  /\ (mirror sample_context (Element (M "mfrac") (attrs_of_list [("bevelled", "true")]) [mn_
      "1"; mn_ "2"])
  = if String.eqb (attr (attrs_of_list [("bevelled", "true")]) "bevelled") "true"
    then [Element (M "mrow") ∅
            [Element (M "msub") ∅
               (Element (M "mi") ∅ [] :: mirror (push sample_context (M "mfrac")
                   (attrs_of_list [("bevelled", "true")])) (mn_ "2"));
             Element (M "mo") ∅ [Text "\"];
             Element (M "msup") ∅
               (Element (M "mi") ∅ [] :: mirror (push sample_context (M "mfrac")
                   (attrs_of_list [("bevelled", "true")])) (mn_ "1"))]]
    else [Element (M "mfrac") (rtl_attrs ∅ (attrs_of_list [("bevelled", "true")]))
            (transform_all Rtl (push sample_context (M "mfrac") (attrs_of_list [("bevelled",
                "true")])) ((mn_ "1") :: (mn_ "2") :: []))]).
Proof.
  assert (h1 : elements [mn_ "1"; mn_ "2"] = (mn_ "1") :: (mn_ "2") :: [])
    by (vm_compute; reflexivity).
  exact (conj h1 (mirror_fraction sample_context (attrs_of_list [("bevelled", "true")]) [mn_
      "1"; mn_ "2"] (mn_ "1") (mn_ "2") [] h1)).
Defined.

(** X16: in mode [rtl] an [mtable], [munder], [mover] or [munderover] is not
    reversed: it is copied with its attributes mirrored and all its
    children, text included, mirrored in document order. *)
Theorem mirror_containers (cx : context) (local : string) (a : gmap string string)
    (cs : list node) :
  is_container local = true ->
  mirror cx (Element (M local) a cs)
  = [Element (M local) (rtl_attrs ∅ a)
       (merge_text (transform_all Rtl (push cx (M local) a) cs))].
Proof.
  intros Hc. unfold mirror.
  assert (E : select_template (name_of_mode Rtl) (M local) a cs = Some T_rtl_container).
  { unfold is_container in Hc. cbn [existsb] in Hc.
    repeat (apply orb_prop in Hc as [Hc|Hc]; [apply String.eqb_eq in Hc; subst local;
                                               reflexivity|]).
    discriminate Hc. }
  pose proof (transform_element Rtl cx (M local) a cs _ E) as H.
  unfold run_template, t_rtl_container in H. over_transform H.
  apply (inj Some) in H. rewrite <- H. reflexivity.
Qed.

Lemma mirror_containers_witness :
  (is_container "mover" = true)
  /\ (mirror sample_context (Element (M "mover") ∅ [mo_ "x"; mo_ "^"])
  = [Element (M "mover") (rtl_attrs ∅ ∅)
       (merge_text (transform_all Rtl (push sample_context (M "mover") ∅) [mo_ "x"; mo_
           "^"]))]).
Proof.
  assert (h1 : is_container "mover" = true)
    by (vm_compute; reflexivity).
  exact (conj h1 (mirror_containers sample_context "mover" ∅ [mo_ "x"; mo_ "^"] h1)).
Defined.

(** ** A line under a number *)

Lemma transform_line (cx : context) (a : gmap string string) (cs : list node) (p : XNum.t) :
  no_length a = true ->
  transform (Mstack1 p) cx (Element (M "msline") a cs) = [line_row (msline_thickness a)].
Proof.
  intros Hn. pose proof (transform_msline cx a cs p) as H.
  apply (inj Some) in H. rewrite <- H. unfold t_row_msline, msline_l. rewrite Hn.
  reflexivity.
Qed.

Lemma fold_anchors (ks : list nat) :
  forall b,
    fold_left wider (map (fun k => XNum.to_string (XNum.of_nat k)) ks)
              (XNum.to_string (XNum.of_nat b))
    = XNum.to_string (XNum.of_nat (Nat.max b (list_max ks))).
Proof.
  induction ks as [|k ks IH]; intros b.
  - cbn [map fold_left list_max fold_right]. rewrite Nat.max_0_r. reflexivity.
  - cbn [map fold_left]. unfold wider at 2. rewrite !of_string_to_string.
    rewrite sorts_below_of_nat.
    change (list_max (k :: ks)) with (Nat.max k (list_max ks)).
    destruct (Nat.ltb_spec b k).
    + rewrite IH. replace (Nat.max b (Nat.max k (list_max ks)))
        with (Nat.max k (list_max ks)) by lia. reflexivity.
    + rewrite IH. replace (Nat.max b (Nat.max k (list_max ks)))
        with (Nat.max b (list_max ks)) by lia. reflexivity.
Qed.

Lemma max_l_with_line (k0 : nat) (ks ks' : list nat) :
  max_l (map (fun k => XNum.to_string (XNum.of_nat k)) (k0 :: ks)
         ++ "*" :: map (fun k => XNum.to_string (XNum.of_nat k)) ks')
  = XNum.to_string (XNum.of_nat (list_max (k0 :: ks ++ ks'))).
Proof.
  cbn [map app max_l]. fold wider.
  rewrite fold_left_app, fold_anchors. cbn [fold_left]. unfold wider at 2.
  rewrite of_string_to_string.
  change (XNum.of_string "*") with XNum.NaN. cbn [sorts_below XNum.of_nat XNum.of_Z].
  rewrite fold_anchors.
  change (list_max (k0 :: ks ++ ks')) with (Nat.max k0 (list_max (ks ++ ks'))).
  rewrite list_max_app, Nat.max_assoc. reflexivity.
Qed.

Lemma stack_rows_shown (maxl : string) (tn te : nat) (rows : list node) :
  Forall (fun r => String.eqb (class_of r) "mscarries" = false) rows ->
  forall prev,
    match prev with
    | Some q => String.eqb (class_of q) "mscarries" = false
    | None => True
    end ->
    stack_rows maxl tn te prev rows
    = concat (map (fun r => [Text newline; stack_row maxl tn te None r]) rows).
Proof.
  induction 1 as [|r rows Hr _ IH]; intros prev Hp; [reflexivity|].
  cbn [map stack_rows concat]. rewrite Hr. cbn [negb orb].
  rewrite IH by exact Hr.
  destruct prev as [q|]; [rewrite Hp|]; reflexivity.
Qed.

Lemma count_nodes_elements (n : node) : count_elements n <= count_nodes n.
Proof.
  induction n as [s|nm a cs IH] using node_ind_children; [cbn; lia|].
  cbn [count_elements count_nodes]. apply le_n_S.
  induction IH as [|c l Hc _ IHl]; [reflexivity|].
  cbn [map list_sum fold_right]. fold (list_sum (map count_elements l)).
  fold (list_sum (map count_nodes l)). lia.
Qed.

Lemma count_nodes_list (l : list node) :
  list_sum (map count_elements l) <= list_sum (map count_nodes l).
Proof.
  induction l as [|c l IH]; [reflexivity|].
  cbn [map list_sum fold_right]. fold (list_sum (map count_elements l)).
  fold (list_sum (map count_nodes l)). pose proof (count_nodes_elements c). lia.
Qed.

Lemma stack_row_line (w : nat) (tn te : nat) (thick : string) :
  w <= tn ->
  stack_row (XNum.to_string (XNum.of_nat w)) tn te None (line_row thick)
  = Element (M "mtr") {["class" := "msline"]} (repeat (msline_cell "mslinemax" thick) w).
Proof.
  intros Hw. unfold stack_row.
  change (class_of (line_row thick)) with "msline".
  change (attr (attrs_of (line_row thick)) "l") with "*".
  cbn [String.eqb andb]. cbv iota.
  change (nth_element (children_of (line_row thick)) 1) with [msline_cell "mslinemax" thick].
  rewrite of_string_to_string. unfold XNum.of_nat.
  rewrite positions_upto_of_Z, Nat2Z.id, Nat.min_l by exact Hw.
  unfold mk. f_equal.
  induction w as [|w IH]; [reflexivity|].
  cbn [repeat concat app]. rewrite <- IH by lia.
  change (msline_cell "mslinemax" thick)
    with (Element (M "mtd") (attrs_of_list [("class", "mslinemax")])
            (children_of (msline_cell "mslinemax" thick))) at 1 3.
  reflexivity.
Qed.

Lemma rows_block_app (l k : list node) : rows_block (l ++ k) = rows_block l ++ rows_block k.
Proof. unfold rows_block. rewrite map_app, concat_app. reflexivity. Qed.

Lemma rows_block_clean (es : list node) :
  Forall (fun n => ml_clean n = true) es ->
  Forall (fun n => ml_clean n = true) (rows_block es).
Proof.
  induction 1 as [|e es He _ IH]; [constructor|].
  constructor; [reflexivity|]. constructor; [exact He|exact IH].
Qed.

Lemma head_elements_app (l k : list node) :
  Forall (fun n => ml_clean n = true) l ->
  match head (elements k) with
  | Some s => is_line s
  | None => false
  end = false ->
  match head (elements (l ++ k)) with
  | Some s => is_line s
  | None => false
  end = false.
Proof.
  intros Hl Hk. induction Hl as [|c l Hc _ IH]; [exact Hk|].
  destruct c as [nm a cs|s]; [|exact IH].
  cbn [app]. rewrite elements_cons_element. cbn [head].
  apply ml_clean_not_line, Hc.
Qed.

Lemma ml_list_clean_app (l k : list node) :
  Forall (fun n => ml_clean n = true) l ->
  match head (elements k) with
  | Some s => is_line s
  | None => false
  end = false ->
  forall prev, ml_list prev (l ++ k) = l ++ ml_list (prev || existsb is_element l) k.
Proof.
  intros Hl Hk. induction Hl as [|c l Hc Hl IH]; intros prev.
  - cbn [app existsb]. rewrite orb_false_r. reflexivity.
  - cbn [app ml_list existsb].
    rewrite ml_clean_fixed; [|exact Hc|apply head_elements_app; assumption].
    cbn [app]. f_equal. rewrite IH, orb_assoc. reflexivity.
Qed.

Lemma underlined_all (lc : node) (w : nat) (cells : list node) :
  has_padded lc = true -> length cells <= w ->
  Forall (fun c => has_name (M "mtd") c = true) cells ->
  imap (underlined_cell (repeat lc w)) cells = map underline cells.
Proof.
  intros Hlc Hlen Hc.
  assert (G : forall (cells : list node) (f : nat -> nat),
             (forall i, i < length cells -> f i < w) ->
             imap (fun i => underlined_cell (repeat lc w) (f i)) cells = map underline cells).
  { clear cells Hlen Hc. induction cells as [|c cells IH]; intros f Hf; [reflexivity|].
    cbn [imap map]. f_equal.
    - unfold underlined_cell, underline.
      assert (E : nth_error (repeat lc w) (f 0) = Some lc).
      { apply nth_error_repeat. apply Hf. cbn [length]. lia. }
      rewrite E, Hlc. unfold lit, mk. cbn [merge_text].
      rewrite (merge_text_elements (elements (children_of c))); [reflexivity|].
      apply List.Forall_forall. intros x. apply elements_is_element.
    - apply (IH (fun i => f (S i))). intros i Hi. apply Hf. cbn [length]. lia. }
  apply (G cells (fun i => i)). intros i Hi. lia.
Qed.

Lemma padded_clean (w : nat) (r : nat * list node) :
  good_row r -> ml_clean (padded w r) = true.
Proof.
  intros [Hg _]. unfold padded. cbn [ml_clean].
  change (qname_eqb (M "mtr") (M "none")) with false.
  change (String.eqb (attr ∅ "class") "msline") with false. cbn [negb andb].
  assert (Hcells : good_cells (repeat empty_cell (w - fst r) ++ snd r)).
  { apply Forall_app_2; [|exact Hg].
    apply List.Forall_forall. intros c Hc. apply repeat_spec in Hc. subst c.
    split; reflexivity. }
  rewrite separated_elements by (apply good_cells_elements; exact Hcells).
  apply forallb_forall. intros c Hc.
  pose proof (good_cells_clean _ Hcells) as F. rewrite List.Forall_forall in F.
  apply F, Hc.
Qed.

Lemma max_l_lined (ks ks' : list nat) :
  ks <> [] ->
  max_l (map (fun k => XNum.to_string (XNum.of_nat k)) ks
         ++ "*" :: map (fun k => XNum.to_string (XNum.of_nat k)) ks')
  = XNum.to_string (XNum.of_nat (list_max (ks ++ ks'))).
Proof. destruct ks as [|k0 ks]; [congruence|]. intros _. apply max_l_with_line. Qed.

Lemma anchors_of_rows (rs : list (nat * list node)) :
  omap (fun r => attrs_of r !! "l") (map anchored_row rs)
  = map (fun k => XNum.to_string (XNum.of_nat k)) (map fst rs).
Proof.
  induction rs as [|r rs IH]; [reflexivity|].
  cbn [map omap list_omap]. change (attrs_of (anchored_row r) !! "l")
    with (Some (XNum.to_string (XNum.of_nat (fst r)))).
  cbv iota. f_equal. exact IH.
Qed.

Lemma count_elements_rows (rs : list (nat * list node)) (r : nat * list node) :
  In r rs -> good_row r ->
  fst r <= list_sum (map count_elements (map anchored_row rs)).
Proof.
  intros Hin [Hg Hk].
  transitivity (count_elements (anchored_row r)).
  - change (count_elements (anchored_row r))
      with (S (list_sum (map count_elements (snd r)))).
    pose proof (count_elements_cells (snd r) (good_cells_elements _ Hg)). lia.
  - induction rs as [|x rs IH]; [destruct Hin|].
    cbn [map list_sum fold_right]. fold (list_sum (map count_elements (map anchored_row rs))).
    destruct Hin as [->|Hin]; [lia|]. specialize (IH Hin). lia.
Qed.

Lemma list_sum_app (l k : list nat) : list_sum (l ++ k) = list_sum l + list_sum k.
Proof.
  induction l as [|x l IH]; [reflexivity|].
  cbn [app list_sum fold_right]. fold (list_sum (l ++ k)). fold (list_sum l). lia.
Qed.

Lemma stack_table_lined (a : gmap string string) (rs0 rs1 : list (nat * list node))
    (r : nat * list node) (thick : string) :
  Forall good_row (rs0 ++ r :: rs1) ->
  Forall (fun c => has_name (M "mtd") c = true) (snd r) ->
  length (snd r) <= fst r ->
  stack_table a (map anchored_row (rs0 ++ [r]) ++ line_row thick :: map anchored_row rs1)
  = [Element (M "mtable") (table_attrs a)
       (merge_text
          (rows_block (map (padded (list_max (map fst (rs0 ++ r :: rs1)))) rs0)
           ++ [Text newline;
               Element (M "mtr") ∅
                 (map underline
                      (repeat empty_cell (list_max (map fst (rs0 ++ r :: rs1)) - fst r)
                       ++ snd r));
               Text newline]
           ++ rows_block (map (padded (list_max (map fst (rs0 ++ r :: rs1)))) rs1)))].
Proof.
  intros Hgood Hmtd Hlen.
  set (w := list_max (map fst (rs0 ++ r :: rs1))).
  set (t := map anchored_row (rs0 ++ [r]) ++ line_row thick :: map anchored_row rs1).
  assert (Hall : forall x, In x (rs0 ++ r :: rs1) -> good_row x /\ fst x <= w).
  { intros x Hx. rewrite List.Forall_forall in Hgood. split; [apply Hgood, Hx|].
    apply list_max_ge, in_map, Hx. }
  assert (Hel : Forall (fun n => is_element n = true) t).
  { apply Forall_app_2; [|constructor; [reflexivity|]];
      apply List.Forall_forall; intros n Hn; apply in_map_iff in Hn as (x & <- & _);
      reflexivity. }
  unfold stack_table. rewrite (elements_all t Hel).
  assert (Hmax : max_l (omap (fun r => attrs_of r !! "l") t)
                 = XNum.to_string (XNum.of_nat w)).
  { unfold t. rewrite omap_app. cbn [omap list_omap].
    change (attrs_of (line_row thick) !! "l") with (Some "*"). cbv iota.
    change (list_omap node string (fun r => attrs_of r !! "l"))
      with (omap (M := list) (fun r : node => attrs_of r !! "l")).
    rewrite !anchors_of_rows, max_l_lined by (rewrite map_app; destruct (map fst rs0); discriminate).
    unfold w. rewrite <- map_app, <- app_assoc. reflexivity. }
  rewrite Hmax.
  set (te := list_sum (map count_elements t)). set (tn := list_sum (map count_nodes t)).
  assert (Hte : w <= te).
  { assert (Hin : In w (map fst (rs0 ++ r :: rs1))).
    { unfold w. destruct rs0 as [|x rs0]; apply list_max_in. }
    apply in_map_iff in Hin as (x & Ex & Hin). rewrite <- Ex.
    destruct (Hall x Hin) as [Hg _].
    unfold te, t. rewrite (map_app count_elements), list_sum_app.
    rewrite (map_cons count_elements). cbn [list_sum fold_right].
    fold (list_sum (map count_elements (map anchored_row rs1))).
    apply in_app_or in Hin as [Hin|[<-|Hin]].
    - pose proof (count_elements_rows (rs0 ++ [r]) x
                    ltac:(apply in_or_app; left; exact Hin) Hg). lia.
    - pose proof (count_elements_rows (rs0 ++ [r]) r
                    ltac:(apply in_or_app; right; left; reflexivity) Hg). lia.
    - pose proof (count_elements_rows rs1 x Hin Hg). lia. }
  assert (Htn : w <= tn).
  { pose proof (count_nodes_list t). unfold tn, te in *. lia. }
  rewrite stack_rows_shown; [|apply List.Forall_forall; intros n Hn|exact I].
  2:{ unfold t in Hn. apply in_app_or in Hn as [Hn|[<-|Hn]]; [|reflexivity|];
        apply in_map_iff in Hn as (x & <- & _); reflexivity. }
  assert (G : forall x, In x (rs0 ++ r :: rs1) ->
                        stack_row (XNum.to_string (XNum.of_nat w)) tn te None
                                  (anchored_row x) = padded w x).
  { intros x Hx. destruct (Hall x Hx) as [[Hg _] Hw].
    apply stack_row_plain; [exact Hg|lia]. }
  assert (Hrows : map (stack_row (XNum.to_string (XNum.of_nat w)) tn te None) t
                  = map (padded w) rs0
                    ++ [padded w r;
                        Element (M "mtr") {["class" := "msline"]}
                          (repeat (msline_cell "mslinemax" thick) w)]
                    ++ map (padded w) rs1).
  { unfold t. rewrite (map_app anchored_row), !map_app, <- app_assoc. cbn [map app].
    rewrite stack_row_line by exact Htn.
    rewrite (G r) by (apply in_or_app; right; left; reflexivity).
    rewrite !map_map. f_equal; [|f_equal; f_equal].
    - apply map_ext_in. intros x Hx. apply G, in_or_app. left. exact Hx.
    - apply map_ext_in. intros x Hx. apply G, in_or_app. right. right. exact Hx. }
  change (concat (map (fun r => [Text newline;
                                 stack_row (XNum.to_string (XNum.of_nat w)) tn te None r]) t))
    with (concat (map (fun e => [Text newline; e])
                      (map (stack_row (XNum.to_string (XNum.of_nat w)) tn te None) t)))
    || rewrite <- (map_map (stack_row (XNum.to_string (XNum.of_nat w)) tn te None)
                           (fun e => [Text newline; e])).
  fold (rows_block (map (stack_row (XNum.to_string (XNum.of_nat w)) tn te None) t)).
  rewrite Hrows. clear Hrows Hmax.
  set (lrow := Element (M "mtr") {["class" := "msline"]} _).
  assert (Hsep : forall es, Forall (fun n => is_element n = true) es ->
                            separated (rows_block es) = true).
  { intros es. induction 1 as [|[nm b cs|s] es He _ IH]; [reflexivity| |discriminate He].
    cbn [rows_block map concat app separated]. exact IH. }
  unfold mk at 1. rewrite merge_text_separated.
  2:{ apply Hsep. repeat apply Forall_app_2; try (repeat constructor; fail);
        apply List.Forall_forall; intros n Hn; apply in_map_iff in Hn as (x & <- & _);
        reflexivity. }
  rewrite ml_element.
  change (ml_select false None (M "mtable") _) with (Some ML_copy). cbv iota.
  f_equal. unfold mk. f_equal. f_equal.
  rewrite !rows_block_app.
  assert (Hc0 : Forall (fun n => ml_clean n = true) (map (padded w) rs0)).
  { apply List.Forall_forall. intros n Hn. apply in_map_iff in Hn as (x & <- & Hx).
    apply padded_clean, Hall, in_or_app. left. exact Hx. }
  assert (Hc1 : Forall (fun n => ml_clean n = true) (map (padded w) rs1)).
  { apply List.Forall_forall. intros n Hn. apply in_map_iff in Hn as (x & <- & Hx).
    apply padded_clean, Hall, in_or_app. right. right. exact Hx. }
  rewrite ml_list_clean_app; [|apply rows_block_clean, Hc0|reflexivity].
  f_equal.
  change (rows_block [padded w r; lrow])
    with [Text newline; padded w r; Text newline; lrow].
  cbn [app ml_list].
  change (is_element (Text newline)) with false.
  change (is_element (padded w r)) with true.
  change (is_element lrow) with true.
  rewrite !orb_false_r, !orb_true_r.
  change (ml _ _ (Text newline)) with [Text newline].
  change (ml true (head (elements (lrow :: rows_block (map (padded w) rs1))))
             (Text newline)) with [Text newline].
  change (head (elements (Text newline :: lrow :: rows_block (map (padded w) rs1))))
    with (Some lrow).
  unfold padded at 2. unfold lrow at 2. rewrite !ml_element, !ml_select_mtr.
  change (String.eqb (attr ∅ "class") "msline") with false.
  change (is_line lrow) with true.
  change (String.eqb (attr {["class" := "msline"]} "class") "msline") with true.
  cbv iota. cbn [app].
  rewrite ml_list_clean by (apply rows_block_clean, Hc1).
  f_equal. f_equal.
  unfold mk. rewrite merge_text_elements.
  2:{ apply List.Forall_forall. intros n Hn.
      apply list_elem_of_In, elem_of_lookup_imap in Hn as (i & c & -> & _).
      reflexivity. }
  f_equal.
  assert (Hcells : cells_of (Element (M "mtr") ∅ (repeat empty_cell (w - fst r) ++ snd r))
                   = repeat empty_cell (w - fst r) ++ snd r).
  { unfold cells_of. cbn [children_of]. rewrite filter_app. f_equal.
    - induction (w - fst r) as [|n IH]; [reflexivity|].
      cbn [repeat]. rewrite filter_cons, decide_True by exact I. rewrite IH. reflexivity.
    - clear -Hmtd. induction Hmtd as [|c l Hc _ IH]; [reflexivity|].
      rewrite filter_cons, Hc, decide_True by exact I. rewrite IH. reflexivity. }
  rewrite Hcells.
  assert (Hbelow : cells_of lrow = repeat (msline_cell "mslinemax" thick) w).
  { unfold cells_of, lrow. cbn [children_of]. generalize w. intros n.
    induction n as [|n IH]; [reflexivity|].
    cbn [repeat]. rewrite filter_cons, decide_True by exact I. f_equal. exact IH. }
  rewrite Hbelow.
  apply underlined_all; [reflexivity| |].
  - rewrite length_app, repeat_length.
    destruct (Hall r) as [_ Hw]; [apply in_or_app; right; left; reflexivity|]. lia.
  - apply Forall_app_2; [|exact Hmtd].
    apply List.Forall_forall. intros c Hc. apply repeat_spec in Hc. subst c. reflexivity.
Qed.

Lemma transform_all_app (md : mode) (cx : context) (l k : list node) :
  transform_all md cx (l ++ k) = transform_all md cx l ++ transform_all md cx k.
Proof. unfold transform_all, mconcat. rewrite map_app, concat_app. reflexivity. Qed.

Lemma transform_all_cons (md : mode) (cx : context) (n : node) (l : list node) :
  transform_all md cx (n :: l) = transform md cx n ++ transform_all md cx l.
Proof. reflexivity. Qed.

Lemma mn_l_right (cx : context) (a : gmap string string) (mn : string) :
  attr a "stackalign" = "right" ->
  mn_l (push cx (M "mstack") a) mn (XNum.of_Z 0)
  = XNum.to_string (XNum.of_nat (XStr.string_length mn)).
Proof.
  intros Ha. unfold mn_l. rewrite stack_align_pushed, Ha.
  change (XStr.nonempty "right") with true. cbv iota.
  change (String.eqb "right" "right") with true. cbn [orb].
  unfold XNum.of_nat. rewrite add_of_Z. reflexivity.
Qed.

Lemma numbers_right (cx : context) (a : gmap string string) (ss : list string) :
  attr a "stackalign" = "right" ->
  Forall (fun s => width s <= doc_nodes cx) ss ->
  transform_all (Mstack1 (XNum.of_Z 0)) (push cx (M "mstack") a) (map mn_ ss)
  = map anchored_row (map (number_row width) ss).
Proof.
  intros Ha. induction 1 as [|s ss Hs _ IH]; [reflexivity|].
  cbn [map]. rewrite transform_all_cons, IH, transform_number by exact Hs.
  rewrite mn_l_right by exact Ha. reflexivity.
Qed.

Lemma mn_elements (ss : list string) : Forall (fun n => is_element n = true) (map mn_ ss).
Proof.
  apply List.Forall_forall. intros n Hn. apply in_map_iff in Hn as (s & <- & _). reflexivity.
Qed.

Lemma anchored_elements (rs : list (nat * list node)) :
  Forall (fun n => is_element n = true) (map anchored_row rs).
Proof.
  apply List.Forall_forall. intros n Hn. apply in_map_iff in Hn as (s & <- & _). reflexivity.
Qed.

Lemma good_number_row (s : string) : good_row (number_row width s).
Proof.
  split; [apply good_number_cells|]. cbn [number_row fst snd]. rewrite length_map.
  reflexivity.
Qed.

(** X17: for an [mstack] with [stackalign="right"] that holds numbers, none with
    more characters than the document has nodes, and after at least one of
    them an [msline] without a length: the line gets no row of its own; the
    row of the number above it has every cell underlined, padding included,
    and the rows of the other numbers are as in a stack without the line. *)
Theorem line_under_numbers (cx : context) (a al : gmap string string)
    (ss rs : list string) (s : string) (lcs : list node) :
  attr a "stackalign" = "right" ->
  no_length al = true ->
  Forall (fun x => width x <= doc_nodes cx) (ss ++ s :: rs) ->
  transform Default cx
    (Element (M "mstack") a
       (map mn_ (ss ++ [s]) ++ Element (M "msline") al lcs :: map mn_ rs))
  = [Element (M "mtable") (table_attrs a)
       (merge_text
          (rows_block (map (fun x => padded (widest width (ss ++ s :: rs))
                                            (number_row width x)) ss)
           ++ [Text newline;
               Element (M "mtr") ∅
                 (map underline
                      (repeat empty_cell (widest width (ss ++ s :: rs) - width s)
                       ++ map mn_cell (digits s)));
               Text newline]
           ++ rows_block (map (fun x => padded (widest width (ss ++ s :: rs))
                                               (number_row width x)) rs)))].
Proof.
  intros Ha Hl Hn. rewrite transform_mstack.
  apply Forall_app in Hn as [Hn0 Hn1]. inversion Hn1 as [|? ? Hs Hn2]; subst.
  assert (Hn01 : Forall (fun x => width x <= doc_nodes cx) (ss ++ [s])).
  { apply Forall_app_2; [exact Hn0|]. constructor; [exact Hs|constructor]. }
  rewrite elements_all
    by (apply Forall_app_2; [apply mn_elements|constructor; [reflexivity|apply mn_elements]]).
  rewrite transform_all_app, transform_all_cons.
  rewrite !numbers_right by assumption.
  rewrite transform_line by exact Hl. cbn [app].
  rewrite merge_text_elements
    by (apply Forall_app_2; [apply anchored_elements
                            |constructor; [reflexivity|apply anchored_elements]]).
  rewrite map_app. cbn [map].
  rewrite stack_table_lined.
  - unfold widest. rewrite !map_app, !map_map. cbn [map number_row fst snd].
    rewrite !map_map. reflexivity.
  - apply List.Forall_forall. intros r Hr.
    apply in_app_or in Hr as [Hr|[<-|Hr]]; [|apply good_number_row|];
      apply in_map_iff in Hr as (x & <- & _); apply good_number_row.
  - cbn [number_row snd]. apply List.Forall_forall. intros c Hc.
    apply in_map_iff in Hc as (d & <- & _). reflexivity.
  - cbn [number_row fst snd]. rewrite length_map. reflexivity.
Qed.

Lemma line_under_numbers_witness :
  (attr (attrs_of_list [("stackalign", "right")]) "stackalign" = "right")
  /\ (no_length ∅ = true)
  /\ (Forall (fun x => width x <= doc_nodes sample_context) (["12"] ++ "9" :: ["21"]))
  /\ (transform Default sample_context
    (Element (M "mstack") (attrs_of_list [("stackalign", "right")])
       (map mn_ (["12"] ++ ["9"]) ++ Element (M "msline") ∅ [] :: map mn_ ["21"]))
  = [Element (M "mtable") (table_attrs (attrs_of_list [("stackalign", "right")]))
       (merge_text
          (rows_block (map (fun x => padded (widest width (["12"] ++ "9" :: ["21"]))
                                            (number_row width x)) ["12"])
           ++ [Text newline;
               Element (M "mtr") ∅
                 (map underline
                      (repeat empty_cell (widest width (["12"] ++ "9" :: ["21"]) - width
                          "9")
                       ++ map mn_cell (digits "9")));
               Text newline]
           ++ rows_block (map (fun x => padded (widest width (["12"] ++ "9" :: ["21"]))
                                               (number_row width x)) ["21"])))]).
Proof.
  assert (h1 : attr (attrs_of_list [("stackalign", "right")]) "stackalign" = "right")
    by (vm_compute; reflexivity).
  assert (h2 : no_length ∅ = true)
    by (vm_compute; reflexivity).
  assert (h3 : Forall (fun x => width x <= doc_nodes sample_context) (["12"] ++ "9" ::
      ["21"]))
    by (repeat (constructor; [apply Nat.leb_le; reflexivity|]); constructor).
  exact (conj h1 (conj h2 (conj h3 (line_under_numbers sample_context (attrs_of_list
      [("stackalign", "right")]) ∅ ["12"] ["21"] "9" [] h1 h2 h3)))).
Defined.

(** ** Carries *)

Lemma select_carry (nm : qname) (a : gmap string string) (cs : list node) :
  select_template MMsc nm a cs
  = Some (if qname_eqb nm (M "mscarry") then T_carry_mscarry else T_carry_other).
Proof.
  unfold select_template, select_rule, stylesheet, named.
  cbn -[qname_eqb].
  destruct (qname_eqb nm (M "mscarry")); reflexivity.
Qed.

Lemma plain_carry_spec (c : node) :
  plain_carry c = true ->
  is_element c = true /\ has_name (M "mscarry") c = false /\ parsed c = true
  /\ plain c = true /\ (has_name (M "none") c = true \/ ml_clean c = true).
Proof.
  unfold plain_carry. intros H.
  apply andb_prop in H as [H H5]. apply andb_prop in H as [H H4].
  apply andb_prop in H as [H H3]. apply andb_prop in H as [H1 H2].
  apply negb_true_iff in H2. apply orb_prop in H5. auto.
Qed.

Lemma transform_carry (cx : context) (c : node) :
  plain_carry c = true -> parent_attrs cx = ∅ ->
  transform Msc cx c = [carry_cell c].
Proof.
  intros Hc Hp. apply plain_carry_spec in Hc as (He & Hn & Hpa & Hpl & _).
  destruct c as [nm a cs|s]; [|discriminate He].
  cbn [has_name] in Hn.
  assert (E : select_template (name_of_mode Msc) nm a cs = Some T_carry_other)
    by (simpl; rewrite select_carry, Hn; reflexivity).
  pose proof (transform_element Msc cx nm a cs _ E) as H.
  unfold run_template, t_carry_other, carry_content in H. rewrite Hp in H.
  rewrite bind_some in H. apply (inj Some) in H. rewrite <- H.
  rewrite plain_fixed by assumption. reflexivity.
Qed.

Lemma transform_carries (cx : context) (a : gmap string string) (carries : list node) :
  attr a "stackalign" = "right" ->
  Forall (fun c => plain_carry c = true) carries ->
  transform (Mstack1 (XNum.of_Z 0)) (push cx (M "mstack") a)
            (Element (M "mscarries") ∅ carries)
  = [carries_row carries].
Proof.
  intros Ha Hc.
  assert (E : select_template (name_of_mode (Mstack1 (XNum.of_Z 0))) (M "mscarries") ∅ carries
              = Some T_row_mscarries) by reflexivity.
  pose proof (transform_element (Mstack1 (XNum.of_Z 0)) (push cx (M "mstack") a)
                (M "mscarries") ∅ carries _ E) as H.
  unfold run_template, t_row_mscarries, param_p in H. over_transform H.
  apply (inj Some) in H. rewrite <- H. clear H E.
  assert (He : elements carries = carries).
  { apply elements_all. eapply Forall_impl; [exact Hc|].
    intros c Hcc. apply plain_carry_spec in Hcc. tauto. }
  rewrite He.
  assert (Hal : ancestor_attr (push cx (M "mstack") a) (M "mstack") "stackalign" = "right").
  { unfold ancestor_attr, push. cbn [ancestors].
    rewrite filter_cons, decide_True by reflexivity. exact Ha. }
  rewrite Hal. change (String.eqb "right" "left") with false. cbv iota.
  rewrite of_string_to_string.
  change (attr_sum ∅ "position") with (XNum.of_Z 0).
  unfold XNum.of_nat. rewrite !add_of_Z, Z.add_0_l, Z.add_0_r.
  assert (Hk : transform_all Msc (push (push cx (M "mstack") a) (M "mscarries") ∅) carries
               = map carry_cell carries).
  { clear He. induction Hc as [|c l Hcc _ IH]; [reflexivity|].
    rewrite transform_all_cons, IH, transform_carry by (exact Hcc || reflexivity).
    reflexivity. }
  rewrite Hk. unfold lit, mk. rewrite merge_text_elements; [reflexivity|].
  apply List.Forall_forall. intros n Hn. apply in_map_iff in Hn as (x & <- & _). reflexivity.
Qed.

Lemma positions_equal (z : Z) (n : nat) :
  filter (fun k => XNum.eqb (XNum.of_nat k) (XNum.of_Z z)) (seq 1 n)
  = if ((1 <=? z) && (z <=? Z.of_nat n))%Z then [Z.to_nat z] else [].
Proof.
  induction n as [|n IH].
  - destruct (Z.leb_spec 1 z), (Z.leb_spec z (Z.of_nat 0)); try reflexivity. lia.
  - rewrite seq_S, filter_app, IH, filter_cons, filter_nil.
    pose proof (eqb_of_Z (Z.of_nat (1 + n)) z) as E.
    change (XNum.of_Z (Z.of_nat (1 + n))) with (XNum.of_nat (1 + n)) in E.
    destruct (XNum.eqb (XNum.of_nat (1 + n)) (XNum.of_Z z)); symmetry in E.
    + apply Z.eqb_eq in E. rewrite decide_True by exact I.
      destruct (Z.leb_spec 1 z), (Z.leb_spec z (Z.of_nat n)), (Z.leb_spec z (Z.of_nat (S n)));
        try lia; cbn [andb app]. f_equal. lia.
    + apply Z.eqb_neq in E. rewrite decide_False by (intros []). rewrite app_nil_r.
      destruct (Z.leb_spec 1 z), (Z.leb_spec z (Z.of_nat n)), (Z.leb_spec z (Z.of_nat (S n)));
        try lia; reflexivity.
Qed.

Lemma at_position_of_Z (l : list node) (z : Z) :
  at_position l (XNum.of_Z z)
  = if ((1 <=? z) && (z <=? Z.of_nat (length l)))%Z
    then nth_error l (Z.to_nat z - 1) else None.
Proof.
  unfold at_position. rewrite positions_equal.
  destruct ((1 <=? z) && (z <=? Z.of_nat (length l)))%Z; reflexivity.
Qed.

Lemma over_digit_cell (c x : node) :
  has_name (M "mtd") x = true -> attrs_of x = ∅ ->
  Forall (fun n => is_element n = true) (children_of x) ->
  is_element c = true ->
  carried_cell (Some (carry_cell c)) x = over_digit c x.
Proof.
  intros Hx Ha Hk Hc. unfold carried_cell, over_digit.
  destruct x as [nm a cs|s]; [|discriminate Hx].
  cbn [has_name] in Hx. apply qname_eqb_eq in Hx. subst nm.
  cbn [attrs_of children_of] in *. subst a.
  change (attr (attrs_of (carry_cell c)) "crossout") with "".
  change (attr (attrs_of (carry_cell c)) "location") with "".
  cbn [XStr.nonempty String.eqb orb negb]. cbv iota.
  assert (Ec : elements (children_of (carry_cell c)) = [c]).
  { destruct c; [reflexivity|discriminate Hc]. }
  rewrite Ec, (elements_all cs Hk). cbn [existsb nonempty_list negb]. rewrite orb_false_r.
  destruct (has_name (M "none") c).
  - unfold mk. rewrite merge_text_elements by exact Hk. reflexivity.
  - unfold mpadded_carry, lit, mk.
    assert (Hcc : merge_text [c] = [c]) by (destruct c; [reflexivity|discriminate Hc]).
    rewrite Hcc. rewrite (merge_text_elements (cs ++ _)).
    + reflexivity.
    + apply Forall_app_2; [exact Hk|]. repeat constructor.
Qed.

Lemma imap_zip (cells carries : list node) :
  forall g : nat -> node -> node,
    (forall i c x, nth_error carries i = Some c -> nth_error cells i = Some x ->
                   g i x = over_digit c x) ->
    length cells = length carries ->
    imap g cells = zip_with over_digit carries cells.
Proof.
  revert carries. induction cells as [|x cells IH]; intros carries g Hg Hlen.
  - destruct carries; reflexivity.
  - destruct carries as [|c carries]; [discriminate Hlen|].
    cbn [imap zip_with]. f_equal.
    + apply (Hg 0 c x); reflexivity.
    + apply IH; [|cbn [length] in Hlen; lia].
      intros i c' x' Hc Hx. apply (Hg (S i) c' x'); assumption.
Qed.

Lemma map_const_repeat {A B : Type} (g : A -> B) (b : B) (l : list A) :
  (forall x, In x l -> g x = b) -> map g l = repeat b (length l).
Proof.
  induction l as [|x l IH]; intros H; [reflexivity|].
  cbn [map length repeat]. rewrite (H x (or_introl eq_refl)), IH; [reflexivity|].
  intros y Hy. apply H. right. exact Hy.
Qed.

Lemma sub_of_nat (x y : nat) :
  XNum.sub (XNum.of_nat x) (XNum.of_nat y) = XNum.of_Z (Z.of_nat x - Z.of_nat y).
Proof. apply sub_of_Z. Qed.

Lemma sub_of_nat_Z (x : nat) (z : Z) :
  XNum.sub (XNum.of_nat x) (XNum.of_Z z) = XNum.of_Z (Z.of_nat x - z).
Proof. apply sub_of_Z. Qed.

Lemma add_of_nat_Z (x : nat) (z : Z) :
  XNum.add (XNum.of_nat x) (XNum.of_Z z) = XNum.of_Z (Z.of_nat x + z).
Proof. apply add_of_Z. Qed.

Lemma stack_row_carried (w tn te : nat) (carries : list node) (r : nat * list node) :
  fst r = length carries -> length (snd r) = length carries ->
  fst r <= w -> w - fst r <= te ->
  Forall digit_cell (snd r) ->
  Forall (fun c => is_element c = true) carries ->
  stack_row (XNum.to_string (XNum.of_nat w)) tn te (Some (carries_row carries))
            (anchored_row r)
  = Element (M "mtr") ∅
      (repeat empty_cell (w - fst r) ++ zip_with over_digit carries (snd r)).
Proof.
  intros Hk Hlen Hw Hte Hcells Hcar. unfold stack_row.
  change (class_of (anchored_row r)) with "".
  change (attr (attrs_of (anchored_row r)) "l")
    with (XNum.to_string (XNum.of_nat (fst r))).
  change (children_of (anchored_row r)) with (snd r).
  change (attr (attrs_of (carries_row carries)) "l")
    with (XNum.to_string (XNum.of_nat (length carries))).
  change (children_of (carries_row carries)) with (map carry_cell carries).
  cbn [String.eqb andb]. cbv iota.
  rewrite !of_string_to_string, !sub_of_nat, positions_upto_of_Z.
  replace (Nat.min (Z.to_nat (Z.of_nat w - Z.of_nat (fst r))) te) with (w - fst r) by lia.
  assert (Het : elements (map carry_cell carries) = map carry_cell carries).
  { apply elements_all, List.Forall_forall. intros n Hn.
    apply in_map_iff in Hn as (x & <- & _). reflexivity. }
  assert (Hes : elements (snd r) = snd r).
  { apply elements_all. eapply Forall_impl; [exact Hcells|].
    intros x (Hx & _). destruct x; [reflexivity|discriminate Hx]. }
  rewrite Het, Hes.
  assert (Hpad : map (fun pn => carry_pad
                                  (at_position (map carry_cell carries)
                                     (XNum.sub (XNum.of_nat pn)
                                        (XNum.of_Z (Z.of_nat w - Z.of_nat (length carries))))))
                     (seq 1 (w - fst r))
                 = repeat empty_cell (w - fst r)).
  { rewrite (map_const_repeat _ empty_cell); [rewrite length_seq; reflexivity|].
    intros pn Hpn. apply in_seq in Hpn. rewrite sub_of_nat_Z, at_position_of_Z.
    destruct (Z.leb_spec 1 (Z.of_nat pn - (Z.of_nat w - Z.of_nat (length carries))));
      [lia|reflexivity]. }
  rewrite Hpad.
  rewrite (imap_zip (snd r) carries).
  - unfold mk. rewrite merge_text_elements; [reflexivity|].
    apply Forall_app_2.
    + apply List.Forall_forall. intros c Hc. apply repeat_spec in Hc. subst c. reflexivity.
    + apply List.Forall_forall. intros n Hn.
      apply list_elem_of_In, elem_of_lookup_zip_with in Hn as (i & c & x & -> & _ & Hx).
      unfold over_digit. destruct (has_name (M "none") c); [|reflexivity].
      apply list_elem_of_lookup_2, list_elem_of_In in Hx.
      rewrite List.Forall_forall in Hcells. destruct (Hcells x Hx) as (Hn & _).
      destruct x; [reflexivity|discriminate Hn].
  - intros i c x Hc Hx.
    rewrite add_of_nat_Z, at_position_of_Z, length_map.
    assert (Hi : i < length carries) by (apply nth_error_Some; congruence).
    rewrite (proj2 (Z.leb_le 1 _)) by lia.
    rewrite (proj2 (Z.leb_le _ (Z.of_nat (length carries)))) by lia.
    cbn [andb].
    replace (Z.to_nat (Z.of_nat (S i) + (Z.of_nat (length carries) - Z.of_nat (fst r))) - 1)
      with i by lia.
    rewrite nth_error_map, Hc. cbn [option_map].
    apply nth_error_In in Hx, Hc.
    rewrite List.Forall_forall in Hcells, Hcar.
    destruct (Hcells x Hx) as (H1 & H2 & H3).
    apply over_digit_cell; auto.
  - exact Hlen.
Qed.

Lemma over_digit_clean (c x : node) :
  plain_carry c = true -> digit_cell x -> ml_clean x = true ->
  is_element (over_digit c x) = true /\ ml_clean (over_digit c x) = true.
Proof.
  intros Hc (Hx & Ha & Hk) Hcl. unfold over_digit.
  apply plain_carry_spec in Hc as (He & _ & _ & _ & Hn).
  destruct (has_name (M "none") c).
  - split; [destruct x; [reflexivity|discriminate Hx]|exact Hcl].
  - destruct Hn as [Hn|Hn]; [discriminate Hn|]. split; [reflexivity|].
    destruct x as [nm b cs|s]; [|discriminate Hx].
    cbn [children_of ml_clean] in *.
    apply andb_prop in Hcl as [_ Hcs].
    change (qname_eqb (M "mtd") (M "none")) with false.
    change (qname_eqb (M "mover") (M "none")) with false.
    change (qname_eqb (M "mpadded") (M "none")) with false.
    change (String.eqb (attr ∅ "class") "msline") with false.
    change (String.eqb (attr {["width" := "0em"; "lspace" := "-0.5width"]} "class") "msline")
      with false.
    cbn [negb andb forallb separated]. rewrite andb_true_r.
    cbn [ml_clean].
    change (qname_eqb (M "mover") (M "none")) with false.
    change (String.eqb (attr ∅ "class") "msline") with false.
    cbn [negb andb].
    rewrite separated_elements
      by (apply Forall_app_2; [exact Hk|repeat constructor]).
    rewrite forallb_app, Hcs. cbn [forallb ml_clean andb].
    change (qname_eqb (M "mpadded") (M "none")) with false.
    change (String.eqb (attr {["width" := "0em"; "lspace" := "-0.5width"]} "class") "msline")
      with false.
    cbn [negb andb forallb]. rewrite Hn.
    destruct c; [reflexivity|discriminate He].
Qed.

Lemma stack_table_carried (a : gmap string string) (carries : list node)
    (r : nat * list node) (rs : list (nat * list node)) :
  Forall good_row (r :: rs) ->
  fst r = length carries -> length (snd r) = length carries ->
  Forall digit_cell (snd r) ->
  Forall (fun c => plain_carry c = true) carries ->
  stack_table a (carries_row carries :: map anchored_row (r :: rs))
  = [Element (M "mtable") (table_attrs a)
       (rows_block
          (Element (M "mtr") ∅
             (repeat empty_cell (list_max (map fst (r :: rs)) - fst r)
              ++ zip_with over_digit carries (snd r))
           :: map (padded (list_max (map fst (r :: rs)))) rs))].
Proof.
  intros Hgood Hk Hlen Hcells Hcar.
  set (w := list_max (map fst (r :: rs))).
  set (t := carries_row carries :: map anchored_row (r :: rs)).
  assert (Hall : forall x, In x (r :: rs) -> good_row x /\ fst x <= w).
  { intros x Hx. rewrite List.Forall_forall in Hgood. split; [apply Hgood, Hx|].
    apply list_max_ge, in_map, Hx. }
  assert (Hel : Forall (fun n => is_element n = true) t).
  { constructor; [reflexivity|apply anchored_elements]. }
  unfold stack_table. rewrite (elements_all t Hel).
  assert (Hmax : max_l (omap (fun r => attrs_of r !! "l") t)
                 = XNum.to_string (XNum.of_nat w)).
  { unfold t. cbn [omap list_omap].
    change (attrs_of (carries_row carries) !! "l")
      with (Some (XNum.to_string (XNum.of_nat (length carries)))). cbv iota.
    change (list_omap node string (fun r => attrs_of r !! "l"))
      with (omap (M := list) (fun r : node => attrs_of r !! "l")).
    rewrite anchors_of_rows.
    change (XNum.to_string (XNum.of_nat (length carries))
            :: map (fun k => XNum.to_string (XNum.of_nat k)) (map fst (r :: rs)))
      with (map (fun k => XNum.to_string (XNum.of_nat k))
                (length carries :: map fst (r :: rs))).
    rewrite max_l_anchors.
    change (list_max (length carries :: map fst (r :: rs)))
      with (Nat.max (length carries) w).
    destruct (Hall r (or_introl eq_refl)) as [_ Hw].
    rewrite Nat.max_r by lia. reflexivity. }
  rewrite Hmax.
  set (te := list_sum (map count_elements t)). set (tn := list_sum (map count_nodes t)).
  assert (Hte : w <= te).
  { assert (Hin : In w (map fst (r :: rs))) by apply list_max_in.
    apply in_map_iff in Hin as (x & Ex & Hin). rewrite <- Ex.
    destruct (Hall x Hin) as [Hg _].
    pose proof (count_elements_rows (r :: rs) x Hin Hg) as Hc.
    unfold te, t. rewrite (map_cons count_elements). cbn [list_sum fold_right].
    fold (list_sum (map count_elements (map anchored_row (r :: rs)))). lia. }
  unfold t. cbn [map stack_rows].
  change (class_of (carries_row carries)) with "mscarries".
  change (class_of (anchored_row r)) with "".
  change (String.eqb "mscarries" "mscarries") with true.
  change (String.eqb "" "mscarries") with false.
  cbn [negb orb app]. cbv iota. cbn [app].
  rewrite stack_rows_plain by reflexivity.
  destruct (Hall r (or_introl eq_refl)) as [_ Hw].
  rewrite stack_row_carried; try assumption; try lia.
  2:{ eapply Forall_impl; [exact Hcar|]. intros c Hc.
      apply plain_carry_spec in Hc. tauto. }
  assert (Hrows : map (fun r0 => [Text newline;
                                  stack_row (XNum.to_string (XNum.of_nat w)) tn te None
                                            (anchored_row r0)]) rs
                  = map (fun e => [Text newline; e]) (map (padded w) rs)).
  { rewrite map_map. apply map_ext_in. intros x Hx.
    destruct (Hall x (or_intror Hx)) as [[Hg _] Hxw].
    rewrite stack_row_plain; [reflexivity|exact Hg|lia]. }
  rewrite Hrows.
  set (top := Element (M "mtr") ∅ _).
  change ([Text newline; top] ++ concat (map (fun e => [Text newline; e]) (map (padded w) rs)))
    with (rows_block (top :: map (padded w) rs)).
  assert (Htop : ml_clean top = true).
  { unfold top. cbn [ml_clean].
    change (qname_eqb (M "mtr") (M "none")) with false.
    change (String.eqb (attr ∅ "class") "msline") with false. cbn [negb andb].
    assert (Hz : Forall (fun n => is_element n = true /\ ml_clean n = true)
                        (repeat empty_cell (w - fst r) ++ zip_with over_digit carries (snd r))).
    { apply Forall_app_2.
      - apply List.Forall_forall. intros c Hc. apply repeat_spec in Hc. subst c.
        split; reflexivity.
      - apply List.Forall_forall. intros n Hn.
        apply list_elem_of_In, elem_of_lookup_zip_with in Hn as (i & c & x & -> & Hc & Hx).
        apply list_elem_of_lookup_2, list_elem_of_In in Hx, Hc.
        rewrite List.Forall_forall in Hcells, Hcar.
        destruct (Hall r (or_introl eq_refl)) as [[Hg _] _].
        pose proof (good_cells_clean _ Hg) as F. rewrite List.Forall_forall in F.
        apply over_digit_clean; auto. }
    rewrite separated_elements by (apply good_cells_elements; exact Hz).
    apply forallb_forall. intros c Hc.
    pose proof (good_cells_clean _ Hz) as F. rewrite List.Forall_forall in F.
    apply F, Hc. }
  assert (Hclean : Forall (fun n => ml_clean n = true) (top :: map (padded w) rs)).
  { constructor; [exact Htop|].
    apply List.Forall_forall. intros n Hn. apply in_map_iff in Hn as (x & <- & Hx).
    apply padded_clean, Hall. right. exact Hx. }
  assert (Hsep : separated (rows_block (top :: map (padded w) rs)) = true).
  { assert (G : forall es, Forall (fun n => is_element n = true) es ->
                           separated (rows_block es) = true).
    { intros es. induction 1 as [|[nm b cs|s] es He _ IH]; [reflexivity| |discriminate He].
      cbn [rows_block map concat app separated]. exact IH. }
    apply G. constructor; [reflexivity|].
    apply List.Forall_forall. intros n Hn. apply in_map_iff in Hn as (x & <- & _).
    reflexivity. }
  unfold mk at 1. rewrite merge_text_separated by exact Hsep.
  rewrite ml_element.
  change (ml_select false None (M "mtable") _) with (Some ML_copy). cbv iota.
  rewrite ml_list_clean by exact (rows_block_clean _ Hclean).
  unfold mk. rewrite merge_text_separated by exact Hsep. reflexivity.
Qed.

Lemma digit_cells (s : string) : Forall digit_cell (map mn_cell (digits s)).
Proof.
  unfold digits. apply Forall_map.
  eapply Forall_impl; [apply chars_nonempty|].
  intros d Hd. cbv beta in Hd. rewrite mn_cell_shape by exact Hd.
  split; [reflexivity|]. split; [reflexivity|].
  cbn [children_of]. destruct (String.eqb d "." || String.eqb d ","); repeat constructor.
Qed.

(** X18: for an [mstack] with [stackalign="right"] that starts with an
    [mscarries] without attributes followed by numbers, where the carries
    are as many as the first number has characters and each is an element
    that only the default template touches: the carries get no row of their
    own; in the row of the first number every digit stands under its carry
    inside an [mover], a digit whose carry is [none] is left as it is, and
    the rows of the other numbers are as without carries. *)
Theorem carries_over_digits (cx : context) (a : gmap string string)
    (carries : list node) (s : string) (ss : list string) :
  attr a "stackalign" = "right" ->
  Forall (fun c => plain_carry c = true) carries ->
  length carries = width s ->
  Forall (fun x => width x <= doc_nodes cx) (s :: ss) ->
  transform Default cx
    (Element (M "mstack") a (Element (M "mscarries") ∅ carries :: map mn_ (s :: ss)))
  = [Element (M "mtable") (table_attrs a)
       (rows_block
          (Element (M "mtr") ∅
             (repeat empty_cell (widest width (s :: ss) - width s)
              ++ zip_with over_digit carries (map mn_cell (digits s)))
           :: map (fun x => padded (widest width (s :: ss)) (number_row width x)) ss))].
Proof.
  intros Ha Hc Hlen Hn. rewrite transform_mstack.
  rewrite elements_all by (constructor; [reflexivity|apply mn_elements]).
  rewrite transform_all_cons, transform_carries, numbers_right by assumption.
  cbn [app]. rewrite merge_text_elements
    by (constructor; [reflexivity|apply anchored_elements]).
  change (map (number_row width) (s :: ss))
    with (number_row width s :: map (number_row width) ss).
  rewrite stack_table_carried.
  - unfold widest. cbn [map number_row fst snd]. rewrite !map_map. reflexivity.
  - apply List.Forall_forall. intros r Hr. destruct Hr as [<-|Hr]; [apply good_number_row|].
    apply in_map_iff in Hr as (x & <- & _). apply good_number_row.
  - cbn [number_row fst]. symmetry. exact Hlen.
  - cbn [number_row snd]. rewrite length_map. symmetry. exact Hlen.
  - apply digit_cells.
  - exact Hc.
Qed.

Lemma carries_over_digits_witness :
  (attr (attrs_of_list [("stackalign", "right")]) "stackalign" = "right")
  /\ (Forall (fun c => plain_carry c = true) [mn_ "1"; Element (M "none") ∅ []])
  /\ (length [mn_ "1"; Element (M "none") ∅ []] = width "19")
  /\ (Forall (fun x => width x <= doc_nodes sample_context) ("19" :: ["12"]))
  /\ (transform Default sample_context
    (Element (M "mstack") (attrs_of_list [("stackalign", "right")]) (Element (M "mscarries")
        ∅ [mn_ "1"; Element (M "none") ∅ []] :: map mn_ ("19" :: ["12"])))
  = [Element (M "mtable") (table_attrs (attrs_of_list [("stackalign", "right")]))
       (rows_block
          (Element (M "mtr") ∅
             (repeat empty_cell (widest width ("19" :: ["12"]) - width "19")
              ++ zip_with over_digit [mn_ "1"; Element (M "none") ∅ []] (map mn_cell (digits
                  "19")))
           :: map (fun x => padded (widest width ("19" :: ["12"])) (number_row width x))
               ["12"]))]).
Proof.
  assert (h1 : attr (attrs_of_list [("stackalign", "right")]) "stackalign" = "right")
    by (vm_compute; reflexivity).
  assert (h2 : Forall (fun c => plain_carry c = true) [mn_ "1"; Element (M "none") ∅ []])
    by (repeat (constructor; [vm_compute; reflexivity|]); constructor).
  assert (h3 : length [mn_ "1"; Element (M "none") ∅ []] = width "19")
    by (vm_compute; reflexivity).
  assert (h4 : Forall (fun x => width x <= doc_nodes sample_context) ("19" :: ["12"]))
    by (repeat (constructor; [apply Nat.leb_le; reflexivity|]); constructor).
  exact (conj h1 (conj h2 (conj h3 (conj h4 (carries_over_digits sample_context
      (attrs_of_list [("stackalign", "right")]) [mn_ "1"; Element (M "none") ∅ []] "19"
      ["12"] h1 h2 h3 h4))))).
Defined.

(** ** Mode mstack1 makes rows *)

Lemma carry_is_cell (cx : context) (nm : qname) (a : gmap string string) (cs : list node) :
  exists a' k, transform Msc cx (Element nm a cs) = [Element (M "mtd") a' k].
Proof.
  pose proof (select_carry nm a cs) as E.
  pose proof (transform_element Msc cx nm a cs _ E) as H.
  destruct (qname_eqb nm (M "mscarry")); unfold run_template in H;
    unfold t_carry_other, t_carry_mscarry in H; over_transform H;
    apply (inj Some) in H; rewrite <- H; unfold mk; eauto.
Qed.

Lemma carries_are_cells (cx : context) (l : list node) :
  Forall (fun n => is_element n = true) l ->
  Forall (fun n => has_name (M "mtd") n = true) (transform_all Msc cx l).
Proof.
  induction 1 as [|[nm a cs|s] l H _ IH]; [constructor| |discriminate H].
  rewrite transform_all_cons.
  destruct (carry_is_cell cx nm a cs) as (a' & k & ->).
  constructor; [reflexivity|exact IH].
Qed.

Lemma cells_merge (l : list node) :
  Forall (fun n => has_name (M "mtd") n = true) l ->
  forallb (has_name (M "mtd")) (merge_text l) = true.
Proof.
  intros H. rewrite merge_text_elements.
  - apply forallb_forall. rewrite List.Forall_forall in H. exact H.
  - eapply Forall_impl; [exact H|]. intros [nm a cs|s] Hn; [reflexivity|discriminate Hn].
Qed.

Lemma row_of_cells (a : list (string * string)) (cells : list node) :
  has_attr (attrs_of_list a) "l" = true ->
  Forall (fun n => has_name (M "mtd") n = true) cells ->
  is_row (lit "mtr" a cells) = true.
Proof.
  intros Ha Hc. unfold is_row, lit, mk. cbn [has_name attrs_of children_of].
  rewrite Ha, cells_merge by exact Hc. reflexivity.
Qed.

Lemma element_rows_cells (row : list node) :
  Forall (fun r => is_row r = true) (elements row) ->
  Forall (fun n => has_name (M "mtd") n = true) (row_cells row).
Proof.
  intros H. unfold row_cells. apply Forall_concat, List.Forall_forall.
  intros l Hl. apply in_map_iff in Hl as (r & <- & Hr).
  apply list_elem_of_In, list_elem_of_filter in Hr as [Hr1 Hr2].
  assert (Hre : In r (elements row)).
  { apply list_elem_of_In, list_elem_of_filter. split; [|exact Hr2].
    destruct r; [exact I|destruct Hr1]. }
  rewrite List.Forall_forall in H. specialize (H r Hre).
  unfold is_row in H. apply andb_prop in H as [_ Hc].
  rewrite forallb_forall in Hc. apply List.Forall_forall. intros c Hcin.
  apply Hc. apply elements_subset. exact Hcin.
Qed.

Lemma rows_only_elements (l : list node) :
  rows_only l -> Forall (fun r => is_row r = true) (elements l).
Proof.
  induction 1 as [|n l H _ IH]; [constructor|].
  destruct H as [->|H]; [exact IH|].
  destruct n as [nm a cs|s]; [|discriminate H].
  rewrite elements_cons_element. constructor; assumption.
Qed.

Lemma rows_only_concat (ls : list (list node)) :
  Forall rows_only ls -> rows_only (concat ls).
Proof. apply Forall_concat. Qed.

Lemma rows_invariant (n : node) :
  is_element n = true ->
  forall (p : XNum.t) (cx : context), rows_only (transform (Mstack1 p) cx n).
Proof.
  induction n as [s|nm a cs IH] using node_ind_children; intros He p cx;
    [discriminate He|].
  destruct (select_some MMstack1 nm a cs) as [t E].
  pose proof (select_template_mode _ _ _ _ _ E) as Hm.
  assert (Hkids : forall p' cx' l, (forall c, In c l -> In c cs /\ is_element c = true) ->
                                   rows_only (transform_all (Mstack1 p') cx' l)).
  { intros p' cx' l Hl. unfold transform_all, mconcat. apply rows_only_concat.
    apply List.Forall_forall. intros r Hr. apply in_map_iff in Hr as (c & <- & Hc).
    destruct (Hl c Hc) as [Hin Hce]. rewrite List.Forall_forall in IH.
    apply IH; assumption. }
  assert (Hels : forall c, In c (elements cs) -> In c cs /\ is_element c = true).
  { intros c Hc. split; [apply elements_subset; exact Hc|].
    apply (elements_is_element cs). exact Hc. }
  destruct t; try discriminate Hm.
  - pose proof (transform_element (Mstack1 p) cx nm a cs _ E) as H.
    unfold run_template, t_row_other in H. over_transform H.
    apply (inj Some) in H; rewrite <- H. constructor; [|constructor].
    right. apply row_of_cells; [reflexivity|]. repeat constructor.
  - pose proof (transform_element (Mstack1 p) cx nm a cs _ E) as H.
    unfold run_template, t_row_msrow in H. over_transform H.
    apply (inj Some) in H; rewrite <- H.
    constructor; [left; reflexivity|]. constructor; [|constructor].
    right. apply row_of_cells; [reflexivity|].
    apply element_rows_cells. rewrite elements_merge_text.
    apply rows_only_elements, Hkids, Hels.
  - pose proof (transform_element (Mstack1 p) cx nm a cs _ E) as H.
    unfold run_template, t_row_mn in H.
    apply (inj Some) in H; rewrite <- H. constructor; [|constructor].
    right. apply row_of_cells; [reflexivity|].
    apply List.Forall_forall. intros c Hc. apply in_map_iff in Hc as (pos & <- & _).
    reflexivity.
  - rewrite transform_msgroup_gen by exact E.
    assert (G : forall (l : list node) (f : nat -> XNum.t),
               (forall c, In c l -> In c cs /\ is_element c = true) ->
               rows_only (concat (imap (fun i c => transform (Mstack1 (f i)) (push cx nm a) c)
                                       l))).
    { induction l as [|c l IHl]; intros f Hl; [constructor|].
      cbn [imap concat]. apply Forall_app_2.
      - destruct (Hl c (or_introl eq_refl)) as [Hin Hc].
        rewrite List.Forall_forall in IH. apply IH; assumption.
      - apply (IHl (fun i => f (S i))). intros c' Hc'. apply Hl. right. exact Hc'. }
    apply (G (elements cs)
             (fun i => XNum.add (XNum.add p (attr_sum a "position"))
                                (XNum.mul (XNum.of_nat i) (attr_sum a "shift")))).
    exact Hels.
  - pose proof (transform_element (Mstack1 p) cx nm a cs _ E) as H.
    unfold run_template, t_row_msline in H.
    apply (inj Some) in H; rewrite <- H. constructor; [|constructor].
    right. apply row_of_cells; [reflexivity|].
    destruct (no_length a); [repeat constructor|].
    apply List.Forall_forall. intros c Hc. apply repeat_spec in Hc. subst c. reflexivity.
  - pose proof (transform_element (Mstack1 p) cx nm a cs _ E) as H.
    unfold run_template, t_row_mscarries in H. over_transform H.
    apply (inj Some) in H; rewrite <- H. constructor; [|constructor].
    right. apply row_of_cells; [reflexivity|].
    apply carries_are_cells. apply List.Forall_forall. intros c. apply elements_is_element.
Qed.

(** X19: mode [mstack1] makes rows only: for every element, whatever its name,
    attributes and children, the parameter [p] and the context, every node
    of the result is a line break or an [mtr] that has an anchor attribute
    [l] and whose children are all [mtd] cells. *)
Theorem lowered_to_rows (n : node) (p : XNum.t) (cx : context) :
  is_element n = true -> rows_only (transform (Mstack1 p) cx n).
Proof. intros He. apply rows_invariant, He. Qed.

Lemma lowered_to_rows_witness :
  (is_element (Element (M "msgroup") ∅ [mn_ "12"; Element (M "msline") ∅ []]) = true)
  /\ (rows_only (transform (Mstack1 (XNum.of_Z 0)) sample_context (Element (M "msgroup") ∅
      [mn_ "12"; Element (M "msline") ∅ []]))).
Proof.
  assert (h1 : is_element (Element (M "msgroup") ∅ [mn_ "12"; Element (M "msline") ∅ []]) =
      true)
    by reflexivity.
  exact (conj h1 (lowered_to_rows (Element (M "msgroup") ∅ [mn_ "12"; Element (M "msline") ∅
      []]) (XNum.of_Z 0) sample_context h1)).
Defined.

Lemma filter_cells (l : list node) :
  Forall (fun n => has_name (M "mtd") n = true) l ->
  filter (fun d => has_name (M "mtd") d) l = l.
Proof.
  induction 1 as [|c l Hc _ IH]; [reflexivity|].
  rewrite filter_cons, Hc, decide_True by exact I. rewrite IH. reflexivity.
Qed.

(** X20: under the alignment right an [msrow] becomes a line break and one [mtr]
    of class msrow; its cells are the cells of the rows that its child
    elements give with the parameter 0, all of them [mtd], and its anchor
    [l] is the number of these cells plus its [position] attribute plus the
    parameter [p]. *)
Theorem msrow_anchored_right (cx : context) (a : gmap string string) (cs : list node)
    (p : XNum.t) :
  stack_align cx = "right" ->
  exists cells : list node,
    transform (Mstack1 p) cx (Element (M "msrow") a cs)
    = [Text newline;
       Element (M "mtr")
         {["class" := "msrow";
           "l" := XNum.to_string
                    (XNum.add (XNum.add (XNum.of_nat (length cells)) (attr_sum a "position"))
                              p)]}
         cells]
    /\ Forall (fun c => has_name (M "mtd") c = true) cells
    /\ cells = row_cells (transform_all (Mstack1 (XNum.of_Z 0)) (push cx (M "msrow") a)
                                        (elements cs)).
Proof.
  intros Ha.
  assert (E : select_template (name_of_mode (Mstack1 p)) (M "msrow") a cs = Some T_row_msrow)
    by reflexivity.
  pose proof (transform_element (Mstack1 p) cx (M "msrow") a cs _ E) as H.
  unfold run_template, t_row_msrow, param_p in H. over_transform H.
  apply (inj Some) in H. rewrite <- H. clear H E.
  set (t := transform_all (Mstack1 (XNum.of_Z 0)) (push cx (M "msrow") a) (elements cs)).
  assert (Hrows : Forall (fun r => is_row r = true) (elements t)).
  { apply rows_only_elements. unfold t, transform_all, mconcat. apply rows_only_concat.
    apply List.Forall_forall. intros r Hr. apply in_map_iff in Hr as (c & <- & Hc).
    apply rows_invariant. apply (elements_is_element cs). exact Hc. }
  assert (Hsame : row_cells (merge_text t) = row_cells t).
  { unfold row_cells. f_equal. f_equal.
    assert (G : forall l, filter (fun r => has_name (M "mtr") r) l
                          = filter (fun r => has_name (M "mtr") r) (elements l)).
    { induction l as [|[nm b k|s] l IH]; [reflexivity| |].
      - rewrite elements_cons_element, !filter_cons, IH. reflexivity.
      - rewrite elements_cons_text, filter_cons, decide_False by (intros []). exact IH. }
    rewrite G, elements_merge_text, <- G. reflexivity. }
  assert (Hcells : Forall (fun n => has_name (M "mtd") n = true) (row_cells t))
    by (apply element_rows_cells; exact Hrows).
  exists (row_cells t). split; [|split; [exact Hcells|reflexivity]].
  unfold msrow_l1. rewrite !Hsame, Ha.
  change (String.eqb "right" "decimalpoint") with false.
  change (String.eqb "right" "right") with true. cbn [andb orb]. cbv iota.
  rewrite filter_cells by exact Hcells. rewrite of_string_to_string.
  unfold lit, mk. rewrite merge_text_elements; [reflexivity|].
  eapply Forall_impl; [exact Hcells|]. intros [nm b k|s] Hn; [reflexivity|discriminate Hn].
Qed.

Lemma msrow_anchored_right_witness :
  (stack_align (in_stack [("stackalign", "right")] 20) = "right")
  /\ (exists cells : list node,
    transform (Mstack1 (XNum.of_Z 0)) (in_stack [("stackalign", "right")] 20) (Element (M
        "msrow") ∅ [mo_ "+"; mn_ "12"])
    = [Text newline;
       Element (M "mtr")
         {["class" := "msrow";
           "l" := XNum.to_string
                    (XNum.add (XNum.add (XNum.of_nat (length cells)) (attr_sum ∅
                        "position"))
                              (XNum.of_Z 0))]}
         cells]
    /\ Forall (fun c => has_name (M "mtd") c = true) cells
    /\ cells = row_cells (transform_all (Mstack1 (XNum.of_Z 0)) (push (in_stack
        [("stackalign", "right")] 20) (M "msrow") ∅)
                                        (elements [mo_ "+"; mn_ "12"]))).
Proof.
  assert (h1 : stack_align (in_stack [("stackalign", "right")] 20) = "right")
    by (vm_compute; reflexivity).
  exact (conj h1 (msrow_anchored_right (in_stack [("stackalign", "right")] 20) ∅ [mo_ "+";
      mn_ "12"] (XNum.of_Z 0) h1)).
Defined.

Lemma mul_of_Z (x y : Z) : XNum.mul (XNum.of_Z x) (XNum.of_Z y) = XNum.of_Z (x * y).
Proof. apply of_Q_inject. rewrite inject_Z_mult. reflexivity. Qed.

Lemma stack_align_inside (cx : context) (nm : qname) (a : gmap string string) :
  qname_eqb nm (M "mstack") = false ->
  stack_align (push cx nm a) = stack_align cx.
Proof.
  intros Hn. unfold stack_align, ancestor_attr, push. cbn [ancestors].
  rewrite filter_cons. cbn [fst]. rewrite Hn, decide_False by (intros []). reflexivity.
Qed.

Lemma concat_singletons {A B : Type} (g : nat -> A -> B) (l : list A) :
  concat (imap (fun i x => [g i x]) l) = imap g l.
Proof.
  revert g. induction l as [|x l IH]; intros g; [reflexivity|].
  cbn [imap concat app]. f_equal. apply (IH (fun i => g (S i))).
Qed.

(** X21: under the alignment right, an [msgroup] of numbers with integer position
    and shift, lowered at the offset [p0], gives one row per number, and
    the row of the [i]-th number, counted from 0, is anchored at
    [p0 + pos + i * shift] plus the number of its characters. *)
Theorem group_offsets (cx : context) (a : gmap string string) (ss : list string)
    (p0 pos shift : Z) :
  stack_align cx = "right" ->
  attr_sum a "position" = XNum.of_Z pos ->
  attr_sum a "shift" = XNum.of_Z shift ->
  Forall (fun s => width s <= doc_nodes cx) ss ->
  transform (Mstack1 (XNum.of_Z p0)) cx (Element (M "msgroup") a (map mn_ ss))
  = imap (fun i s =>
            Element (M "mtr")
              {["l" := XNum.to_string
                         (XNum.of_Z (p0 + pos + Z.of_nat i * shift + Z.of_nat (width s)))]}
              (map mn_cell (digits s)))
         ss.
Proof.
  intros Ha Hpos Hshift Hn.
  rewrite transform_msgroup_gen by reflexivity.
  rewrite elements_all by apply mn_elements.
  rewrite Hpos, Hshift, imap_fmap.
  rewrite <- (concat_singletons
                (fun i s =>
                   Element (M "mtr")
                     {["l" := XNum.to_string
                                (XNum.of_Z (p0 + pos + Z.of_nat i * shift
                                            + Z.of_nat (width s)))]}
                     (map mn_cell (digits s))) ss).
  f_equal. apply imap_ext. intros i s Hs. cbn [compose].
  apply list_elem_of_lookup_2, list_elem_of_In in Hs.
  rewrite List.Forall_forall in Hn.
  rewrite transform_number by (apply Hn, Hs).
  unfold mn_l. rewrite stack_align_inside, Ha by reflexivity.
  change (String.eqb "right" "right") with true. cbn [orb]. cbv iota.
  unfold XNum.of_nat. rewrite mul_of_Z, !add_of_Z. reflexivity.
Qed.

Lemma group_offsets_witness :
  (stack_align (in_stack [("stackalign", "right")] 20) = "right")
  /\ (attr_sum (attrs_of_list [("shift", "1")]) "position" = XNum.of_Z (0%Z))
  /\ (attr_sum (attrs_of_list [("shift", "1")]) "shift" = XNum.of_Z (1%Z))
  /\ (Forall (fun s => width s <= doc_nodes (in_stack [("stackalign", "right")] 20)) ["12";
      "24"])
  /\ (transform (Mstack1 (XNum.of_Z (0%Z))) (in_stack [("stackalign", "right")] 20) (Element
      (M "msgroup") (attrs_of_list [("shift", "1")]) (map mn_ ["12"; "24"]))
  = imap (fun i s =>
            Element (M "mtr")
              {["l" := XNum.to_string
                         (XNum.of_Z ((0%Z) + (0%Z) + Z.of_nat i * (1%Z) + Z.of_nat (width
                             s)))]}
              (map mn_cell (digits s)))
         ["12"; "24"]).
Proof.
  assert (h1 : stack_align (in_stack [("stackalign", "right")] 20) = "right")
    by (vm_compute; reflexivity).
  assert (h2 : attr_sum (attrs_of_list [("shift", "1")]) "position" = XNum.of_Z (0%Z))
    by (vm_compute; reflexivity).
  assert (h3 : attr_sum (attrs_of_list [("shift", "1")]) "shift" = XNum.of_Z (1%Z))
    by (vm_compute; reflexivity).
  assert (h4 : Forall (fun s => width s <= doc_nodes (in_stack [("stackalign", "right")]
      20)) ["12"; "24"])
    by (repeat (constructor; [apply Nat.leb_le; reflexivity|]); constructor).
  exact (conj h1 (conj h2 (conj h3 (conj h4 (group_offsets (in_stack [("stackalign",
      "right")] 20) (attrs_of_list [("shift", "1")]) ["12"; "24"] (0%Z) (0%Z) (1%Z) h1 h2 h3
      h4))))).
Defined.

(** ** The loop of the constructor *)

Section HandlerLoop.

Import Mml3Handler.

(** X22: the constructor of the document class touches at most one input jax:
    without a list of input jaxes the store is unchanged; with one, every
    jax other than the first of the list that is named MathML is left as it
    was, and that first MathML jax, if there is one, is the one given to
    the guarded addition of the filter. *)
Theorem construct_first_only (st : store) (doc : nat) (jaxes : list nat) :
  construct st (doc, None) = st
  /\ (forall l, first_MathML st jaxes <> Some l ->
                construct st (doc, Some jaxes) !! l = st !! l)
  /\ (forall l, first_MathML st jaxes = Some l ->
                exists jax, st !! l = Some jax /\ name jax = "MathML"
                            /\ construct st (doc, Some jaxes) !! l
                               = Some (add_filter doc jax)).
Proof.
  split; [reflexivity|]. unfold construct.
  change (default [] (doc, Some jaxes).2) with jaxes.
  change ((doc, Some jaxes).1) with doc.
  induction jaxes as [|x jaxes IH]; [split; [reflexivity|discriminate]|].
  cbn [visit first_MathML].
  destruct (st !! x) as [jax|] eqn:Ex; [|exact IH].
  destruct (String.eqb (name jax) "MathML") eqn:En; [|exact IH].
  split.
  - intros l Hl. apply lookup_insert_ne. congruence.
  - intros l [= <-]. exists jax. split; [exact Ex|].
    split; [apply String.eqb_eq, En|]. apply lookup_insert_eq.
Qed.

End HandlerLoop.
